(** * Druta template-generation pipeline: shallow embedding and properties

    The development follows the TypeScript sources of the template
    subsystem:

    - [src/template/parser.ts]   : [TemplateParser] (compile cache),
      [TemplateRegistry] (catalog) and [VariableSubstitutionEngine];
    - [src/template/processor.ts]: [StreamingFileProcessor];
    - [src/template/engine.ts]   : [TemplateEngine] (orchestrator).

    Conventions of the embedding.

    - JavaScript numbers that hold instants, counters and sizes are
      integers ([Z]); no arithmetic of the modelled code leaves the
      range in which doubles are exact.
    - A JavaScript [Map] and a plain object used as a record of
      variables are insertion-ordered association lists ([JsMap]); the
      prototype chain of plain objects is not part of the model.
    - [Date.now()] is an explicit argument of every function that reads it.
    - File-system, compiler and schema-validator calls are oracles passed
      as arguments; an oracle answers with a value or with the message of
      the exception it throws.
    - Logging has no effect on any result and is left out. *)

From Stdlib Require Import ZArith List String Ascii Bool Lia DecimalString.
From Stdlib Require Import Permutation Sorted.
Import ListNotations.
#[local] Set Warnings "-register-all".
Local Open Scope list_scope.
Local Open Scope string_scope.

(** ** Results of calls that may throw *)

Inductive Result (A : Type) : Type :=
| Ok (a : A)
| Throw (message : string).
Arguments Ok {A} a.
Arguments Throw {A} message.

Definition bindR {A B : Type} (r : Result A) (k : A -> Result B) : Result B :=
  match r with
  | Ok a => k a
  | Throw m => Throw m
  end.

Definition isOk {A : Type} (r : Result A) : bool :=
  match r with Ok _ => true | Throw _ => false end.

(** ** Insertion-ordered maps with string keys

    [Map.prototype.get/has/set/delete/size] and, for plain objects,
    property read, [in], assignment and [Object.keys/entries]. [set] on a
    present key replaces the value in place, on a new key appends. *)

Module JsMap.
Section WithValue.
Context {V : Type}.

Fixpoint get (k : string) (m : list (string * V)) : option V :=
match m with
| [] => None
| (k', v) :: m' => if String.eqb k k' then Some v else get k m'
end.

Definition has (k : string) (m : list (string * V)) : bool :=
match get k m with Some _ => true | None => false end.

Fixpoint set (k : string) (v : V) (m : list (string * V)) : list (string * V) :=
match m with
| [] => [(k, v)]
| (k', v') :: m' =>
    if String.eqb k k' then (k', v) :: m' else (k', v') :: set k v m'
end.

Fixpoint delete (k : string) (m : list (string * V)) : list (string * V) :=
match m with
| [] => []
| (k', v') :: m' =>
    if String.eqb k k' then delete k m' else (k', v') :: delete k m'
end.

Definition size (m : list (string * V)) : Z := Z.of_nat (List.length m).

Definition keys (m : list (string * V)) : list string := map fst m.

(** [Object.assign(target, source)] and the spread [{...a, ...b}]. *)
Definition assign (target source : list (string * V)) : list (string * V) :=
fold_left (fun acc kv => set (fst kv) (snd kv) acc) source target.

Definition spread (layers : list (list (string * V))) : list (string * V) :=
fold_left assign layers [].

(** Keys are unique in every map built from [[]] by [set]/[delete]. *)
Definition wf (m : list (string * V)) : Prop := NoDup (keys m).
End WithValue.
End JsMap.

(** ** JavaScript values that variables can hold *)

Inductive JsValue : Type :=
| VUndefined
| VNull
| VBool (b : bool)
| VNum (n : Z)
| VStr (s : string)
| VArr (items : list JsValue)
| VObj (props : list (string * JsValue)).

Module Json.

Definition dquote : string := String (ascii_of_nat 34) "".
Definition backslash : string := String (ascii_of_nat 92) "".

Definition hexDigit (n : nat) : string :=
  String (nth n (list_ascii_of_string "0123456789abcdef") "0"%char) "".

(** [QuoteJSONString], character by character. *)
Definition quoteChar (c : ascii) : string :=
  let n := nat_of_ascii c in
  if Nat.eqb n 34 then backslash ++ dquote
  else if Nat.eqb n 92 then backslash ++ backslash
  else if Nat.eqb n 8 then backslash ++ "b"
  else if Nat.eqb n 12 then backslash ++ "f"
  else if Nat.eqb n 10 then backslash ++ "n"
  else if Nat.eqb n 13 then backslash ++ "r"
  else if Nat.eqb n 9 then backslash ++ "t"
  else if Nat.ltb n 32 then
    backslash ++ "u00" ++ hexDigit (Nat.div n 16) ++ hexDigit (Nat.modulo n 16)
  else String c "".

Fixpoint quoteChars (s : string) : string :=
  match s with
  | EmptyString => ""
  | String c s' => quoteChar c ++ quoteChars s'
  end.

Definition QuoteJSONString (s : string) : string :=
  dquote ++ quoteChars s ++ dquote.

(** [Number::toString] on the integers of the model. *)
Definition NumberToString (n : Z) : string :=
  NilZero.string_of_int (Z.to_int n).

Fixpoint join (sep : string) (l : list string) : string :=
  match l with
  | [] => ""
  | [x] => x
  | x :: rest => x ++ sep ++ join sep rest
  end.

(** [Array.prototype.sort()] without comparator on an array of
    distinct strings: ascending code-unit order. *)
Fixpoint insertSorted (s : string) (l : list string) : list string :=
  match l with
  | [] => [s]
  | h :: t => if String.leb s h then s :: l else h :: insertSorted s t
  end.

Definition sortStrings (l : list string) : list string :=
  fold_right insertSorted [] l.

(** [SerializeJSONProperty] once the property value is known, with the
    property list [K] built from an array replacer. [None] is the
    [undefined] result that makes the caller drop the property. The
    same [K] filters the members of every object, at every depth;
    array elements are not filtered. *)
Fixpoint SerializeJSONValue (K : list string) (v : JsValue) : option string :=
  match v with
  | VUndefined => None
  | VNull => Some "null"
  | VBool true => Some "true"
  | VBool false => Some "false"
  | VNum n => Some (NumberToString n)
  | VStr s => Some (QuoteJSONString s)
  | VArr items =>
      Some ("[" ++ join ","
              (map (fun x => match SerializeJSONValue K x with
                             | Some s => s
                             | None => "null"
                             end) items) ++ "]")
  | VObj props =>
      let serialized :=
        map (fun kv => let '(k, x) := kv in (k, SerializeJSONValue K x)) props in
      Some ("{" ++ join ","
              (flat_map (fun P => match JsMap.get P serialized with
                                  | Some (Some s) => [QuoteJSONString P ++ ":" ++ s]
                                  | _ => []
                                  end) K) ++ "}")
  end.

(** [JSON.stringify(value, replacerArray)] for a replacer array of
    distinct strings. *)
Definition stringify (value : JsValue) (replacer : list string) : option string :=
  SerializeJSONValue replacer value.

End Json.

(** ** [TemplateParser]: compilation with a TTL + LRU cache *)

Module TemplateParser.

(** The compiled ETA function is opaque; a handle stands for the
    function object, equal handles for the same object. *)
Definition Template := nat.

Record TemplateMetadata := {
  path : string;
  lastModified : Z;
  size : Z;
  variables : list string;
  helpers : list string;
  partials : list string;
  extends : option string
}.

Record TemplateCompilationResult := {
  template : Template;
  compilationTime : Z;
  dependencies : list string;
  metadata : TemplateMetadata;
  cacheKey : string
}.

Record TemplateCacheEntry := {
  result : TemplateCompilationResult;
  lastAccessed : Z;
  accessCount : Z;
  ttl : Z
}.

Record TemplateParserConfig := {
  templateRoot : string;
  cacheSize : Z
}.

(** [averageCompilationTime] is the quotient of [totalProcessingTime]
    by [totalCompilations] and is not stored. *)
Record PerformanceMetrics := {
  cacheHits : Z;
  cacheMisses : Z;
  totalCompilations : Z;
  totalProcessingTime : Z
}.

Record State := {
  cache : list (string * TemplateCacheEntry);
  performanceMetrics : PerformanceMetrics
}.

Definition initialState : State :=
  {| cache := [];
     performanceMetrics :=
       {| cacheHits := 0; cacheMisses := 0;
          totalCompilations := 0; totalProcessingTime := 0 |} |}.

Definition withCache (st : State) (c : list (string * TemplateCacheEntry)) : State :=
  {| cache := c; performanceMetrics := performanceMetrics st |}.

Record ParseOptions := {
  skipCache : bool;
  optVariables : option (list (string * JsValue))
}.

(** What reading, analysing, inheriting and compiling the file at a
    resolved path produces. *)
Record Compiled := {
  c_template : Template;
  c_metadata : TemplateMetadata;
  c_compilationTime : Z
}.

(** The three instants [parseTemplate] can read from [Date.now()]:
    in [getCachedTemplate], in [evictLeastRecentlyUsed] and in
    [cacheTemplate]. *)
Record Clock := {
  nowLookup : Z;
  nowEvict : Z;
  nowInsert : Z
}.

(** [generateCacheKey] *)
Definition generateCacheKey (templatePath : string)
    (vars : option (list (string * JsValue))) : string :=
  let variableHash :=
    match vars with
    | Some props =>
        match Json.stringify (VObj props) (Json.sortStrings (JsMap.keys props)) with
        | Some s => s
        | None => "undefined"
        end
    | None => ""
    end in
  templatePath ++ ":" ++ variableHash.

(** [getCachedTemplate] *)
Definition getCachedTemplate (now : Z) (key : string) (st : State)
  : option TemplateCacheEntry * State :=
  match JsMap.get key (cache st) with
  | None => (None, st)
  | Some entry =>
      if (now >? ttl entry)%Z then
        (None, withCache st (JsMap.delete key (cache st)))
      else
        let entry' :=
          {| result := result entry;
             lastAccessed := now;
             accessCount := (accessCount entry + 1)%Z;
             ttl := ttl entry |} in
        (Some entry', withCache st (JsMap.set key entry' (cache st)))
  end.

(** [evictLeastRecentlyUsed]: the loop state is [(oldestKey, oldestTime)]. *)
Definition evictStep (acc : string * Z) (kv : string * TemplateCacheEntry)
  : string * Z :=
  if (lastAccessed (snd kv) <? snd acc)%Z
  then (fst kv, lastAccessed (snd kv))
  else acc.

Definition evictLeastRecentlyUsed (now : Z)
    (c : list (string * TemplateCacheEntry)) : list (string * TemplateCacheEntry) :=
  let oldestKey := fst (fold_left evictStep c ("", now)) in
  if String.eqb oldestKey "" then c else JsMap.delete oldestKey c.

(** [cacheTemplate] *)
Definition cacheTemplate (cfg : TemplateParserConfig) (nowE nowI : Z)
    (key : string) (r : TemplateCompilationResult)
    (c : list (string * TemplateCacheEntry)) : list (string * TemplateCacheEntry) :=
  let c1 :=
    if (JsMap.size c >=? cacheSize cfg)%Z
    then evictLeastRecentlyUsed nowE c
    else c in
  JsMap.set key
    {| result := r; lastAccessed := nowI; accessCount := 1;
       ttl := (nowI + 5 * 60 * 1000)%Z |} c1.

Definition updatePerformanceMetrics (t : Z) (m : PerformanceMetrics)
  : PerformanceMetrics :=
  {| cacheHits := cacheHits m;
     cacheMisses := cacheMisses m;
     totalCompilations := (totalCompilations m + 1)%Z;
     totalProcessingTime := (totalProcessingTime m + t)%Z |}.

Definition countHit (m : PerformanceMetrics) : PerformanceMetrics :=
  {| cacheHits := (cacheHits m + 1)%Z;
     cacheMisses := cacheMisses m;
     totalCompilations := totalCompilations m;
     totalProcessingTime := totalProcessingTime m |}.

Definition countMiss (m : PerformanceMetrics) : PerformanceMetrics :=
  {| cacheHits := cacheHits m;
     cacheMisses := (cacheMisses m + 1)%Z;
     totalCompilations := totalCompilations m;
     totalProcessingTime := totalProcessingTime m |}.

Section Parse.
(** [path.resolve] of Node. *)
Variable resolve : string -> string -> string.

(** [parseTemplate]. [compile] answers for the file system and the
    ETA compiler at the time of the call. *)
Definition parseTemplate (cfg : TemplateParserConfig)
    (compile : string -> Result Compiled) (clk : Clock)
    (templatePath : string) (options : ParseOptions) (st : State)
  : Result TemplateCompilationResult * State :=
  let resolvedPath := resolve (templateRoot cfg) templatePath in
  let key := generateCacheKey resolvedPath (optVariables options) in
  let lookup :=
    if skipCache options then (None, st)
    else getCachedTemplate (nowLookup clk) key st in
  match lookup with
  | (Some cached, st1) =>
      (Ok (result cached),
       {| cache := cache st1;
          performanceMetrics := countHit (performanceMetrics st1) |})
  | (None, st1) =>
      let st2 :=
        {| cache := cache st1;
           performanceMetrics := countMiss (performanceMetrics st1) |} in
      match compile resolvedPath with
      | Throw msg =>
          (Throw ("Template compilation failed for " ++ templatePath
                    ++ ": " ++ msg), st2)
      | Ok c =>
          let r :=
            {| template := c_template c;
               compilationTime := c_compilationTime c;
               dependencies := partials (c_metadata c);
               metadata := c_metadata c;
               cacheKey := key |} in
          (Ok r,
           {| cache := cacheTemplate cfg (nowEvict clk) (nowInsert clk)
                         key r (cache st2);
              performanceMetrics :=
                updatePerformanceMetrics (c_compilationTime c)
                  (performanceMetrics st2) |})
      end
  end.
End Parse.

End TemplateParser.

(** ** String helpers of the JavaScript standard library *)

Module Str.

(** [String.prototype.split(sep)] for a one-character separator. *)
Fixpoint splitAux (sep : ascii) (cur : string) (s : string) : list string :=
  match s with
  | EmptyString => [cur]
  | String c s' =>
      if Ascii.eqb c sep then cur :: splitAux sep "" s'
      else splitAux sep (cur ++ String c "") s'
  end.

Definition split (sep : ascii) (s : string) : list string := splitAux sep "" s.

(** White space removed by [String.prototype.trim], within ASCII. *)
Definition isWhiteSpace (c : ascii) : bool :=
  let n := nat_of_ascii c in
  Nat.eqb n 32 || (Nat.leb 9 n && Nat.leb n 13).

Fixpoint trimStart (s : string) : string :=
  match s with
  | EmptyString => ""
  | String c s' => if isWhiteSpace c then trimStart s' else s
  end.

Fixpoint rev (s : string) : string :=
  match s with
  | EmptyString => ""
  | String c s' => rev s' ++ String c ""
  end.

Definition trim (s : string) : string := rev (trimStart (rev (trimStart s))).

(** Truthiness of a string-valued expression: defined and non-empty. *)
Definition truthy (s : option string) : bool :=
  match s with
  | Some s' => negb (String.eqb s' "")
  | None => false
  end.

(** [s.includes(c)] for one character. *)
Fixpoint contains (c : ascii) (s : string) : bool :=
  match s with
  | EmptyString => false
  | String d s' => Ascii.eqb d c || contains c s'
  end.

(** [s.includes("${")] *)
Fixpoint includesOpener (s : string) : bool :=
  match s with
  | String c1 (String c2 _ as tl) =>
      (Ascii.eqb c1 "$"%char && Ascii.eqb c2 "{"%char) || includesOpener tl
  | _ => false
  end.

Definition isDigit (c : ascii) : bool :=
  let n := nat_of_ascii c in Nat.leb 48 n && Nat.leb n 57.

Fixpoint allDigits (s : string) : bool :=
  match s with
  | EmptyString => true
  | String c s' => isDigit c && allDigits s'
  end.

Fixpoint digitsValue (acc : N) (s : string) : N :=
  match s with
  | EmptyString => acc
  | String c s' => digitsValue (acc * 10 + (N_of_ascii c - 48))%N s'
  end.

End Str.

(** ** Semantic versions *)

Module Semver.

(** Modelled from the spec: the [semver] package is a dependency that
    is not part of the sources; versions and ranges follow the
    semantic-versioning rules the specification refers to, on the
    fragment [MAJOR.MINOR.PATCH] for versions and one comparator
    ([^v], [~v], [>=v], [>v], [<=v], [<v], [=v], [v]) for ranges. *)
Definition Version : Type := N * N * N.

(** Modelled from the spec: a numeric identifier is a non-empty run of
    digits without a leading zero. *)
Definition parseNumeric (s : string) : option N :=
  match s with
  | EmptyString => None
  | String c rest =>
      if Str.allDigits s && (negb (Ascii.eqb c "0"%char) || String.eqb rest "")
      then Some (Str.digitsValue 0%N s)
      else None
  end.

(** Modelled from the spec: [semver.parse] on the fragment. *)
Definition parse (s : string) : option Version :=
  match Str.split "."%char s with
  | [a; b; c] =>
      match parseNumeric a, parseNumeric b, parseNumeric c with
      | Some x, Some y, Some z => Some (x, y, z)
      | _, _, _ => None
      end
  | _ => None
  end.

(** Modelled from the spec: precedence of versions. *)
Definition compareV (a b : Version) : comparison :=
  let '(a1, a2, a3) := a in
  let '(b1, b2, b3) := b in
  match N.compare a1 b1 with
  | Eq => match N.compare a2 b2 with
          | Eq => N.compare a3 b3
          | c => c
          end
  | c => c
  end.

Definition ltV (a b : Version) : bool :=
  match compareV a b with Lt => true | _ => false end.
Definition leV (a b : Version) : bool :=
  match compareV a b with Gt => false | _ => true end.
Definition eqV (a b : Version) : bool :=
  match compareV a b with Eq => true | _ => false end.

Inductive Range : Type :=
| Caret (v : Version)
| Tilde (v : Version)
| Ge (v : Version)
| Gt_ (v : Version)
| Le (v : Version)
| Lt_ (v : Version)
| Exact (v : Version).

(** Modelled from the spec: the comparator of a range string. *)
Definition parseRange (r : string) : option Range :=
  match r with
  | String "^" p => option_map Caret (parse p)
  | String "~" p => option_map Tilde (parse p)
  | String ">" (String "=" p) => option_map Ge (parse p)
  | String "<" (String "=" p) => option_map Le (parse p)
  | String ">" p => option_map Gt_ (parse p)
  | String "<" p => option_map Lt_ (parse p)
  | String "=" p => option_map Exact (parse p)
  | p => option_map Exact (parse p)
  end.

(** Modelled from the spec: the upper bound (exclusive) of [^v] and [~v]. *)
Definition caretUpper (v : Version) : Version :=
  let '(x, y, z) := v in
  if negb (N.eqb x 0) then (x + 1, 0, 0)%N
  else if negb (N.eqb y 0) then (0, y + 1, 0)%N
  else (0, 0, z + 1)%N.

Definition tildeUpper (v : Version) : Version :=
  let '(x, y, _) := v in (x, y + 1, 0)%N.

Definition inRange (v : Version) (r : Range) : bool :=
  match r with
  | Caret lo => leV lo v && ltV v (caretUpper lo)
  | Tilde lo => leV lo v && ltV v (tildeUpper lo)
  | Ge lo => leV lo v
  | Gt_ lo => ltV lo v
  | Le hi => leV v hi
  | Lt_ hi => ltV v hi
  | Exact e => eqV v e
  end.

(** Modelled from the spec: [semver.satisfies(version, range)]; an
    invalid version or range gives [false], never an exception. *)
Definition satisfies (version : option string) (range : string) : bool :=
  match version with
  | None => false
  | Some s =>
      match parse s, parseRange range with
      | Some v, Some r => inRange v r
      | _, _ => false
      end
  end.

(** Modelled from the spec: [semver.rcompare(a, b)], the number
    [compare(b, a)]; an invalid version throws. *)
Definition rcompare (a b : option string) : Result Z :=
  match a, b with
  | Some sa, Some sb =>
      match parse sa, parse sb with
      | Some va, Some vb =>
          Ok (match compareV vb va with Lt => -1 | Eq => 0 | Gt => 1 end)%Z
      | _, _ => Throw "Invalid Version"
      end
  | _, _ => Throw "Invalid Version"
  end.

End Semver.

(** ** [TemplateRegistry]: the catalog *)

Module TemplateRegistry.

Record TemplateDependency := {
  dep_name : option string;
  dep_version : option string
}.

Record TemplateVariableSchema := {
  var_name : option string;
  var_type : option string
}.

Record TemplateFileConfig := {
  source : option string;
  destination : option string
}.

Record SecurityStatus := {
  status : string
}.

(** The descriptor. A field is [None] when the property is missing
    from the parsed [template.json]. *)
Record TemplateMetadata := {
  name : option string;
  version : option string;
  description : option string;
  dependencies : option (list TemplateDependency);
  variables : option (list TemplateVariableSchema);
  files : option (list TemplateFileConfig);
  securityStatus : option SecurityStatus
}.

Definition strictEq (field : option string) (s : string) : bool :=
  match field with
  | Some f => String.eqb f s
  | None => false
  end.

(** [Array.prototype.sort(cmp)]: stable; an exception of the
    comparator leaves the sort. The comparator runs on every element
    as soon as the array has two. *)
Fixpoint insertBy {A : Type} (cmp : A -> A -> Result Z) (x : A) (l : list A)
  : Result (list A) :=
  match l with
  | [] => Ok [x]
  | y :: t =>
      bindR (cmp x y) (fun c =>
        if (c <? 0)%Z then Ok (x :: y :: t)
        else bindR (insertBy cmp x t) (fun t' => Ok (y :: t')))
  end.

Definition sortBy {A : Type} (cmp : A -> A -> Result Z) (l : list A)
  : Result (list A) :=
  fold_left (fun acc x => bindR acc (insertBy cmp x)) l (Ok []).

(** [getTemplate]. [discoverTemplates] is the outcome of the call
    [this.discoverTemplates()]; [versionArg = None] is an omitted
    argument. Every exception ends in the [catch] that returns [null]. *)
Definition getTemplate (discoverTemplates : Result (list TemplateMetadata))
    (nameArg : string) (versionArg : option string) : option TemplateMetadata :=
  match discoverTemplates with
  | Throw _ => None
  | Ok templates =>
      let matchingTemplates := filter (fun t => strictEq (name t) nameArg) templates in
      match matchingTemplates with
      | [] => None
      | _ =>
          if Str.truthy versionArg then
            let v := match versionArg with Some v => v | None => "" end in
            match find (fun t => strictEq (version t) v) matchingTemplates with
            | Some exactMatch => Some exactMatch
            | None =>
                find (fun t => Semver.satisfies (version t) v) matchingTemplates
            end
          else
            match sortBy (fun a b => Semver.rcompare (version a) (version b))
                    matchingTemplates with
            | Ok sortedTemplates => hd_error sortedTemplates
            | Throw _ => None
            end
      end
  end.

(** [`${template.name}@${template.version}`]: a missing property
    prints as [undefined]. *)
Definition templateLiteral (field : option string) : string :=
  match field with Some s => s | None => "undefined" end.

Definition templateKey (t : TemplateMetadata) : string :=
  templateLiteral (name t) ++ "@" ++ templateLiteral (version t).

(** [deduplicateTemplates]: the loop over [templates] fills
    [templateMap]; the result lists its values in insertion order. *)
Definition deduplicateStep (templateMap : list (string * TemplateMetadata))
    (t : TemplateMetadata) : list (string * TemplateMetadata) :=
  if JsMap.has (templateKey t) templateMap then templateMap
  else JsMap.set (templateKey t) t templateMap.

Definition deduplicateTemplates (templates : list TemplateMetadata)
  : list TemplateMetadata :=
  map snd (fold_left deduplicateStep templates []).

(** The entries of [templateCache]. *)
Record MetadataCacheEntry := {
  cached_metadata : TemplateMetadata;
  cachedAt : Z
}.

(** What [readFile], [JSON.parse] and the schema validation give for
    a [template.json]: a descriptor, a rejection, or an exception. *)
Inductive MetadataFile : Type :=
| ValidMetadata (m : TemplateMetadata)
| InvalidMetadata
| UnreadableMetadata (msg : string).

(** [loadTemplateMetadata]. [nowCheck] is read only when an entry is
    found, [nowStore] when the descriptor is stored. *)
Definition loadTemplateMetadata (cacheTtl : Z)
    (readMetadata : string -> MetadataFile) (nowCheck nowStore : Z)
    (metadataPath : string) (forceRefresh : bool)
    (templateCache : list (string * MetadataCacheEntry))
  : option TemplateMetadata * list (string * MetadataCacheEntry) :=
  let fresh :=
    if forceRefresh then None
    else
      match JsMap.get metadataPath templateCache with
      | Some cached =>
          if (nowCheck - cachedAt cached <? cacheTtl)%Z
          then Some (cached_metadata cached) else None
      | None => None
      end in
  match fresh with
  | Some m => (Some m, templateCache)
  | None =>
      match readMetadata metadataPath with
      | ValidMetadata m =>
          (Some m,
           JsMap.set metadataPath {| cached_metadata := m; cachedAt := nowStore |}
             templateCache)
      | InvalidMetadata => (None, templateCache)
      | UnreadableMetadata _ => (None, templateCache)
      end
  end.

(** [Array.prototype.slice(start, end)] for integral arguments: a
    negative index counts from the end. *)
Definition sliceIndex (len i : Z) : Z :=
  if (i <? 0)%Z then Z.max (len + i) 0 else Z.min i len.

Definition slice {A : Type} (l : list A) (start final : Z) : list A :=
  let len := Z.of_nat (List.length l) in
  let k := sliceIndex len start in
  firstn (Z.to_nat (sliceIndex len final - k)) (skipn (Z.to_nat k) l).

(** The pagination of [searchTemplates], applied to the filtered and
    sorted array: [options.offset || 0], [options.limit || total] and
    [slice(offset, offset + limit)]. The pair is [templates] and
    [total]. *)
Definition paginate {A : Type} (filteredTemplates : list A)
    (offsetOption limitOption : option Z) : list A * Z :=
  let total := Z.of_nat (List.length filteredTemplates) in
  let offset :=
    match offsetOption with
    | Some o => if (o =? 0)%Z then 0%Z else o
    | None => 0%Z
    end in
  let limit :=
    match limitOption with
    | Some l => if (l =? 0)%Z then total else l
    | None => total
    end in
  (slice filteredTemplates offset (offset + limit), total).

End TemplateRegistry.

(** ** Operations of the language on [JsValue] *)

Module JsVal.

(** [ToBoolean] *)
Definition truthy (v : JsValue) : bool :=
  match v with
  | VUndefined | VNull => false
  | VBool b => b
  | VNum n => negb (Z.eqb n 0)
  | VStr s => negb (String.eqb s "")
  | VArr _ | VObj _ => true
  end.

Definition isUndefined (v : JsValue) : bool :=
  match v with VUndefined => true | _ => false end.

(** [String(value)]: an array joins its elements with a comma, where
    [null] and [undefined] elements give the empty string. *)
Fixpoint ToString (v : JsValue) : string :=
  match v with
  | VUndefined => "undefined"
  | VNull => "null"
  | VBool true => "true"
  | VBool false => "false"
  | VNum n => Json.NumberToString n
  | VStr s => s
  | VArr items =>
      Json.join ","
        (map (fun x => match x with
                       | VUndefined | VNull => ""
                       | _ => ToString x
                       end) items)
  | VObj _ => "[object Object]"
  end.

(** A canonical array index: digits without a leading zero. *)
Definition arrayIndex (key : string) : option nat :=
  match key with
  | EmptyString => None
  | String c rest =>
      if Str.allDigits key && (negb (Ascii.eqb c "0"%char) || String.eqb rest "")
      then Some (N.to_nat (Str.digitsValue 0%N key))
      else None
  end.

(** The members that every object inherits from [Object.prototype].
    Assigning to the member [__proto__] replaces the prototype of an
    object instead of adding a member; the maps do not represent
    prototypes, and the statements that depend on such an assignment
    are about maps without that member. *)
Definition objectPrototypeMembers : list string :=
  ["constructor"; "__defineGetter__"; "__defineSetter__"; "hasOwnProperty";
   "__lookupGetter__"; "__lookupSetter__"; "isPrototypeOf";
   "propertyIsEnumerable"; "toString"; "valueOf"; "__proto__";
   "toLocaleString"].

Definition inObjectPrototype (key : string) : bool :=
  existsb (String.eqb key) objectPrototypeMembers.

(** [key in obj] for an object whose own members are [props]. *)
Definition hasProperty {V : Type} (key : string) (props : list (string * V))
  : bool :=
  JsMap.has key props || inObjectPrototype key.

(** The prototype from which a value inherits. *)
Inductive Prototype : Type :=
| ObjectPrototype
| ArrayPrototype
| StringPrototype
| NumberPrototype
| BooleanPrototype.

(** What a member access reaches: a data value, or what is found by
    following [path] from a prototype (a built-in function, a prototype
    object, or a member of one of these). *)
Inductive Reached : Type :=
| Data (v : JsValue)
| Inherited (proto : Prototype) (path : list string).

(** What the runtime answers about the inherited members:
    [String(member)], or [None] for a member that is [undefined]. *)
Record Runtime := {
  inheritedString : Prototype -> list string -> option string
}.

(** [current?.[key]]: the own members of objects, the elements and
    [length] of arrays, the characters and [length] of strings (code
    units, which are the characters of a string written in ASCII); a
    name that is not an own member is looked for on the prototype
    chain. No prototype has indexed members. *)
Definition getProp (current : Reached) (key : string) : Reached :=
  match current with
  | Data (VObj props) =>
      match JsMap.get key props with
      | Some v => Data v
      | None =>
          if inObjectPrototype key then Inherited ObjectPrototype [key]
          else Data VUndefined
      end
  | Data (VArr items) =>
      if String.eqb key "length" then Data (VNum (Z.of_nat (List.length items)))
      else match arrayIndex key with
           | Some i => Data (nth i items VUndefined)
           | None => Inherited ArrayPrototype [key]
           end
  | Data (VStr s) =>
      if String.eqb key "length" then Data (VNum (Z.of_nat (String.length s)))
      else match arrayIndex key with
           | Some i => match String.get i s with
                       | Some c => Data (VStr (String c ""))
                       | None => Data VUndefined
                       end
           | None => Inherited StringPrototype [key]
           end
  | Data (VNum _) => Inherited NumberPrototype [key]
  | Data (VBool _) => Inherited BooleanPrototype [key]
  | Data VUndefined | Data VNull => Data VUndefined
  | Inherited proto path => Inherited proto (path ++ [key])%list
  end.

Definition isLower (c : ascii) : bool :=
  let n := nat_of_ascii c in Nat.leb 97 n && Nat.leb n 122.
Definition isUpper (c : ascii) : bool :=
  let n := nat_of_ascii c in Nat.leb 65 n && Nat.leb n 90.
Definition upperChar (c : ascii) : ascii :=
  if isLower c then ascii_of_nat (nat_of_ascii c - 32) else c.
Definition lowerChar (c : ascii) : ascii :=
  if isUpper c then ascii_of_nat (nat_of_ascii c + 32) else c.

Fixpoint toLowerCase (s : string) : string :=
  match s with
  | EmptyString => ""
  | String c s' => String (lowerChar c) (toLowerCase s')
  end.

End JsVal.

(** ** [VariableSubstitutionEngine] *)

Module VariableSubstitutionEngine.

Record VariableContext := {
  env : list (string * JsValue);
  user : list (string * JsValue);
  system : list (string * JsValue);
  computed : list (string * JsValue);
  secrets : list (string * JsValue)
}.

Record VariableValidationError := {
  variable : string;
  message : string;
  code : string;
  expected : option string;
  actual : JsValue
}.

Record VariableValidationResult := {
  valid : bool;
  errors : list VariableValidationError;
  sanitized : list (string * JsValue)
}.

(** [default] is [VUndefined] when the schema declares none. The
    constraints [pattern], [enum], [minimum] and [maximum] are read by
    the validator only. *)
Record TemplateVariableSchema := {
  name : string;
  type : string;
  required : bool;
  default : JsValue
}.

(** A transformer is called with [transformed[name]], which is the
    inherited member when the name is not an own one. *)
Definition VariableTransformer : Type :=
  JsVal.Reached -> VariableContext -> Result JsValue.

Record VariableConfig := {
  environments : list (string * list (string * JsValue));
  defaults : list (string * JsValue);
  transformers : list (string * VariableTransformer);
  schemas : list (string * TemplateVariableSchema);
  enableCaching : bool;
  cacheTtl : Z
}.

(** An absent option is [None]. *)
Record VariableResolutionOptions := {
  environment : option string;
  includeSystem : option bool;
  includeEnv : option bool;
  overrides : option (list (string * JsValue));
  skipValidation : option bool;
  enableInterpolation : option bool
}.

Record VariableCacheEntry := {
  context : VariableContext;
  cachedAt : Z;
  ttl : Z;
  hash : string
}.

Record AjvError := {
  instancePath : string;
  ajvMessage : string;
  keyword : string
}.

(** Outcome of [ajv.validate(name, value)] with [ajv.errors]. *)
Inductive AjvOutcome : Type :=
| AjvValid
| AjvInvalid (errs : list AjvError)
| AjvThrows (msg : string).

(** What the process and the libraries answer during one call. *)
Record World := {
  processEnv : list (string * JsValue);
  systemVariables : Result (list (string * JsValue));
  clockVariables : Result (list (string * JsValue));
  ajvValidate : string -> JsValue -> AjvOutcome;
  jsNumber : JsValue -> option Z;
  sha256 : string -> string;
  runtime : JsVal.Runtime;
  nowLookup : Z;
  nowCache : Z
}.

(** *** Case conversions *)

(** [str.replace(/([a-z])([A-Z])/g, '$1' + sep + '$2')] *)
Fixpoint separateHumps (sep : string) (s : string) : string :=
  match s with
  | String c1 (String c2 rest as tl) =>
      if JsVal.isLower c1 && JsVal.isUpper c2
      then String c1 (sep ++ String c2 (separateHumps sep rest))
      else String c1 (separateHumps sep tl)
  | _ => s
  end.

Definition toKebabCase (s : string) : string :=
  JsVal.toLowerCase (separateHumps "-" s).

Definition toSnakeCase (s : string) : string :=
  JsVal.toLowerCase (separateHumps "_" s).

Definition isCamelSeparator (c : ascii) : bool :=
  Ascii.eqb c "-"%char || Ascii.eqb c "_"%char || Str.isWhiteSpace c.

(** [str.replace(/[-_\s]+(.)?/g, (_, char) => char ? char.toUpperCase() : '')];
    [pending] holds after a run of separators. *)
Fixpoint camelAux (pending : bool) (s : string) : string :=
  match s with
  | EmptyString => ""
  | String c rest =>
      if isCamelSeparator c then camelAux true rest
      else String (if pending then JsVal.upperChar c else c) (camelAux false rest)
  end.

Definition toCamelCase (s : string) : string := camelAux false s.

Definition toPascalCase (s : string) : string :=
  match toCamelCase s with
  | EmptyString => ""
  | String c rest => String (JsVal.upperChar c) rest
  end.

(** *** Validation *)

(** [coerceValue] *)
Definition coerceValue (w : World) (value : JsValue) (schema : TemplateVariableSchema)
  : Result JsValue :=
  if String.eqb (type schema) "string" then Ok (VStr (JsVal.ToString value))
  else if String.eqb (type schema) "number" then
    match jsNumber w value with
    | Some n => Ok (VNum n)
    | None => Throw ("Cannot convert '" ++ JsVal.ToString value ++ "' to number")
    end
  else if String.eqb (type schema) "boolean" then
    match value with
    | VBool b => Ok (VBool b)
    | VStr s =>
        let lower := JsVal.toLowerCase s in
        if String.eqb lower "true" || String.eqb lower "1" || String.eqb lower "yes"
        then Ok (VBool true)
        else if String.eqb lower "false" || String.eqb lower "0" || String.eqb lower "no"
        then Ok (VBool false)
        else Ok (VBool (JsVal.truthy value))
    | _ => Ok (VBool (JsVal.truthy value))
    end
  else if String.eqb (type schema) "array" then
    match value with
    | VArr _ => Ok value
    | _ => Ok (VArr [value])
    end
  else if String.eqb (type schema) "object" then
    match value with
    | VObj _ | VArr _ | VNull => Ok value
    | _ => Ok (VObj [])
    end
  else Ok value.

(** [this.config.schemas[name]]: a declared schema, or the member of
    that name inherited from [Object.prototype], or [undefined]. *)
Inductive SchemaLookup : Type :=
| Declared (schema : TemplateVariableSchema)
| InheritedMember
| NoSchema.

Definition lookupSchema (cfg : VariableConfig) (nm : string) : SchemaLookup :=
  match JsMap.get nm (schemas cfg) with
  | Some schema => Declared schema
  | None => if JsVal.inObjectPrototype nm then InheritedMember else NoSchema
  end.

(** [schema.type]; an inherited member has none. *)
Definition schemaType (found : SchemaLookup) : option string :=
  match found with
  | Declared schema => Some (type schema)
  | _ => None
  end.

Definition ajvErrorToValidationError (nm : string) (found : SchemaLookup)
    (value : JsValue) (e : AjvError) : VariableValidationError :=
  {| variable := nm;
     message := instancePath e ++ " " ++ ajvMessage e;
     code := if String.eqb (keyword e) "" then "validation_error" else keyword e;
     expected := schemaType found;
     actual := value |}.

(** First loop of [validateVariables]: one bound variable. The switch
    of [coerceValue] returns the value as it is for an inherited
    member, which has no [type]. *)
Definition validateEntry (cfg : VariableConfig) (w : World)
    (acc : list VariableValidationError * list (string * JsValue))
    (entry : string * JsValue)
  : list VariableValidationError * list (string * JsValue) :=
  let '(errs, san) := acc in
  let '(nm, value) := entry in
  let found := lookupSchema cfg nm in
  let coercionError msg :=
    {| variable := nm; message := msg; code := "coercion_error";
       expected := schemaType found; actual := value |} in
  let coerced :=
    match found with
    | Declared schema => Some (coerceValue w value schema)
    | InheritedMember => Some (Ok value)
    | NoSchema => None
    end in
  match coerced with
  | None => (errs, JsMap.set nm value san)
  | Some (Throw msg) => ((errs ++ [coercionError msg])%list, san)
  | Some (Ok coercedValue) =>
      match ajvValidate w nm coercedValue with
      | AjvValid => (errs, JsMap.set nm coercedValue san)
      | AjvInvalid ajvErrors =>
          ((errs ++ map (ajvErrorToValidationError nm found value) ajvErrors)%list,
           san)
      | AjvThrows msg => ((errs ++ [coercionError msg])%list, san)
      end
  end.

(** The error pushed for a required variable that is missing. *)
Definition requiredMissingError (nm : string) : VariableValidationError :=
  {| variable := nm;
     message := "Required variable '" ++ nm ++ "' is missing";
     code := "required_missing";
     expected := None;
     actual := VUndefined |}.

(** Second loop of [validateVariables]: one declared schema. The test
    [name in variables] also holds of the names that the map inherits. *)
Definition checkRequired (vars : list (string * JsValue))
    (acc : list VariableValidationError * list (string * JsValue))
    (entry : string * TemplateVariableSchema)
  : list VariableValidationError * list (string * JsValue) :=
  let '(errs, san) := acc in
  let '(nm, schema) := entry in
  if required schema && negb (JsVal.hasProperty nm vars) then
    if negb (JsVal.isUndefined (default schema)) then
      (errs, JsMap.set nm (default schema) san)
    else
      ((errs ++ [requiredMissingError nm])%list, san)
  else acc.

(** [validateVariables] *)
Definition validateVariables (cfg : VariableConfig) (w : World)
    (vars : list (string * JsValue)) : VariableValidationResult :=
  let afterValues := fold_left (validateEntry cfg w) vars ([], []) in
  let '(errs, san) := fold_left (checkRequired vars) (schemas cfg) afterValues in
  {| valid := match errs with [] => true | _ => false end;
     errors := errs;
     sanitized := san |}.

(** *** Transformations and computed variables *)

(** [applyTransformations]: an exception of a transformer keeps the
    previous value. The test [name in transformed] also holds of the
    names that the map inherits; the result of the transformer then
    becomes an own member. *)
Definition applyTransformations (cfg : VariableConfig)
    (vars : list (string * JsValue)) (ctx : VariableContext)
  : list (string * JsValue) :=
  fold_left
    (fun transformed (entry : string * VariableTransformer) =>
       let '(nm, transformer) := entry in
       if JsVal.hasProperty nm transformed then
         match transformer (JsVal.getProp (JsVal.Data (VObj transformed)) nm) ctx with
         | Ok v' => JsMap.set nm v' transformed
         | Throw _ => transformed
         end
       else transformed)
    (transformers cfg) (JsMap.assign [] vars).

(** [computeVariables]. The entries read from the clock and the
    process come from [clockVariables]; the case conversions call
    [String.prototype.replace], which a value that is not a string
    does not have. *)
Definition computeVariables (w : World) (ctx : VariableContext)
  : Result (list (string * JsValue)) :=
  bindR (clockVariables w) (fun base =>
    let computed0 := JsMap.assign [] base in
    match JsMap.get "projectName" (user ctx) with
    | Some projectName =>
        if JsVal.truthy projectName then
          match projectName with
          | VStr s =>
              Ok (JsMap.set "projectNameSnake" (VStr (toSnakeCase s))
                   (JsMap.set "projectNamePascal" (VStr (toPascalCase s))
                     (JsMap.set "projectNameCamel" (VStr (toCamelCase s))
                       (JsMap.set "projectNameKebab" (VStr (toKebabCase s))
                         computed0))))
          | _ => Throw "str.replace is not a function"
          end
        else Ok computed0
    | None => Ok computed0
    end).

(** *** Interpolation *)

(** [getNestedValue] *)
Definition getNestedValue (obj : JsVal.Reached) (path : string) : JsVal.Reached :=
  fold_left JsVal.getProp (Str.split "."%char path) obj.

(** The longest prefix without a closing brace, and what follows it. *)
Fixpoint spanNotClose (s : string) : string * string :=
  match s with
  | EmptyString => ("", "")
  | String c rest =>
      if Ascii.eqb c "}"%char then ("", s)
      else let '(nm, r) := spanNotClose rest in (String c nm, r)
  end.

(** A match of [/\$\{([^}]+)\}/] at the head of [s]: the captured
    group and the text after the match. *)
Definition matchPlaceholder (s : string) : option (string * string) :=
  match s with
  | String "$" (String "{" t) =>
      match spanNotClose t with
      | (String c nm, String "}" rest) => Some (String c nm, rest)
      | _ => None
      end
  | _ => None
  end.

(** [str.replace(/\$\{([^}]+)\}/g, f)]: matches are looked for from
    left to right, the text produced by [f] is not scanned again.
    Every step consumes a character, so [String.length s] steps are
    enough. *)
Fixpoint replacePlaceholders (fuel : nat) (f : string -> string -> string)
    (s : string) : string :=
  match fuel with
  | O => s
  | S fuel' =>
      match s with
      | EmptyString => ""
      | String c tl =>
          match matchPlaceholder s with
          | Some (varName, rest) =>
              f ("${" ++ varName ++ "}") varName
                ++ replacePlaceholders fuel' f rest
          | None => String c (replacePlaceholders fuel' f tl)
          end
      end
  end.

(** The replacement callback of [interpolateString]. *)
Definition substitute (rt : JsVal.Runtime) (vars : list (string * JsValue))
    (matched varName : string) : string :=
  match getNestedValue (JsVal.Data (VObj vars)) (Str.trim varName) with
  | JsVal.Data value =>
      if JsVal.isUndefined value then matched else JsVal.ToString value
  | JsVal.Inherited proto path =>
      match JsVal.inheritedString rt proto path with
      | Some text => text
      | None => matched
      end
  end.

(** [interpolateString] *)
Definition interpolateString (rt : JsVal.Runtime) (str : string)
    (vars : list (string * JsValue)) : string :=
  replacePlaceholders (String.length str) (substitute rt vars) str.

(** [interpolateObject] *)
Fixpoint interpolateObject (rt : JsVal.Runtime) (obj : JsValue)
    (vars : list (string * JsValue)) : JsValue :=
  match obj with
  | VArr items => VArr (map (fun item => interpolateObject rt item vars) items)
  | VObj props =>
      VObj (JsMap.assign []
              (map (fun kv => let '(k, v) := kv in (k, interpolateObject rt v vars))
                 props))
  | VStr s => VStr (interpolateString rt s vars)
  | _ => obj
  end.

Definition allVariables (ctx : VariableContext) : list (string * JsValue) :=
  JsMap.spread [env ctx; system ctx; user ctx; computed ctx].

Definition interpolateValue (rt : JsVal.Runtime) (all : list (string * JsValue))
    (value : JsValue) : JsValue :=
  match value with
  | VStr s => VStr (interpolateString rt s all)
  | VArr items =>
      VArr (map (fun item => match item with
                             | VStr s => VStr (interpolateString rt s all)
                             | _ => item
                             end) items)
  | VObj _ => interpolateObject rt value all
  | _ => value
  end.

(** [interpolateVariables] *)
Definition interpolateVariables (rt : JsVal.Runtime)
    (vars : list (string * JsValue)) (ctx : VariableContext)
  : list (string * JsValue) :=
  let all := allVariables ctx in
  fold_left
    (fun interpolated (kv : string * JsValue) =>
       JsMap.set (fst kv) (interpolateValue rt all (snd kv)) interpolated)
    vars [].

(** *** Environment, secrets *)

(** [loadEnvironmentVariables] *)
Definition loadEnvironmentVariables (w : World) : list (string * JsValue) :=
  fold_left
    (fun envAcc (kv : string * JsValue) =>
       if JsVal.isUndefined (snd kv) then envAcc
       else JsMap.set (fst kv) (snd kv) envAcc)
    (processEnv w) [].

(** [loadSecrets] *)
Definition loadSecrets (ctx : VariableContext) : list (string * JsValue) := [].

(** *** The context cache *)

Definition optionsObject (o : VariableResolutionOptions) : list (string * JsValue) :=
  (match environment o with Some e => [("environment", VStr e)] | None => [] end
   ++ match includeSystem o with Some b => [("includeSystem", VBool b)] | None => [] end
   ++ match includeEnv o with Some b => [("includeEnv", VBool b)] | None => [] end
   ++ match overrides o with Some m => [("overrides", VObj m)] | None => [] end
   ++ match skipValidation o with Some b => [("skipValidation", VBool b)] | None => [] end
   ++ match enableInterpolation o with
      | Some b => [("enableInterpolation", VBool b)]
      | None => []
      end)%list.

(** [generateCacheKey] *)
Definition generateCacheKey (w : World) (userVariables : list (string * JsValue))
    (options : VariableResolutionOptions) : string :=
  let opts := optionsObject options in
  let replacer :=
    Json.sortStrings (JsMap.keys (JsMap.spread [userVariables; opts])) in
  let data :=
    match Json.stringify
            (VObj [("userVariables", VObj userVariables); ("options", VObj opts)])
            replacer with
    | Some s => s
    | None => "undefined"
    end in
  sha256 w data.

(** [getCachedContext] *)
Definition getCachedContext (now : Z) (key : string)
    (c : list (string * VariableCacheEntry))
  : option VariableCacheEntry * list (string * VariableCacheEntry) :=
  match JsMap.get key c with
  | None => (None, c)
  | Some entry =>
      if (now >? ttl entry)%Z then (None, JsMap.delete key c)
      else (Some entry, c)
  end.

(** [cacheContext] *)
Definition cacheContext (cfg : VariableConfig) (now : Z) (key : string)
    (ctx : VariableContext) (c : list (string * VariableCacheEntry))
  : list (string * VariableCacheEntry) :=
  JsMap.set key
    {| context := ctx; cachedAt := now; ttl := (now + cacheTtl cfg)%Z; hash := key |}
    c.

(** *** [resolveVariables] *)

Definition withUser (ctx : VariableContext) (u : list (string * JsValue))
  : VariableContext :=
  {| env := env ctx; user := u; system := system ctx;
     computed := computed ctx; secrets := secrets ctx |}.

Definition withComputed (ctx : VariableContext) (c : list (string * JsValue))
  : VariableContext :=
  {| env := env ctx; user := user ctx; system := system ctx;
     computed := c; secrets := secrets ctx |}.

Definition withSecrets (ctx : VariableContext) (s : list (string * JsValue))
  : VariableContext :=
  {| env := env ctx; user := user ctx; system := system ctx;
     computed := computed ctx; secrets := s |}.

(** The layers merged into [context.user] before validation. *)
Definition mergeUser (cfg : VariableConfig) (userVariables : list (string * JsValue))
    (options : VariableResolutionOptions) : list (string * JsValue) :=
  let u1 :=
    if Str.truthy (environment options) then
      match environment options with
      | Some e =>
          match JsMap.get e (environments cfg) with
          | Some envConfig => JsMap.assign [] envConfig
          | None => []
          end
      | None => []
      end
    else [] in
  let u2 := JsMap.assign u1 (defaults cfg) in
  let u3 := JsMap.assign u2 userVariables in
  match overrides options with
  | Some o => JsMap.assign u3 o
  | None => u3
  end.

Definition isFalse (o : option bool) : bool :=
  match o with Some false => true | _ => false end.

Definition isTrue (o : option bool) : bool :=
  match o with Some true => true | _ => false end.

(** The steps of [resolveVariables] after a cache miss, up to the
    context that is returned. *)
Definition buildContext (cfg : VariableConfig) (w : World)
    (userVariables : list (string * JsValue))
    (options : VariableResolutionOptions) : Result VariableContext :=
  let envLayer :=
    if isFalse (includeEnv options) then [] else loadEnvironmentVariables w in
  bindR (if isFalse (includeSystem options) then Ok [] else systemVariables w)
    (fun systemLayer =>
  let ctx0 :=
    {| env := envLayer; user := mergeUser cfg userVariables options;
       system := systemLayer; computed := []; secrets := [] |} in
  bindR
    (if isTrue (skipValidation options) then Ok ctx0
     else
       let validation := validateVariables cfg w (user ctx0) in
       if valid validation then Ok (withUser ctx0 (sanitized validation))
       else Throw ("Variable validation failed: "
                     ++ Json.join ", " (map message (errors validation))))
    (fun ctx1 =>
  let ctx2 := withUser ctx1 (applyTransformations cfg (user ctx1) ctx1) in
  bindR (computeVariables w ctx2) (fun comp =>
  let ctx3 := withComputed ctx2 comp in
  let ctx5 :=
    if isFalse (enableInterpolation options) then ctx3
    else
      let ctx4 :=
        withUser ctx3 (interpolateVariables (runtime w) (user ctx3) ctx3) in
      withComputed ctx4 (interpolateVariables (runtime w) (computed ctx4) ctx4) in
  Ok (withSecrets ctx5 (loadSecrets ctx5))))).

(** [resolveVariables]: the result and the cache after the call. *)
Definition resolveVariables (cfg : VariableConfig) (w : World)
    (userVariables : list (string * JsValue))
    (options : VariableResolutionOptions)
    (c : list (string * VariableCacheEntry))
  : Result VariableContext * list (string * VariableCacheEntry) :=
  let cacheKey := generateCacheKey w userVariables options in
  let '(cached, c1) :=
    if enableCaching cfg then getCachedContext (nowLookup w) cacheKey c
    else (None, c) in
  match cached with
  | Some entry => (Ok (context entry), c1)
  | None =>
      match buildContext cfg w userVariables options with
      | Ok ctx =>
          (Ok ctx,
           if enableCaching cfg then cacheContext cfg (nowCache w) cacheKey ctx c1
           else c1)
      | Throw msg => (Throw msg, c1)
      end
  end.

End VariableSubstitutionEngine.

(** ** [StreamingFileProcessor]: batch processing *)

Module StreamingFileProcessor.

Record Stats := {
  size : Z;
  mode : Z
}.

Definition FileFilter : Type := string -> Stats -> bool.

Record ProcessingOptions := {
  skipBinary : bool;
  preservePermissions : bool;
  incremental : bool;
  filters : list FileFilter;
  templateExtensions : list string;
  maxFileSize : Z;
  enableCompression : bool
}.

(** [Partial<ProcessingOptions>] *)
Record PartialOptions := {
  p_skipBinary : option bool;
  p_preservePermissions : option bool;
  p_incremental : option bool;
  p_filters : option (list FileFilter);
  p_templateExtensions : option (list string);
  p_maxFileSize : option Z;
  p_enableCompression : option bool
}.

Record ProcessingJob := {
  id : string;
  job_sourcePath : string;
  job_destinationPath : string;
  job_variables : list (string * JsValue);
  job_options : ProcessingOptions
}.

Inductive Status : Type := success | skipped | error.

Definition Status_eqb (a b : Status) : bool :=
  match a, b with
  | success, success | skipped, skipped | error, error => true
  | _, _ => false
  end.

Record FileProcessingResult := {
  sourcePath : string;
  destinationPath : string;
  status : Status;
  processingTime : Z;
  fileSize : Z;
  errorMessage : option string;
  templated : bool
}.

(** The quotients [throughput] and [averageProcessingTime] and the
    memory sample are floating-point values outside the model. *)
Record BatchProcessingResult := {
  totalFiles : Z;
  successCount : Z;
  skippedCount : Z;
  errorCount : Z;
  totalTime : Z;
  results : list FileProcessingResult
}.

(** Node's [path] functions. *)
Record PathLib := {
  resolve : string -> string -> string;
  join : string -> string -> string;
  relative : string -> string -> string;
  dirname : string -> string;
  basename : string -> string;
  extname : string -> string
}.

(** What the file system, the MIME table, the renderer and the timer
    answer during one batch. *)
Record FileSystem := {
  fastGlob : string -> Result (list string);
  statAtDiscovery : string -> Result Stats;
  mkdirRecursive : string -> Result unit;
  stat : string -> Result Stats;
  getMimeType : string -> option string;
  readHead : string -> Result (list ascii);
  copyFile : string -> string -> Result unit;
  chmod : string -> Z -> Result unit;
  streamCopy : string -> string -> Result unit;
  compile : string -> Result TemplateParser.Compiled;
  render : TemplateParser.Template -> list (string * JsValue) -> Result string;
  writeFile : string -> string -> Result unit;
  parseClock : string -> TemplateParser.Clock;
  elapsed : string -> Z;
  batchElapsed : Z
}.

(** [mergeOptions] *)
Definition mergeOptions (o : PartialOptions) : ProcessingOptions :=
  let dflt {A : Type} (x : option A) (d : A) : A :=
    match x with Some v => v | None => d end in
  {| skipBinary := dflt (p_skipBinary o) true;
     preservePermissions := dflt (p_preservePermissions o) true;
     incremental := dflt (p_incremental o) false;
     filters := dflt (p_filters o) [];
     templateExtensions :=
       dflt (p_templateExtensions o)
         [".eta"; ".html"; ".htm"; ".txt"; ".md"; ".js"; ".ts"; ".json"];
     maxFileSize := dflt (p_maxFileSize o) (100 * 1024 * 1024)%Z;
     enableCompression := dflt (p_enableCompression o) false |}.

(** [shouldProcessFile] *)
Definition shouldProcessFile (filePath : string) (stats : Stats)
    (options : ProcessingOptions) : bool :=
  if (size stats >? maxFileSize options)%Z then false
  else forallb (fun filter : FileFilter => filter filePath stats) (filters options).

(** [isBinaryFile]: a failure of the probe read means "not binary". *)
Definition isBinaryFile (fs : FileSystem) (filePath : string) : bool :=
  match getMimeType fs filePath with
  | Some mimeType =>
      if Str.truthy (Some mimeType) && negb (String.prefix "text/" mimeType)
      then true
      else match readHead fs filePath with
           | Ok bytes => existsb (fun b => Ascii.eqb b zero) bytes
           | Throw _ => false
           end
  | None =>
      match readHead fs filePath with
      | Ok bytes => existsb (fun b => Ascii.eqb b zero) bytes
      | Throw _ => false
      end
  end.

(** [isTemplateFile] *)
Definition isTemplateFile (pl : PathLib) (filePath : string)
    (exts : list string) : bool :=
  let ext := JsVal.toLowerCase (extname pl filePath) in
  existsb (String.eqb ext) exts.

(** [TemplateParser.renderTemplate] *)
Definition renderTemplate (fs : FileSystem)
    (r : TemplateParser.TemplateCompilationResult)
    (vars : list (string * JsValue)) : Result string :=
  match render fs (TemplateParser.template r) vars with
  | Ok text => Ok text
  | Throw msg => Throw ("Template rendering failed: " ++ msg)
  end.

(** [processTemplateFile] *)
Definition processTemplateFile (pl : PathLib) (fs : FileSystem)
    (cfg : TemplateParser.TemplateParserConfig)
    (src dst : string) (vars : list (string * JsValue))
    (st : TemplateParser.State) : Result unit * TemplateParser.State :=
  let relativePath := basename pl src in
  let '(compiled, st1) :=
    TemplateParser.parseTemplate (resolve pl) cfg (compile fs) (parseClock fs src)
      relativePath
      {| TemplateParser.skipCache := false;
         TemplateParser.optVariables := Some vars |} st in
  match compiled with
  | Throw msg => (Throw msg, st1)
  | Ok compilationResult =>
      match renderTemplate fs compilationResult vars with
      | Throw msg => (Throw msg, st1)
      | Ok renderedContent => (writeFile fs dst renderedContent, st1)
      end
  end.

(** The [try] block of [processFile]. *)
Definition processFileBody (pl : PathLib) (fs : FileSystem)
    (cfg : TemplateParser.TemplateParserConfig)
    (src dst : string) (vars : list (string * JsValue))
    (processingOptions : ProcessingOptions) (st : TemplateParser.State)
  : Result FileProcessingResult * TemplateParser.State :=
  let finished (stt : Status) (sz : Z) (tpl : bool) :=
    {| sourcePath := src; destinationPath := dst; status := stt;
       processingTime := elapsed fs src; fileSize := sz;
       errorMessage := None; templated := tpl |} in
  match mkdirRecursive fs (dirname pl dst) with
  | Throw msg => (Throw msg, st)
  | Ok _ =>
      match stat fs src with
      | Throw msg => (Throw msg, st)
      | Ok stats =>
          let fileSz := size stats in
          if negb (shouldProcessFile src stats processingOptions) then
            (Ok (finished skipped fileSz false), st)
          else if isBinaryFile fs src && skipBinary processingOptions then
            match copyFile fs src dst with
            | Throw msg => (Throw msg, st)
            | Ok _ =>
                match (if preservePermissions processingOptions
                       then chmod fs dst (mode stats) else Ok tt) with
                | Throw msg => (Throw msg, st)
                | Ok _ => (Ok (finished success fileSz false), st)
                end
            end
          else
            let isTemplate :=
              isTemplateFile pl src (templateExtensions processingOptions) in
            let '(written, st1) :=
              if isTemplate
              then processTemplateFile pl fs cfg src dst vars st
              else (streamCopy fs src dst, st) in
            match written with
            | Throw msg => (Throw msg, st1)
            | Ok _ =>
                match (if preservePermissions processingOptions
                       then chmod fs dst (mode stats) else Ok tt) with
                | Throw msg => (Throw msg, st1)
                | Ok _ => (Ok (finished success fileSz isTemplate), st1)
                end
            end
      end
  end.

(** [processFile]: the [catch] turns an exception of the body into an
    ["error"] result. *)
Definition processFile (pl : PathLib) (fs : FileSystem)
    (cfg : TemplateParser.TemplateParserConfig)
    (src dst : string) (vars : list (string * JsValue))
    (options : ProcessingOptions) (st : TemplateParser.State)
  : Result FileProcessingResult * TemplateParser.State :=
  match processFileBody pl fs cfg src dst vars options st with
  | (Ok r, st1) => (Ok r, st1)
  | (Throw msg, st1) =>
      (Ok {| sourcePath := src; destinationPath := dst; status := error;
             processingTime := elapsed fs src; fileSize := 0;
             errorMessage := Some msg; templated := false |}, st1)
  end.

(** [discoverFiles] *)
Definition discoverFiles (fs : FileSystem) (sourceDir : string)
    (options : ProcessingOptions) : Result (list string) :=
  bindR (fastGlob fs sourceDir) (fun found =>
    Ok (filter (fun file =>
                  match statAtDiscovery fs file with
                  | Ok stats => shouldProcessFile file stats options
                  | Throw _ => false
                  end) found)).

(** [createProcessingJobs]; [jobs.length] names the job. *)
Definition createProcessingJobs (pl : PathLib) (found : list string)
    (sourceDir destinationDir : string) (vars : list (string * JsValue))
    (options : ProcessingOptions) : list ProcessingJob :=
  fold_left
    (fun jobs file =>
       (jobs ++ [{| id := "job_" ++ Json.NumberToString (Z.of_nat (List.length jobs));
                    job_sourcePath := file;
                    job_destinationPath :=
                      join pl destinationDir (relative pl sourceDir file);
                    job_variables := vars;
                    job_options := options |}])%list)
    found [].

(** The body of the loop of [processJobsConcurrently]: the result that
    is pushed for one job. The inner [catch] covers an exception that
    leaves [processFile]. *)
Definition jobOutcome (pl : PathLib) (fs : FileSystem)
    (cfg : TemplateParser.TemplateParserConfig)
    (job : ProcessingJob) (st : TemplateParser.State)
  : FileProcessingResult * TemplateParser.State :=
  match processFile pl fs cfg (job_sourcePath job) (job_destinationPath job)
          (job_variables job) (job_options job) st with
  | (Ok r, st1) => (r, st1)
  | (Throw msg, st1) =>
      ({| sourcePath := job_sourcePath job;
          destinationPath := job_destinationPath job;
          status := error; processingTime := 0; fileSize := 0;
          errorMessage := Some msg; templated := false |}, st1)
  end.

Definition processJob (pl : PathLib) (fs : FileSystem)
    (cfg : TemplateParser.TemplateParserConfig)
    (acc : list FileProcessingResult * TemplateParser.State)
    (job : ProcessingJob) : list FileProcessingResult * TemplateParser.State :=
  let '(done, st) := acc in
  let '(r, st1) := jobOutcome pl fs cfg job st in
  ((done ++ [r])%list, st1).

(** [processJobsConcurrently]: one job after the other. *)
Definition processJobsConcurrently (pl : PathLib) (fs : FileSystem)
    (cfg : TemplateParser.TemplateParserConfig) (jobs : list ProcessingJob)
    (st : TemplateParser.State)
  : list FileProcessingResult * TemplateParser.State :=
  fold_left (processJob pl fs cfg) jobs ([], st).

Definition countStatus (s : Status) (rs : list FileProcessingResult) : Z :=
  Z.of_nat (List.length (filter (fun r => Status_eqb (status r) s) rs)).

(** [createBatchResult] *)
Definition createBatchResult (rs : list FileProcessingResult) (time : Z)
  : BatchProcessingResult :=
  {| totalFiles := Z.of_nat (List.length rs);
     successCount := countStatus success rs;
     skippedCount := countStatus skipped rs;
     errorCount := countStatus error rs;
     totalTime := time;
     results := rs |}.

(** [processBatch]: only an exception of the discovery leaves it. *)
Definition processBatch (pl : PathLib) (fs : FileSystem)
    (cfg : TemplateParser.TemplateParserConfig)
    (sourceDir destinationDir : string) (vars : list (string * JsValue))
    (options : PartialOptions) (st : TemplateParser.State)
  : Result BatchProcessingResult * TemplateParser.State :=
  let processingOptions := mergeOptions options in
  match discoverFiles fs sourceDir processingOptions with
  | Throw msg => (Throw msg, st)
  | Ok found =>
      let jobs :=
        createProcessingJobs pl found sourceDir destinationDir vars
          processingOptions in
      let '(rs, st1) := processJobsConcurrently pl fs cfg jobs st in
      (Ok (createBatchResult rs (batchElapsed fs)), st1)
  end.

End StreamingFileProcessor.

(** ** [TemplateEngine]: the orchestrator *)

Module TemplateEngine.
Import TemplateRegistry.


Fixpoint spanDigits (s : string) : string * string :=
  match s with
  | EmptyString => ("", "")
  | String c rest =>
      if Str.isDigit c
      then let '(d, r) := spanDigits rest in (String c d, r)
      else ("", s)
  end.

Definition isIdentChar (c : ascii) : bool :=
  JsVal.isLower c || JsVal.isUpper c || Str.isDigit c
  || Ascii.eqb c "."%char || Ascii.eqb c "-"%char.

Fixpoint spanIdent (s : string) : string * string :=
  match s with
  | EmptyString => ("", "")
  | String c rest =>
      if isIdentChar c
      then let '(d, r) := spanIdent rest in (String c d, r)
      else ("", s)
  end.

Definition nonEmpty (s : string) : bool := negb (String.eqb s "").

(** [(\+[a-zA-Z0-9.-]+)?$] *)
Definition matchBuildAndEnd (s : string) : bool :=
  match s with
  | EmptyString => true
  | String "+" rest =>
      let '(b, r) := spanIdent rest in nonEmpty b && String.eqb r ""
  | _ => false
  end.

(** [(-[a-zA-Z0-9.-]+)?(\+[a-zA-Z0-9.-]+)?$] *)
Definition matchSuffix (s : string) : bool :=
  match s with
  | String "-" rest =>
      let '(p, r) := spanIdent rest in nonEmpty p && matchBuildAndEnd r
  | _ => matchBuildAndEnd s
  end.

(** [isValidSemver]: the test of
    [/^\d+\.\d+\.\d+(-[a-zA-Z0-9.-]+)?(\+[a-zA-Z0-9.-]+)?$/]. *)
Definition isValidSemver (v : string) : bool :=
  let '(d1, r1) := spanDigits v in
  nonEmpty d1 &&
  match r1 with
  | String "." r1' =>
      let '(d2, r2) := spanDigits r1' in
      nonEmpty d2 &&
      match r2 with
      | String "." r2' =>
          let '(d3, r3) := spanDigits r2' in
          nonEmpty d3 && matchSuffix r3
      | _ => false
      end
  | _ => false
  end.



Section Validate.
(** [JSON.stringify] of a dependency, a variable schema and a file
    rule, for the text of the error messages. *)
Variable describeDependency : TemplateDependency -> string.
Variable describeVariable : TemplateVariableSchema -> string.
Variable describeFile : TemplateFileConfig -> string.










End Validate.

(** [flattenVariableContext]: the spread of the four layers; the
    secrets are left out. *)
Definition flattenVariableContext
    (context : VariableSubstitutionEngine.VariableContext)
  : list (string * JsValue) :=
  JsMap.spread [VariableSubstitutionEngine.env context;
                VariableSubstitutionEngine.system context;
                VariableSubstitutionEngine.user context;
                VariableSubstitutionEngine.computed context].

End TemplateEngine.

(** ** Sample data for the concrete scenarios *)

Definition sampleMetadata : TemplateParser.TemplateMetadata :=
  {| TemplateParser.path := "/t/a.eta"; TemplateParser.lastModified := 0;
     TemplateParser.size := 12; TemplateParser.variables := ["name"];
     TemplateParser.helpers := []; TemplateParser.partials := [];
     TemplateParser.extends := None |}.

Definition sampleResult (handle : nat) (key : string)
  : TemplateParser.TemplateCompilationResult :=
  {| TemplateParser.template := handle; TemplateParser.compilationTime := 3;
     TemplateParser.dependencies := []; TemplateParser.metadata := sampleMetadata;
     TemplateParser.cacheKey := key |}.

Definition sampleParserConfig (capacity : Z) : TemplateParser.TemplateParserConfig :=
  {| TemplateParser.templateRoot := "/t"; TemplateParser.cacheSize := capacity |}.

Definition emptyContext : VariableSubstitutionEngine.VariableContext :=
  {| VariableSubstitutionEngine.env := [];
     VariableSubstitutionEngine.user := [];
     VariableSubstitutionEngine.system := [];
     VariableSubstitutionEngine.computed := [];
     VariableSubstitutionEngine.secrets := [] |}.

Definition sampleVariableConfig (caching : bool) (ttl : Z)
    (sch : list (string * VariableSubstitutionEngine.TemplateVariableSchema))
  : VariableSubstitutionEngine.VariableConfig :=
  {| VariableSubstitutionEngine.environments := [];
     VariableSubstitutionEngine.defaults := [];
     VariableSubstitutionEngine.transformers := [];
     VariableSubstitutionEngine.schemas := sch;
     VariableSubstitutionEngine.enableCaching := caching;
     VariableSubstitutionEngine.cacheTtl := ttl |}.

Definition sampleEntry (handle : nat) (key : string) (accessed : Z) (count : Z)
  : TemplateParser.TemplateCacheEntry :=
  {| TemplateParser.result := sampleResult handle key;
     TemplateParser.lastAccessed := accessed;
     TemplateParser.accessCount := count;
     TemplateParser.ttl := (accessed + 5 * 60 * 1000)%Z |}.

Definition sampleResolve (root p : string) : string := root ++ "/" ++ p.

Definition sampleCompile (handle : nat) (resolvedPath : string)
  : Result TemplateParser.Compiled :=
  Ok {| TemplateParser.c_template := handle;
        TemplateParser.c_metadata := sampleMetadata;
        TemplateParser.c_compilationTime := 3 |}.

Definition sampleCompileFails (resolvedPath : string)
  : Result TemplateParser.Compiled :=
  Throw ("ENOENT: no such file or directory, open '" ++ resolvedPath ++ "'").

Definition sampleClock (t : Z) : TemplateParser.Clock :=
  {| TemplateParser.nowLookup := t; TemplateParser.nowEvict := t;
     TemplateParser.nowInsert := t |}.

Definition sampleParseOptions (vars : option (list (string * JsValue)))
  : TemplateParser.ParseOptions :=
  {| TemplateParser.skipCache := false; TemplateParser.optVariables := vars |}.

Definition sampleDescriptor (n v : string) : TemplateRegistry.TemplateMetadata :=
  {| TemplateRegistry.name := Some n;
     TemplateRegistry.version := Some v;
     TemplateRegistry.description := Some "A sample template";
     TemplateRegistry.dependencies := Some [];
     TemplateRegistry.variables := Some [];
     TemplateRegistry.files := Some [];
     TemplateRegistry.securityStatus :=
       Some {| TemplateRegistry.status := "passed" |} |}.

(** A merged variable map in which the dotted path [user.name] leads
    to ["Ann"], and two variables that refer to each other. *)
Definition sampleVariables : list (string * JsValue) :=
  [("user", VObj [("name", VStr "Ann")]);
   ("greeting", VStr "Hi ${user.name}");
   ("ping", VStr "${pong}");
   ("pong", VStr "${ping}");
   ("pending", VStr "${missing.x}")].

Definition sampleUserContext : VariableSubstitutionEngine.VariableContext :=
  {| VariableSubstitutionEngine.env := [("HOME", VStr "/home/ann")];
     VariableSubstitutionEngine.user := sampleVariables;
     VariableSubstitutionEngine.system := [("platform", VStr "linux")];
     VariableSubstitutionEngine.computed := [("year", VNum 2025)];
     VariableSubstitutionEngine.secrets := [("token", VStr "s3cret")] |}.


Definition sampleSchema (n t : string) (req : bool) (dflt : JsValue)
  : string * VariableSubstitutionEngine.TemplateVariableSchema :=
  (n, {| VariableSubstitutionEngine.name := n;
         VariableSubstitutionEngine.type := t;
         VariableSubstitutionEngine.required := req;
         VariableSubstitutionEngine.default := dflt |}).

(** [projectName] is required and has no default; [license] is
    required and defaults to ["MIT"]. *)
Definition sampleSchemas
  : list (string * VariableSubstitutionEngine.TemplateVariableSchema) :=
  [sampleSchema "projectName" "string" true VUndefined;
   sampleSchema "license" "string" true (VStr "MIT")].

(** [String(member)] for the members that a plain object inherits and
    for the name of its constructor; the sample knows no other path. *)
Definition sampleRuntime : JsVal.Runtime :=
  {| JsVal.inheritedString :=
       fun proto path =>
         match proto, path with
         | JsVal.ObjectPrototype, [key] =>
             if String.eqb key "__proto__" then Some "[object Object]"
             else if String.eqb key "constructor"
             then Some "function Object() { [native code] }"
             else if JsVal.inObjectPrototype key
             then Some ("function " ++ key ++ "() { [native code] }")
             else None
         | JsVal.ObjectPrototype, ["constructor"; "name"] => Some "Object"
         | _, _ => None
         end |}.

(** The process of an ES module: [require] is not defined there, so
    [loadSystemVariables] throws; the validator has no schema under a
    name that is inherited and throws for it. *)
Definition sampleWorld (tLookup tCache : Z) : VariableSubstitutionEngine.World :=
  {| VariableSubstitutionEngine.processEnv := [("HOME", VStr "/home/ann")];
     VariableSubstitutionEngine.systemVariables := Throw "require is not defined";
     VariableSubstitutionEngine.clockVariables :=
       Ok [("timestamp", VStr "2025-01-01T00:00:00.000Z");
           ("date", VStr "2025-01-01"); ("time", VStr "00:00:00");
           ("year", VNum 2025); ("month", VNum 1); ("day", VNum 1);
           ("platform", VStr "linux"); ("arch", VStr "x64");
           ("nodeVersion", VStr "v20.11.0"); ("cwd", VStr "/home/ann/project")];
     VariableSubstitutionEngine.ajvValidate :=
       fun nm _ =>
         if JsVal.inObjectPrototype nm
         then VariableSubstitutionEngine.AjvThrows
                "Cannot read properties of undefined (reading 'baseId')"
         else VariableSubstitutionEngine.AjvValid;
     VariableSubstitutionEngine.jsNumber :=
       fun v => match v with VNum n => Some n | _ => None end;
     VariableSubstitutionEngine.sha256 := fun data => "sha256:" ++ data;
     VariableSubstitutionEngine.runtime := sampleRuntime;
     VariableSubstitutionEngine.nowLookup := tLookup;
     VariableSubstitutionEngine.nowCache := tCache |}.

(** Options of a caller that leaves the system layer out. *)
Definition sampleOptions (skip : option bool)
  : VariableSubstitutionEngine.VariableResolutionOptions :=
  {| VariableSubstitutionEngine.environment := None;
     VariableSubstitutionEngine.includeSystem := Some false;
     VariableSubstitutionEngine.includeEnv := Some true;
     VariableSubstitutionEngine.overrides := None;
     VariableSubstitutionEngine.skipValidation := skip;
     VariableSubstitutionEngine.enableInterpolation := Some true |}.

(** ** Notions used in the statements *)


(** No call made for the job throws: directory creation, [stat], the
    copies, [chmod], compilation, rendering and the write all succeed. *)
Definition cleanJob (pl : StreamingFileProcessor.PathLib)
    (fs : StreamingFileProcessor.FileSystem)
    (cfg : TemplateParser.TemplateParserConfig)
    (job : StreamingFileProcessor.ProcessingJob) : Prop :=
  let src := StreamingFileProcessor.job_sourcePath job in
  let dst := StreamingFileProcessor.job_destinationPath job in
  isOk (StreamingFileProcessor.mkdirRecursive fs
          (StreamingFileProcessor.dirname pl dst)) = true /\
  isOk (StreamingFileProcessor.stat fs src) = true /\
  isOk (StreamingFileProcessor.copyFile fs src dst) = true /\
  (forall m, isOk (StreamingFileProcessor.chmod fs dst m) = true) /\
  isOk (StreamingFileProcessor.streamCopy fs src dst) = true /\
  isOk (StreamingFileProcessor.compile fs
          (StreamingFileProcessor.resolve pl (TemplateParser.templateRoot cfg)
             (StreamingFileProcessor.basename pl src))) = true /\
  (forall t vars, isOk (StreamingFileProcessor.render fs t vars) = true) /\
  (forall content, isOk (StreamingFileProcessor.writeFile fs dst content) = true).

(** The read of the job's file throws [msg]: at [stat], or in the
    stream copy of a file that is neither skipped, nor binary, nor a
    template. *)
Definition readThrows (pl : StreamingFileProcessor.PathLib)
    (fs : StreamingFileProcessor.FileSystem)
    (job : StreamingFileProcessor.ProcessingJob) (msg : string) : Prop :=
  let src := StreamingFileProcessor.job_sourcePath job in
  let dst := StreamingFileProcessor.job_destinationPath job in
  let opts := StreamingFileProcessor.job_options job in
  isOk (StreamingFileProcessor.mkdirRecursive fs
          (StreamingFileProcessor.dirname pl dst)) = true /\
  (StreamingFileProcessor.stat fs src = Throw msg \/
   exists stats,
     StreamingFileProcessor.stat fs src = Ok stats /\
     StreamingFileProcessor.shouldProcessFile src stats opts = true /\
     (StreamingFileProcessor.isBinaryFile fs src
      && StreamingFileProcessor.skipBinary opts) = false /\
     StreamingFileProcessor.isTemplateFile pl src
       (StreamingFileProcessor.templateExtensions opts) = false /\
     StreamingFileProcessor.streamCopy fs src dst = Throw msg).

(** The ["error"] result that [processFile] gives for a job. *)
Definition errorResult (fs : StreamingFileProcessor.FileSystem)
    (job : StreamingFileProcessor.ProcessingJob) (msg : string)
  : StreamingFileProcessor.FileProcessingResult :=
  {| StreamingFileProcessor.sourcePath := StreamingFileProcessor.job_sourcePath job;
     StreamingFileProcessor.destinationPath :=
       StreamingFileProcessor.job_destinationPath job;
     StreamingFileProcessor.status := StreamingFileProcessor.error;
     StreamingFileProcessor.processingTime :=
       StreamingFileProcessor.elapsed fs (StreamingFileProcessor.job_sourcePath job);
     StreamingFileProcessor.fileSize := 0;
     StreamingFileProcessor.errorMessage := Some msg;
     StreamingFileProcessor.templated := false |}.

Definition succeededOrSkipped (r : StreamingFileProcessor.FileProcessingResult)
  : Prop :=
  StreamingFileProcessor.status r = StreamingFileProcessor.success \/
  StreamingFileProcessor.status r = StreamingFileProcessor.skipped.





(** A batch of three plain files under [/src]; the second one has
    vanished when its turn comes. *)
Definition samplePathLib : StreamingFileProcessor.PathLib :=
  {| StreamingFileProcessor.resolve := sampleResolve;
     StreamingFileProcessor.join := fun a b => a ++ "/" ++ b;
     StreamingFileProcessor.relative :=
       fun from p => substring (S (String.length from))
                       (String.length p - S (String.length from)) p;
     StreamingFileProcessor.dirname := fun _ => "/out";
     StreamingFileProcessor.basename :=
       fun p => substring 5 (String.length p - 5) p;
     StreamingFileProcessor.extname :=
       fun p => substring (String.length p - 4) 4 p |}.

Definition sampleStats : StreamingFileProcessor.Stats :=
  {| StreamingFileProcessor.size := 10; StreamingFileProcessor.mode := 420 |}.

Definition sampleFileSystem : StreamingFileProcessor.FileSystem :=
  {| StreamingFileProcessor.fastGlob :=
       fun _ => Ok ["/src/a.dat"; "/src/b.dat"; "/src/c.dat"];
     StreamingFileProcessor.statAtDiscovery := fun _ => Ok sampleStats;
     StreamingFileProcessor.mkdirRecursive := fun _ => Ok tt;
     StreamingFileProcessor.stat :=
       fun p => if String.eqb p "/src/b.dat"
                then Throw "ENOENT: no such file or directory, stat '/src/b.dat'"
                else Ok sampleStats;
     StreamingFileProcessor.getMimeType := fun _ => None;
     StreamingFileProcessor.readHead := fun _ => Ok (list_ascii_of_string "text");
     StreamingFileProcessor.copyFile := fun _ _ => Ok tt;
     StreamingFileProcessor.chmod := fun _ _ => Ok tt;
     StreamingFileProcessor.streamCopy := fun _ _ => Ok tt;
     StreamingFileProcessor.compile := sampleCompile 1;
     StreamingFileProcessor.render := fun _ _ => Ok "rendered";
     StreamingFileProcessor.writeFile := fun _ _ => Ok tt;
     StreamingFileProcessor.parseClock := fun _ => sampleClock 1000;
     StreamingFileProcessor.elapsed := fun _ => 1%Z;
     StreamingFileProcessor.batchElapsed := 5 |}.

Definition sampleNoOptions : StreamingFileProcessor.PartialOptions :=
  {| StreamingFileProcessor.p_skipBinary := None;
     StreamingFileProcessor.p_preservePermissions := None;
     StreamingFileProcessor.p_incremental := None;
     StreamingFileProcessor.p_filters := None;
     StreamingFileProcessor.p_templateExtensions := None;
     StreamingFileProcessor.p_maxFileSize := None;
     StreamingFileProcessor.p_enableCompression := None |}.

Definition sampleJob (n : string) (file : string)
  : StreamingFileProcessor.ProcessingJob :=
  {| StreamingFileProcessor.id := "job_" ++ n;
     StreamingFileProcessor.job_sourcePath := "/src/" ++ file;
     StreamingFileProcessor.job_destinationPath := "/out/" ++ file;
     StreamingFileProcessor.job_variables := [];
     StreamingFileProcessor.job_options :=
       StreamingFileProcessor.mergeOptions sampleNoOptions |}.


(** A context whose user layer binds [name] directly. *)
Definition sampleFlatContext : VariableSubstitutionEngine.VariableContext :=
  {| VariableSubstitutionEngine.env := [];
     VariableSubstitutionEngine.user :=
       [("name", VStr "Ann"); ("greeting", VStr "Hi ${user.name}");
        ("salute", VStr "Hi ${name}")];
     VariableSubstitutionEngine.system := [];
     VariableSubstitutionEngine.computed := [];
     VariableSubstitutionEngine.secrets := [] |}.

(** ** Sequences of calls *)

(** One call of [parseTemplate], with the answer of the file system
    and of the ETA compiler and the clock readings at its time. *)
Record ParseCall := {
  call_compile : string -> Result TemplateParser.Compiled;
  call_clock : TemplateParser.Clock;
  call_path : string;
  call_options : TemplateParser.ParseOptions
}.

(** The state of a parser after the calls, in order. *)
Definition parseCalls (resolve : string -> string -> string)
    (cfg : TemplateParser.TemplateParserConfig) (calls : list ParseCall)
    (st : TemplateParser.State) : TemplateParser.State :=
  fold_left
    (fun st c =>
       snd (TemplateParser.parseTemplate resolve cfg (call_compile c)
              (call_clock c) (call_path c) (call_options c) st))
    calls st.

(** What holds of the entries of a parser that started empty. *)
Definition entryInvariant (k : string) (e : TemplateParser.TemplateCacheEntry)
  : Prop :=
  k <> "" /\
  TemplateParser.cacheKey (TemplateParser.result e) = k /\
  (1 <= TemplateParser.accessCount e)%Z /\
  (TemplateParser.lastAccessed e <= TemplateParser.ttl e)%Z.

Definition cacheInvariant (c : list (string * TemplateParser.TemplateCacheEntry))
  : Prop :=
  JsMap.wf c /\ forall k e, In (k, e) c -> entryInvariant k e.

(** A successful call followed by a failing one for the same file. *)
Definition sampleCalls : list ParseCall :=
  [{| call_compile := sampleCompile 1; call_clock := sampleClock 5;
      call_path := "a.eta"; call_options := sampleParseOptions None |};
   {| call_compile := sampleCompileFails; call_clock := sampleClock 9;
      call_path := "a.eta"; call_options := sampleParseOptions None |}].

(** The version of a descriptor as [semver] reads it. *)
Definition parsedVersion (t : TemplateRegistry.TemplateMetadata)
  : option Semver.Version :=
  match TemplateRegistry.version t with
  | Some s => Semver.parse s
  | None => None
  end.

(** A version that [semver] rejects for its shape: no version at all,
    or a text without pre-release and build part (no [-], no [+]) that
    is not made of three parts between dots. *)
Definition malformedVersion (v : option string) : bool :=
  match v with
  | Some s =>
      negb (Str.contains "-"%char s) && negb (Str.contains "+"%char s)
      && negb (Nat.eqb (List.length (Str.split "."%char s)) 3)
  | None => true
  end.

(** The comparator of the sort in [getTemplate]. *)
Definition compareVersions (a b : TemplateRegistry.TemplateMetadata) : Result Z :=
  Semver.rcompare (TemplateRegistry.version a) (TemplateRegistry.version b).

(** The head of the list carries a greatest version. *)
Definition headIsGreatest (l : list TemplateRegistry.TemplateMetadata) : Prop :=
  match l with
  | [] => True
  | h :: _ =>
      forall u vu vh, In u l -> parsedVersion u = Some vu ->
                      parsedVersion h = Some vh -> Semver.leV vu vh = true
  end.

(** Every character of the string passes the test. *)
Fixpoint allChars (p : ascii -> bool) (s : string) : bool :=
  match s with
  | EmptyString => true
  | String c rest => p c && allChars p rest
  end.

(** A text written in ASCII: on such a text [trim] removes what
    [String.prototype.trim] removes, which also knows the white space
    beyond ASCII. *)
Definition asciiOnly (s : string) : bool :=
  allChars (fun c => Nat.ltb (nat_of_ascii c) 128) s.



(** The first binding of a name in a list of layers. *)
Fixpoint firstBound (k : string) (layers : list (list (string * JsValue)))
  : option JsValue :=
  match layers with
  | [] => None
  | layer :: rest =>
      match JsMap.get k layer with
      | Some v => Some v
      | None => firstBound k rest
      end
  end.

(** A value that [ToString] prints as [String(value)] does: a string,
    a boolean, [null], an integer printed without exponent, an array
    of such values, an object without a member [toString] of its own;
    and [undefined], which is not printed. *)
Fixpoint printable (v : JsValue) : bool :=
  match v with
  | VUndefined | VNull | VBool _ | VStr _ => true
  | VNum n => (Z.abs n <? 10 ^ 21)%Z
  | VArr items => forallb printable items
  | VObj props => negb (JsMap.has "toString" props)
  end.

(** The path followed through the own members of objects and the
    elements of arrays; [None] when it leaves them: at a member that is
    inherited, or at a member of a string, a number or a boolean. *)
Fixpoint followOwn (segments : list string) (v : JsValue) : option JsValue :=
  match segments with
  | [] => Some v
  | key :: rest =>
      match v with
      | VObj props =>
          match JsMap.get key props with
          | Some x => followOwn rest x
          | None =>
              if JsVal.inObjectPrototype key then None
              else followOwn rest VUndefined
          end
      | VArr items =>
          if String.eqb key "length"
          then followOwn rest (VNum (Z.of_nat (List.length items)))
          else match JsVal.arrayIndex key with
               | Some i => followOwn rest (nth i items VUndefined)
               | None => None
               end
      | VUndefined | VNull => followOwn rest VUndefined
      | _ => None
      end
  end.

(** What a placeholder refers to: its trimmed path starts in the
    innermost layer that binds its first segment (computed, then user,
    then system, then environment) and goes on through own members. *)
Definition placeholderValue (ctx : VariableSubstitutionEngine.VariableContext)
    (name : string) : option JsValue :=
  match Str.split "."%char (Str.trim name) with
  | root :: rest =>
      match firstBound root [VariableSubstitutionEngine.computed ctx;
                             VariableSubstitutionEngine.user ctx;
                             VariableSubstitutionEngine.system ctx;
                             VariableSubstitutionEngine.env ctx] with
      | Some v => followOwn rest v
      | None =>
          if JsVal.inObjectPrototype root then None
          else followOwn rest VUndefined
      end
  | [] => None
  end.

(** A context whose user layer binds [name], and holds one string with
    a placeholder and one with an opening inside a placeholder. *)
Definition sampleNestedOpenerContext : VariableSubstitutionEngine.VariableContext :=
  {| VariableSubstitutionEngine.env := [];
     VariableSubstitutionEngine.user :=
       [("name", VStr "Ann"); ("plain", VStr "${name}");
        ("label", VStr "${x${name}}")];
     VariableSubstitutionEngine.system := [];
     VariableSubstitutionEngine.computed := [];
     VariableSubstitutionEngine.secrets := [] |}.



(** A configuration with defaults, one environment and one
    transformer that fails. *)
Definition sampleLayeredConfig : VariableSubstitutionEngine.VariableConfig :=
  {| VariableSubstitutionEngine.environments :=
       [("production", [("port", VNum 443); ("debug", VBool false)])];
     VariableSubstitutionEngine.defaults :=
       [("port", VNum 3000); ("license", VStr "MIT")];
     VariableSubstitutionEngine.transformers :=
       [("license", fun v _ => Throw "unsupported");
        ("author",
         fun v _ =>
           match v with
           | JsVal.Data value => Ok (VStr (JsVal.toLowerCase (JsVal.ToString value)))
           | JsVal.Inherited _ _ => Throw "unsupported"
           end)];
     VariableSubstitutionEngine.schemas := [];
     VariableSubstitutionEngine.enableCaching := false;
     VariableSubstitutionEngine.cacheTtl := 500 |}.

(** The same configuration with a transformer named after a member
    that every object inherits. *)
Definition sampleInheritedNameConfig : VariableSubstitutionEngine.VariableConfig :=
  {| VariableSubstitutionEngine.environments :=
       VariableSubstitutionEngine.environments sampleLayeredConfig;
     VariableSubstitutionEngine.defaults :=
       VariableSubstitutionEngine.defaults sampleLayeredConfig;
     VariableSubstitutionEngine.transformers :=
       (VariableSubstitutionEngine.transformers sampleLayeredConfig
        ++ [("toString", fun _ _ => Ok (VStr "text"))])%list;
     VariableSubstitutionEngine.schemas := [];
     VariableSubstitutionEngine.enableCaching := false;
     VariableSubstitutionEngine.cacheTtl := 500 |}.

(** A transformer that [applyTransformations] runs on a member
    inherited from [Object.prototype], and that returns: its name
    becomes an own member of the map. *)
Definition runsOnInherited (vars : list (string * JsValue))
    (ctx : VariableSubstitutionEngine.VariableContext)
    (entry : string * VariableSubstitutionEngine.VariableTransformer) : bool :=
  negb (JsMap.has (fst entry) vars)
  && JsVal.inObjectPrototype (fst entry)
  && isOk (snd entry (JsVal.Inherited JsVal.ObjectPrototype [fst entry]) ctx).

Definition sampleProductionOptions
  : VariableSubstitutionEngine.VariableResolutionOptions :=
  {| VariableSubstitutionEngine.environment := Some "production";
     VariableSubstitutionEngine.includeSystem := Some false;
     VariableSubstitutionEngine.includeEnv := None;
     VariableSubstitutionEngine.overrides := None;
     VariableSubstitutionEngine.skipValidation := Some true;
     VariableSubstitutionEngine.enableInterpolation := None |}.

(** What the first loop of [validateVariables] stores for the value of
    a bound variable, if anything. *)
Definition acceptedValue (cfg : VariableSubstitutionEngine.VariableConfig)
    (w : VariableSubstitutionEngine.World) (nm : string) (value : JsValue)
  : option JsValue :=
  let validated coerced :=
    match VariableSubstitutionEngine.ajvValidate w nm coerced with
    | VariableSubstitutionEngine.AjvValid => Some coerced
    | _ => None
    end in
  match VariableSubstitutionEngine.lookupSchema cfg nm with
  | VariableSubstitutionEngine.NoSchema => Some value
  | VariableSubstitutionEngine.InheritedMember => validated value
  | VariableSubstitutionEngine.Declared schema =>
      match VariableSubstitutionEngine.coerceValue w value schema with
      | Ok coerced => validated coerced
      | Throw _ => None
      end
  end.

(** What the second loop stores for a variable that is not bound:
    nothing under a name that the map inherits. *)
Definition filledDefault (cfg : VariableSubstitutionEngine.VariableConfig)
    (nm : string) : option JsValue :=
  match JsMap.get nm (VariableSubstitutionEngine.schemas cfg) with
  | Some schema =>
      if VariableSubstitutionEngine.required schema
         && negb (JsVal.inObjectPrototype nm)
         && negb (JsVal.isUndefined (VariableSubstitutionEngine.default schema))
      then Some (VariableSubstitutionEngine.default schema)
      else None
  | None => None
  end.

(** A value that interpolation has nothing to do with: not a string
    with an opening [${], not an array, not an object. *)
Definition plainValue (v : JsValue) : bool :=
  match v with
  | VStr s => negb (Str.includesOpener s)
  | VArr _ | VObj _ => false
  | _ => true
  end.

Definition notUpper (c : ascii) : bool := negb (JsVal.isUpper c).

Definition notCamelSeparator (c : ascii) : bool :=
  negb (VariableSubstitutionEngine.isCamelSeparator c).

(** A context in which three layers bind the same name. *)
Definition sampleShadowContext : VariableSubstitutionEngine.VariableContext :=
  {| VariableSubstitutionEngine.env := [("HOME", VStr "/home/ann")];
     VariableSubstitutionEngine.user := [("platform", VStr "custom")];
     VariableSubstitutionEngine.system := [("platform", VStr "linux")];
     VariableSubstitutionEngine.computed := [("platform", VStr "darwin")];
     VariableSubstitutionEngine.secrets := [("token", VStr "s3cret")] |}.

(** The job that [createProcessingJobs] pushes for the file found at
    position [i]. *)
Definition jobFor (pl : StreamingFileProcessor.PathLib)
    (sourceDir destinationDir : string) (vars : list (string * JsValue))
    (options : StreamingFileProcessor.ProcessingOptions)
    (entry : nat * string) : StreamingFileProcessor.ProcessingJob :=
  {| StreamingFileProcessor.id :=
       "job_" ++ Json.NumberToString (Z.of_nat (fst entry));
     StreamingFileProcessor.job_sourcePath := snd entry;
     StreamingFileProcessor.job_destinationPath :=
       StreamingFileProcessor.join pl destinationDir
         (StreamingFileProcessor.relative pl sourceDir (snd entry));
     StreamingFileProcessor.job_variables := vars;
     StreamingFileProcessor.job_options := options |}.

(** The shape of a result of [processFile] for the given paths. *)
Definition resultShape (src dst : string)
    (r : StreamingFileProcessor.FileProcessingResult) : Prop :=
  StreamingFileProcessor.sourcePath r = src /\
  StreamingFileProcessor.destinationPath r = dst /\
  match StreamingFileProcessor.status r with
  | StreamingFileProcessor.error =>
      StreamingFileProcessor.errorMessage r <> None /\
      StreamingFileProcessor.fileSize r = 0%Z /\
      StreamingFileProcessor.templated r = false
  | StreamingFileProcessor.skipped =>
      StreamingFileProcessor.errorMessage r = None /\
      StreamingFileProcessor.templated r = false
  | StreamingFileProcessor.success =>
      StreamingFileProcessor.errorMessage r = None
  end.

Definition isLowerCase (s : string) : bool :=
  String.eqb (JsVal.toLowerCase s) s.

(** A path library whose [basename] is the last segment of the path. *)
Definition lastSegment (p : string) : string := last (Str.split "/"%char p) "".

Definition samplePosixPathLib : StreamingFileProcessor.PathLib :=
  {| StreamingFileProcessor.resolve := sampleResolve;
     StreamingFileProcessor.join := StreamingFileProcessor.join samplePathLib;
     StreamingFileProcessor.relative := StreamingFileProcessor.relative samplePathLib;
     StreamingFileProcessor.dirname := StreamingFileProcessor.dirname samplePathLib;
     StreamingFileProcessor.basename := lastSegment;
     StreamingFileProcessor.extname := StreamingFileProcessor.extname samplePathLib |}.

(** * Properties *)

(** ** Facts about [JsMap] *)

Section JsMapFacts.
Context {V : Type}.
Implicit Types (m : list (string * V)) (k : string) (v : V).

Lemma JsMap_get_set_eq k v m : JsMap.get k (JsMap.set k v m) = Some v.
Proof.
  induction m as [|[k' v'] m IH]; simpl.
  - now rewrite String.eqb_refl.
  - destruct (String.eqb k k') eqn:E; simpl; rewrite E; auto.
Qed.

Lemma JsMap_get_set_ne k k' v m :
  k <> k' -> JsMap.get k' (JsMap.set k v m) = JsMap.get k' m.
Proof.
  intros Hne. induction m as [|[k0 v0] m IH]; simpl.
  - destruct (String.eqb k' k) eqn:E; auto.
    apply String.eqb_eq in E. congruence.
  - destruct (String.eqb k k0) eqn:E; simpl.
    + apply String.eqb_eq in E; subst k0.
      destruct (String.eqb k' k) eqn:E'; auto.
      apply String.eqb_eq in E'. congruence.
    + now rewrite IH.
Qed.

Lemma JsMap_get_delete_eq k m : JsMap.get k (JsMap.delete k m) = None.
Proof.
  induction m as [|[k' v'] m IH]; simpl; auto.
  destruct (String.eqb k k') eqn:E; simpl; auto. now rewrite E.
Qed.

Lemma JsMap_get_delete_ne k k' m :
  k <> k' -> JsMap.get k' (JsMap.delete k m) = JsMap.get k' m.
Proof.
  intros Hne. induction m as [|[k0 v0] m IH]; simpl; auto.
  destruct (String.eqb k k0) eqn:E; simpl.
  - apply String.eqb_eq in E; subst k0.
    destruct (String.eqb k' k) eqn:E'; auto.
    apply String.eqb_eq in E'. congruence.
  - now rewrite IH.
Qed.

Lemma JsMap_get_delete_Some k k' m v :
  JsMap.get k' (JsMap.delete k m) = Some v -> JsMap.get k' m = Some v.
Proof.
  destruct (string_dec k k') as [->|Hne].
  - now rewrite JsMap_get_delete_eq.
  - now rewrite JsMap_get_delete_ne.
Qed.

Lemma JsMap_get_In k m v : JsMap.get k m = Some v -> In (k, v) m.
Proof.
  induction m as [|[k' v'] m IH]; simpl; [discriminate|].
  destruct (String.eqb k k') eqn:E.
  - apply String.eqb_eq in E. intros [= ->]. left. now subst.
  - intros H. right. auto.
Qed.

Lemma JsMap_has_false_get k m : JsMap.has k m = false <-> JsMap.get k m = None.
Proof.
  unfold JsMap.has. destruct (JsMap.get k m); split; congruence.
Qed.
End JsMapFacts.

(** ** The compile cache: expiry *)

Section CompileCache.
Import TemplateParser.

Lemma getCachedTemplate_fresh now key st e :
  JsMap.get key (cache st) = Some e ->
  (now <= ttl e)%Z ->
  getCachedTemplate now key st =
    (Some {| result := result e; lastAccessed := now;
             accessCount := (accessCount e + 1)%Z; ttl := ttl e |},
     withCache st
       (JsMap.set key {| result := result e; lastAccessed := now;
                         accessCount := (accessCount e + 1)%Z; ttl := ttl e |}
          (cache st))).
Proof.
  intros Hget Hle. unfold getCachedTemplate. rewrite Hget.
  destruct (Z.gtb_spec now (ttl e)); [lia | reflexivity].
Qed.

Lemma getCachedTemplate_stale now key st e :
  JsMap.get key (cache st) = Some e ->
  (now > ttl e)%Z ->
  getCachedTemplate now key st =
    (None, withCache st (JsMap.delete key (cache st))).
Proof.
  intros Hget Hgt. unfold getCachedTemplate. rewrite Hget.
  destruct (Z.gtb_spec now (ttl e)); [reflexivity | lia].
Qed.

Lemma cacheTemplate_get cfg nowE nowI key r c :
  JsMap.get key (cacheTemplate cfg nowE nowI key r c) =
    Some {| result := r; lastAccessed := nowI; accessCount := 1;
            ttl := (nowI + 5 * 60 * 1000)%Z |}.
Proof. unfold cacheTemplate. apply JsMap_get_set_eq. Qed.
End CompileCache.

(** ** The context cache: expiry *)

Section ContextCache.
Import VariableSubstitutionEngine.

Lemma cacheContext_get cfg now key ctx c :
  JsMap.get key (cacheContext cfg now key ctx c) =
    Some {| context := ctx; cachedAt := now;
            ttl := (now + cacheTtl cfg)%Z; hash := key |}.
Proof. unfold cacheContext. apply JsMap_get_set_eq. Qed.

Lemma getCachedContext_fresh now key c e :
  JsMap.get key c = Some e -> (now <= ttl e)%Z ->
  getCachedContext now key c = (Some e, c).
Proof.
  intros Hget Hle. unfold getCachedContext. rewrite Hget.
  destruct (Z.gtb_spec now (ttl e)); [lia | reflexivity].
Qed.

Lemma getCachedContext_stale now key c e :
  JsMap.get key c = Some e -> (now > ttl e)%Z ->
  getCachedContext now key c = (None, JsMap.delete key c).
Proof.
  intros Hget Hgt. unfold getCachedContext. rewrite Hget.
  destruct (Z.gtb_spec now (ttl e)); [reflexivity | lia].
Qed.
End ContextCache.

(** ** C2: expiry at the boundary *)

(** C2 (the code at the failing input): a read at the instant
    [T + ttl] itself, which C2 counts as expired, is a hit. An entry
    put in the compile cache at [T = 1000] is still served by a read at
    [1000 + 300000], and an entry put in the context cache at [T = 1000]
    with a TTL of [500] is still served by a read at [1500]: both
    caches test [now > entry.ttl] where the metadata cache of the
    registry tests [now - cachedAt < cacheTtl]. *)
Lemma C2_read_at_expiry_instant_hits :
  (301000 >= 1000 + 5 * 60 * 1000)%Z /\
  fst (TemplateParser.getCachedTemplate 301000 "/t/a.eta:"
         (TemplateParser.withCache TemplateParser.initialState
            (TemplateParser.cacheTemplate (sampleParserConfig 10) 1000 1000
               "/t/a.eta:" (sampleResult 1 "/t/a.eta:") [])))
  = Some {| TemplateParser.result := sampleResult 1 "/t/a.eta:";
            TemplateParser.lastAccessed := 301000;
            TemplateParser.accessCount := 2;
            TemplateParser.ttl := 301000 |} /\
  (1500 >= 1000 + 500)%Z /\
  fst (VariableSubstitutionEngine.getCachedContext 1500 "h"
         (VariableSubstitutionEngine.cacheContext (sampleVariableConfig true 500 [])
            1000 "h" emptyContext []))
  = Some {| VariableSubstitutionEngine.context := emptyContext;
            VariableSubstitutionEngine.cachedAt := 1000;
            VariableSubstitutionEngine.ttl := 1500;
            VariableSubstitutionEngine.hash := "h" |}.
Proof. repeat split; try lia; reflexivity. Qed.

(** The metadata cache of the registry at the same instants: a
    descriptor stored at [T = 1000] under a TTL of [500] is not served
    by a read at [1500], the file is read again. *)
Lemma metadata_cache_misses_at_expiry_instant :
  (1500 >= 1000 + 500)%Z /\
  fst (TemplateRegistry.loadTemplateMetadata 500
         (fun _ => TemplateRegistry.UnreadableMetadata "ENOENT") 1500 1500
         "/templates/app/template.json" false
         [("/templates/app/template.json",
           {| TemplateRegistry.cached_metadata := sampleDescriptor "app" "1.0.0";
              TemplateRegistry.cachedAt := 1000 |})])
  = None.
Proof. split; [lia | reflexivity]. Qed.

(** What the two expiry tests of the parser compute. For an entry
    inserted at time [T], in the compile cache (TTL of five minutes) as
    in the context cache (configured TTL), a read of its key at any
    time [now <= T + ttl] is a hit that returns the inserted value, and
    a read at any time [now > T + ttl] is a miss that removes the
    entry. *)
Lemma expiry_tests_include_the_boundary :
  forall (pcfg : TemplateParser.TemplateParserConfig) (nowE T now : Z)
         (key : string) (r : TemplateParser.TemplateCompilationResult)
         (st : TemplateParser.State)
         (vcfg : VariableSubstitutionEngine.VariableConfig) (h : string)
         (ctx : VariableSubstitutionEngine.VariableContext)
         (c : list (string * VariableSubstitutionEngine.VariableCacheEntry)),
    let st' :=
      TemplateParser.withCache st
        (TemplateParser.cacheTemplate pcfg nowE T key r (TemplateParser.cache st)) in
    let c' := VariableSubstitutionEngine.cacheContext vcfg T h ctx c in
    ((now <= T + 5 * 60 * 1000)%Z ->
       exists e st'',
         TemplateParser.getCachedTemplate now key st' = (Some e, st'') /\
         TemplateParser.result e = r /\
         JsMap.get key (TemplateParser.cache st'') = Some e) /\
    ((now > T + 5 * 60 * 1000)%Z ->
       exists st'',
         TemplateParser.getCachedTemplate now key st' = (None, st'') /\
         JsMap.get key (TemplateParser.cache st'') = None) /\
    ((now <= T + VariableSubstitutionEngine.cacheTtl vcfg)%Z ->
       exists e,
         VariableSubstitutionEngine.getCachedContext now h c' = (Some e, c') /\
         VariableSubstitutionEngine.context e = ctx) /\
    ((now > T + VariableSubstitutionEngine.cacheTtl vcfg)%Z ->
       exists c'',
         VariableSubstitutionEngine.getCachedContext now h c' = (None, c'') /\
         JsMap.get h c'' = None).
Proof.
  intros pcfg nowE T now key r st vcfg h ctx c st' c'.
  pose proof (cacheTemplate_get pcfg nowE T key r (TemplateParser.cache st)) as Hp.
  pose proof (cacheContext_get vcfg T h ctx c) as Hc.
  repeat split.
  - intros Hle.
    eexists. eexists. split; [|split].
    + apply getCachedTemplate_fresh with (e := {| TemplateParser.result := r;
        TemplateParser.lastAccessed := T; TemplateParser.accessCount := 1;
        TemplateParser.ttl := (T + 5 * 60 * 1000)%Z |}); [exact Hp | simpl; lia].
    + reflexivity.
    + simpl. apply JsMap_get_set_eq.
  - intros Hgt. eexists. split.
    + eapply getCachedTemplate_stale; [exact Hp | simpl; lia].
    + simpl. apply JsMap_get_delete_eq.
  - intros Hle. eexists. split.
    + eapply getCachedContext_fresh; [exact Hc | simpl; lia].
    + reflexivity.
  - intros Hgt. eexists. split.
    + eapply getCachedContext_stale; [exact Hc | simpl; lia].
    + apply JsMap_get_delete_eq.
Qed.

(** ** C3: eviction *)

Section Eviction.
Import TemplateParser.

Lemma evict_fold_keeps c acc :
  (forall k e, In (k, e) c -> (snd acc <= lastAccessed e)%Z) ->
  fold_left evictStep c acc = acc.
Proof.
  revert acc. induction c as [|[k e] c IH]; intros acc Hall; simpl; auto.
  assert (Hstep : evictStep acc (k, e) = acc).
  { unfold evictStep; simpl.
    destruct (Z.ltb_spec (lastAccessed e) (snd acc)) as [Hlt|]; auto.
    specialize (Hall k e (or_introl eq_refl)). lia. }
  rewrite Hstep. apply IH. intros k' e' Hin. apply (Hall k' e'). now right.
Qed.

(** No entry is evicted when none was accessed strictly before the
    instant read by the eviction itself. *)
Lemma evictLeastRecentlyUsed_nothing_older now c :
  (forall k e, In (k, e) c -> (now <= lastAccessed e)%Z) ->
  evictLeastRecentlyUsed now c = c.
Proof.
  intros Hall. unfold evictLeastRecentlyUsed.
  rewrite evict_fold_keeps by (simpl; exact Hall). reflexivity.
Qed.
End Eviction.

(** C3 (the code at the failing input): with a capacity of one entry,
    a cache that holds the entry inserted at instant [1000] and an
    insertion of a second key during the same millisecond, no entry is
    evicted: the cache is at capacity before the insertion and holds two
    entries after it, although the claim has the least recently accessed
    entry removed. *)
Theorem C3_no_eviction_within_the_same_millisecond :
  let cfg := sampleParserConfig 1 in
  let full :=
    TemplateParser.cacheTemplate cfg 1000 1000 "/t/a.eta:"
      (sampleResult 1 "/t/a.eta:") [] in
  full = [("/t/a.eta:", sampleEntry 1 "/t/a.eta:" 1000 1)] /\
  (JsMap.size full >=? TemplateParser.cacheSize cfg)%Z = true /\
  TemplateParser.evictLeastRecentlyUsed 1000 full = full /\
  TemplateParser.cacheTemplate cfg 1000 1000 "/t/b.eta:"
    (sampleResult 2 "/t/b.eta:") full
  = [("/t/a.eta:", sampleEntry 1 "/t/a.eta:" 1000 1);
     ("/t/b.eta:", sampleEntry 2 "/t/b.eta:" 1000 1)] /\
  JsMap.size
    (TemplateParser.cacheTemplate cfg 1000 1000 "/t/b.eta:"
       (sampleResult 2 "/t/b.eta:") full) = 2%Z.
Proof.
  cbv zeta. split; [reflexivity|]. split; [reflexivity|].
  split; [|split; reflexivity].
  apply evictLeastRecentlyUsed_nothing_older.
  intros k e [Heq|[]]. inversion Heq; subst. simpl. lia.
Qed.

(** ** C4: the compile cache round trip *)

Section RoundTrip.
Import TemplateParser.
Variable resolve : string -> string -> string.

(** After a call that returned [r], the cache holds [r] under the key
    of the call. *)
Lemma parseTemplate_caches_result cfg compile clk path vars st r st1 :
  parseTemplate resolve cfg compile clk path
    {| skipCache := false; optVariables := vars |} st = (Ok r, st1) ->
  exists e,
    JsMap.get (generateCacheKey (resolve (templateRoot cfg) path) vars) (cache st1)
      = Some e /\ result e = r.
Proof.
  unfold parseTemplate. cbn [skipCache optVariables].
  set (key := generateCacheKey (resolve (templateRoot cfg) path) vars).
  unfold getCachedTemplate.
  destruct (JsMap.get key (cache st)) as [e|] eqn:Hget.
  - destruct (Z.gtb_spec (nowLookup clk) (ttl e)).
    + destruct (compile (resolve (templateRoot cfg) path)) as [c|msg];
        [|discriminate].
      intros [= <- <-]. cbn [cache]. rewrite cacheTemplate_get.
      eexists; split; reflexivity.
    + intros [= <- <-]. cbn [cache withCache]. rewrite JsMap_get_set_eq.
      eexists; split; reflexivity.
  - destruct (compile (resolve (templateRoot cfg) path)) as [c|msg];
      [|discriminate].
    intros [= <- <-]. cbn [cache]. rewrite cacheTemplate_get.
    eexists; split; reflexivity.
Qed.

Lemma parseTemplate_hit cfg compile clk path vars st e :
  JsMap.get (generateCacheKey (resolve (templateRoot cfg) path) vars) (cache st)
    = Some e ->
  (nowLookup clk <= ttl e)%Z ->
  exists st2 e2,
    parseTemplate resolve cfg compile clk path
      {| skipCache := false; optVariables := vars |} st = (Ok (result e), st2) /\
    cacheHits (performanceMetrics st2) = (cacheHits (performanceMetrics st) + 1)%Z /\
    JsMap.get (generateCacheKey (resolve (templateRoot cfg) path) vars) (cache st2)
      = Some e2 /\
    result e2 = result e /\
    accessCount e2 = (accessCount e + 1)%Z /\
    lastAccessed e2 = nowLookup clk.
Proof.
  intros Hget Hle. unfold parseTemplate. cbn [skipCache optVariables].
  rewrite (getCachedTemplate_fresh _ _ _ _ Hget Hle).
  eexists. eexists. split; [reflexivity|].
  cbn. rewrite JsMap_get_set_eq. repeat split; reflexivity.
Qed.
End RoundTrip.

(** C4: a second [parseTemplate] with the same path and variables, with
    [skipCache] unset and before the entry expires, returns the result
    of the first call from the cache, adds one to the cache-hit counter
    and one to the [accessCount] of the entry; what the file system and
    the compiler would answer at the second call plays no part. *)
Theorem C4_compile_cache_round_trip :
  forall (resolve : string -> string -> string)
         (cfg : TemplateParser.TemplateParserConfig)
         (compile1 compile2 : string -> Result TemplateParser.Compiled)
         (clk1 clk2 : TemplateParser.Clock) (path : string)
         (vars : option (list (string * JsValue)))
         (st st1 : TemplateParser.State)
         (r : TemplateParser.TemplateCompilationResult),
    let opts := {| TemplateParser.skipCache := false;
                   TemplateParser.optVariables := vars |} in
    let key :=
      TemplateParser.generateCacheKey
        (resolve (TemplateParser.templateRoot cfg) path) vars in
    TemplateParser.parseTemplate resolve cfg compile1 clk1 path opts st = (Ok r, st1) ->
    (forall e, JsMap.get key (TemplateParser.cache st1) = Some e ->
               (TemplateParser.nowLookup clk2 <= TemplateParser.ttl e)%Z) ->
    exists e1 e2 st2,
      JsMap.get key (TemplateParser.cache st1) = Some e1 /\
      TemplateParser.parseTemplate resolve cfg compile2 clk2 path opts st1
        = (Ok r, st2) /\
      TemplateParser.cacheHits (TemplateParser.performanceMetrics st2)
        = (TemplateParser.cacheHits (TemplateParser.performanceMetrics st1) + 1)%Z /\
      JsMap.get key (TemplateParser.cache st2) = Some e2 /\
      TemplateParser.result e2 = r /\
      TemplateParser.accessCount e2 = (TemplateParser.accessCount e1 + 1)%Z.
Proof.
  intros resolve cfg compile1 compile2 clk1 clk2 path vars st st1 r opts key
         Hfirst Hfresh.
  destruct (parseTemplate_caches_result resolve cfg compile1 clk1 path vars st r st1
              Hfirst) as (e1 & Hget & Hres).
  fold key in Hget.
  destruct (parseTemplate_hit resolve cfg compile2 clk2 path vars st1 e1 Hget
              (Hfresh e1 Hget))
    as (st2 & e2 & Hsecond & Hhits & Hget2 & Hres2 & Hcount & _).
  exists e1, e2, st2. subst r. repeat split; auto.
Qed.

(** C4 on a concrete run: the template [a.eta] is compiled at instant
    [1000] with [name = "Ann"]; at instant [2000] the file is gone, and
    the second call still returns the first result. *)
Lemma C4_compile_cache_round_trip_witness :
  exists r st1 e1 e2 st2,
    TemplateParser.parseTemplate sampleResolve (sampleParserConfig 10)
      (sampleCompile 7) (sampleClock 1000) "a.eta"
      (sampleParseOptions (Some [("name", VStr "Ann")]))
      TemplateParser.initialState = (Ok r, st1) /\
    JsMap.get
      (TemplateParser.generateCacheKey (sampleResolve "/t" "a.eta")
         (Some [("name", VStr "Ann")]))
      (TemplateParser.cache st1) = Some e1 /\
    TemplateParser.parseTemplate sampleResolve (sampleParserConfig 10)
      sampleCompileFails (sampleClock 2000) "a.eta"
      (sampleParseOptions (Some [("name", VStr "Ann")])) st1 = (Ok r, st2) /\
    TemplateParser.cacheHits (TemplateParser.performanceMetrics st2)
      = (TemplateParser.cacheHits (TemplateParser.performanceMetrics st1) + 1)%Z /\
    JsMap.get
      (TemplateParser.generateCacheKey (sampleResolve "/t" "a.eta")
         (Some [("name", VStr "Ann")]))
      (TemplateParser.cache st2) = Some e2 /\
    TemplateParser.result e2 = r /\
    TemplateParser.accessCount e2 = (TemplateParser.accessCount e1 + 1)%Z.
Proof.
  pose proof (C4_compile_cache_round_trip sampleResolve (sampleParserConfig 10)
                (sampleCompile 7) sampleCompileFails (sampleClock 1000)
                (sampleClock 2000) "a.eta" (Some [("name", VStr "Ann")])
                TemplateParser.initialState) as H.
  cbv zeta in H.
  specialize (H _ _ eq_refl).
  destruct H as (e1 & e2 & st2 & H1 & H2 & H3 & H4 & H5 & H6).
  - intros e He. vm_compute in He. injection He as <-. simpl. lia.
  - eexists. eexists. exists e1, e2, st2.
    split; [reflexivity|]. repeat split; assumption.
Defined.

(** ** C5: the compile-cache key *)

(** C5 (the code at the failing input): the array replacer
    [Object.keys(variables).sort()] lists the top-level names only and
    filters the members of nested objects as well. The bindings
    [{config: {port: 3000}}] and [{config: {port: 4000}}] differ in a
    nested value and get the same key, [path:{"config":{}}], for every
    path. *)
Theorem C5_nested_values_do_not_reach_the_key :
  forall path : string,
    let v1 := [("config", VObj [("port", VNum 3000)])] in
    let v2 := [("config", VObj [("port", VNum 4000)])] in
    v1 <> v2 /\
    TemplateParser.generateCacheKey path (Some v1)
      = path ++ ":{" ++ Json.dquote ++ "config" ++ Json.dquote ++ ":{}}" /\
    TemplateParser.generateCacheKey path (Some v2)
      = TemplateParser.generateCacheKey path (Some v1).
Proof.
  intros path v1 v2. split; [discriminate|]. split; reflexivity.
Qed.

(** ** C1: version resolution in the catalog *)

Lemma Permutation_three_inv {A : Type} (l : list A) (a b c : A) :
  Permutation l [a; b; c] ->
  l = [a; b; c] \/ l = [a; c; b] \/ l = [b; a; c] \/
  l = [c; a; b] \/ l = [b; c; a] \/ l = [c; b; a].
Proof.
  intros HP.
  pose proof (Permutation_length HP) as Hlen.
  destruct l as [|x [|y [|z [|? ?]]]]; try discriminate Hlen.
  assert (Hin : In a [x; y; z]) by
    (apply (Permutation_in a (Permutation_sym HP)); now left).
  destruct Hin as [<-|[<-|[<-|[]]]].
  - apply Permutation_cons_inv in HP.
    apply Permutation_length_2_inv in HP. destruct HP as [H|H]; inversion H; auto.
  - assert (HP' : Permutation (y :: [x; z]) (y :: [b; c])).
    { eapply Permutation_trans; [apply perm_swap | exact HP]. }
    apply Permutation_cons_inv in HP'.
    apply Permutation_length_2_inv in HP'.
    destruct HP' as [H|H]; inversion H; auto 10.
  - assert (HP' : Permutation (z :: [x; y]) (z :: [b; c])).
    { eapply Permutation_trans; [|exact HP].
      change [x; y; z] with (([x; y] ++ [z])%list). apply Permutation_cons_append. }
    apply Permutation_cons_inv in HP'.
    apply Permutation_length_2_inv in HP'.
    destruct HP' as [H|H]; inversion H; auto 10.
Qed.

(** C1, as stated, fails on the range query: with the descriptors of
    ["x"] discovered in the order 1.0.0, 1.2.0, 2.0.0, the query
    [getTemplate("x", "^1.0.0")] returns the 1.0.0 descriptor, the first
    one that satisfies the range, and not the 1.2.0 descriptor. *)
Lemma C1_range_query_returns_first_match :
  TemplateRegistry.getTemplate
    (Ok [sampleDescriptor "x" "1.0.0"; sampleDescriptor "x" "1.2.0";
         sampleDescriptor "x" "2.0.0"]) "x" (Some "^1.0.0")
  = Some (sampleDescriptor "x" "1.0.0") /\
  TemplateRegistry.getTemplate
    (Ok [sampleDescriptor "x" "1.0.0"; sampleDescriptor "x" "1.2.0";
         sampleDescriptor "x" "2.0.0"]) "x" (Some "^1.0.0")
  <> Some (sampleDescriptor "x" "1.2.0").
Proof. split; [reflexivity | discriminate]. Qed.

(** C1 (amended): when the descriptors named ["x"] of the catalog are
    exactly three, with versions 1.0.0, 1.2.0 and 2.0.0 in any order of
    discovery, [getTemplate("x")] returns the 2.0.0 descriptor;
    [getTemplate("x", "^1.0.0")] returns the first descriptor, in
    discovery order, whose version satisfies the range, that is
    whichever of the 1.0.0 and 1.2.0 descriptors was discovered first;
    [getTemplate("x", "9.9.9")] returns [null]. *)
Theorem C1_version_resolution :
  forall (templates : list TemplateRegistry.TemplateMetadata)
         (d100 d120 d200 : TemplateRegistry.TemplateMetadata),
    TemplateRegistry.name d100 = Some "x" ->
    TemplateRegistry.name d120 = Some "x" ->
    TemplateRegistry.name d200 = Some "x" ->
    TemplateRegistry.version d100 = Some "1.0.0" ->
    TemplateRegistry.version d120 = Some "1.2.0" ->
    TemplateRegistry.version d200 = Some "2.0.0" ->
    Permutation
      (filter (fun t => TemplateRegistry.strictEq (TemplateRegistry.name t) "x")
         templates)
      [d100; d120; d200] ->
    TemplateRegistry.getTemplate (Ok templates) "x" None = Some d200 /\
    TemplateRegistry.getTemplate (Ok templates) "x" (Some "^1.0.0")
      = find (fun t =>
                TemplateRegistry.strictEq (TemplateRegistry.version t) "1.0.0"
                || TemplateRegistry.strictEq (TemplateRegistry.version t) "1.2.0")
          (filter (fun t => TemplateRegistry.strictEq (TemplateRegistry.name t) "x")
             templates) /\
    (exists d, TemplateRegistry.getTemplate (Ok templates) "x" (Some "^1.0.0") = Some d
               /\ (d = d100 \/ d = d120)) /\
    TemplateRegistry.getTemplate (Ok templates) "x" (Some "9.9.9") = None.
Proof.
  intros templates d100 d120 d200 Hn1 Hn2 Hn3 Hv1 Hv2 Hv3 HP.
  unfold TemplateRegistry.getTemplate.
  set (matching :=
         filter (fun t => TemplateRegistry.strictEq (TemplateRegistry.name t) "x")
           templates) in *.
  destruct d100 as [n1 v1 ? ? ? ? ?], d120 as [n2 v2 ? ? ? ? ?],
           d200 as [n3 v3 ? ? ? ? ?].
  simpl in Hn1, Hn2, Hn3, Hv1, Hv2, Hv3. subst.
  apply Permutation_three_inv in HP.
  destruct HP as [-> | [-> | [-> | [-> | [-> | ->]]]]];
    (split; [reflexivity|]); (split; [reflexivity|]);
    (split; [|reflexivity]); eexists; (split; [reflexivity|]); auto.
Qed.

(** The amended C1 on a catalog that also lists another template and
    discovers 1.2.0 before 1.0.0. *)
Lemma C1_version_resolution_witness :
  let templates :=
    [sampleDescriptor "x" "1.2.0"; sampleDescriptor "y" "3.1.4";
     sampleDescriptor "x" "2.0.0"; sampleDescriptor "x" "1.0.0"] in
  TemplateRegistry.getTemplate (Ok templates) "x" None
    = Some (sampleDescriptor "x" "2.0.0") /\
  TemplateRegistry.getTemplate (Ok templates) "x" (Some "^1.0.0")
    = Some (sampleDescriptor "x" "1.2.0") /\
  TemplateRegistry.getTemplate (Ok templates) "x" (Some "9.9.9") = None.
Proof.
  intros templates.
  destruct (C1_version_resolution templates
              (sampleDescriptor "x" "1.0.0") (sampleDescriptor "x" "1.2.0")
              (sampleDescriptor "x" "2.0.0")
              eq_refl eq_refl eq_refl eq_refl eq_refl eq_refl)
    as (Hlatest & Hrange & _ & Hnone).
  - simpl.
    apply Permutation_trans with
      (l' := [sampleDescriptor "x" "1.2.0"; sampleDescriptor "x" "1.0.0";
              sampleDescriptor "x" "2.0.0"]).
    + apply perm_skip. apply perm_swap.
    + apply perm_swap.
  - split; [exact Hlatest|]. split; [|exact Hnone].
    rewrite Hrange. reflexivity.
Defined.

(** ** C8: interpolation *)

Section StringFacts.

Lemma append_nil_r (s : string) : s ++ "" = s.
Proof. induction s as [|c s IH]; simpl; [reflexivity | now rewrite IH]. Qed.

Lemma append_assoc (a b c : string) : (a ++ b) ++ c = a ++ (b ++ c).
Proof. induction a as [|x a IH]; simpl; [reflexivity | now rewrite IH]. Qed.

Lemma length_append (a b : string) :
  String.length (a ++ b) = String.length a + String.length b.
Proof. induction a as [|x a IH]; simpl; [reflexivity | now rewrite IH]. Qed.

End StringFacts.

Section Interpolation.
Import VariableSubstitutionEngine.
Variable rt : JsVal.Runtime.

Lemma spanNotClose_decompose s nm r :
  spanNotClose s = (nm, r) -> s = nm ++ r.
Proof.
  revert nm r. induction s as [|c s IH]; simpl; intros nm r.
  - now intros [= <- <-].
  - destruct (Ascii.eqb c "}"%char).
    + now intros [= <- <-].
    + destruct (spanNotClose s) as [nm' r'] eqn:E.
      intros [= <- <-]. simpl. f_equal. now apply IH.
Qed.

Lemma spanNotClose_until_close nm post :
  Str.contains "}"%char nm = false ->
  spanNotClose (nm ++ String "}"%char post) = (nm, String "}"%char post).
Proof.
  induction nm as [|c nm IH]; simpl; intros H.
  - reflexivity.
  - apply orb_false_iff in H as [Hc Hrest]. rewrite Hc, (IH Hrest). reflexivity.
Qed.

Lemma matchPlaceholder_decompose s nm rest :
  matchPlaceholder s = Some (nm, rest) ->
  s = "${" ++ nm ++ "}" ++ rest.
Proof.
  unfold matchPlaceholder.
  destruct s as [|c1 [|c2 t]]; try discriminate.
  - destruct c1 as [[] [] [] [] [] [] [] []]; discriminate.
  - destruct c1 as [[] [] [] [] [] [] [] []]; try discriminate.
    destruct c2 as [[] [] [] [] [] [] [] []]; try discriminate.
    destruct (spanNotClose t) as [n r] eqn:E.
    destruct n as [|c n]; [discriminate|].
    destruct r as [|c3 r]; [discriminate|].
    destruct c3 as [[] [] [] [] [] [] [] []]; try discriminate.
    intros [= <- <-]. apply spanNotClose_decompose in E. now rewrite E.
Qed.

Lemma matchPlaceholder_token nm post :
  nm <> "" ->
  Str.contains "}"%char nm = false ->
  matchPlaceholder (String "$" (String "{" (nm ++ String "}" post)))
  = Some (nm, post).
Proof.
  intros Hne Hno. cbn [matchPlaceholder].
  rewrite (spanNotClose_until_close nm post Hno).
  destruct nm; [contradiction | reflexivity].
Qed.

Lemma matchPlaceholder_needs_opener c tl :
  match tl with
  | String c2 _ => Ascii.eqb c "$"%char && Ascii.eqb c2 "{"%char
  | EmptyString => false
  end = false ->
  matchPlaceholder (String c tl) = None.
Proof.
  destruct tl as [|c2 t].
  - intros _. destruct c as [[] [] [] [] [] [] [] []]; reflexivity.
  - destruct c as [[] [] [] [] [] [] [] []]; try (intros _; reflexivity).
    destruct c2 as [[] [] [] [] [] [] [] []]; try (intros _; reflexivity).
    discriminate.
Qed.

Lemma replacePlaceholders_step fuel f c tl :
  replacePlaceholders (S fuel) f (String c tl)
  = match matchPlaceholder (String c tl) with
    | Some (varName, rest) =>
        f ("${" ++ varName ++ "}") varName ++ replacePlaceholders fuel f rest
    | None => String c (replacePlaceholders fuel f tl)
    end.
Proof. reflexivity. Qed.

(** Fuel beyond the length of the string changes nothing. *)
Lemma replacePlaceholders_fuel f :
  forall n s fuel1 fuel2,
    String.length s <= n -> String.length s <= fuel1 -> String.length s <= fuel2 ->
    replacePlaceholders fuel1 f s = replacePlaceholders fuel2 f s.
Proof.
  induction n as [|n IH]; intros s fuel1 fuel2 Hn H1 H2.
  - destruct s; [|simpl in Hn; lia].
    destruct fuel1, fuel2; reflexivity.
  - destruct s as [|c tl]; [destruct fuel1, fuel2; reflexivity|].
    destruct fuel1 as [|fuel1]; [simpl in H1; lia|].
    destruct fuel2 as [|fuel2]; [simpl in H2; lia|].
    cbn [replacePlaceholders].
    destruct (matchPlaceholder (String c tl)) as [[nm rest]|] eqn:E.
    + f_equal. apply matchPlaceholder_decompose in E.
      assert (Hlen : String.length rest < String.length (String c tl)).
      { rewrite E. rewrite !length_append. simpl. lia. }
      simpl in Hlen, Hn, H1, H2. apply IH; lia.
    + f_equal. simpl in Hn, H1, H2. apply IH; lia.
Qed.

Lemma interpolateString_fuel s vars fuel :
  String.length s <= fuel ->
  replacePlaceholders fuel (substitute rt vars) s = interpolateString rt s vars.
Proof.
  intros H. unfold interpolateString.
  apply replacePlaceholders_fuel with (n := String.length s); lia.
Qed.

(** Text without the opening ["${"] is copied, when what follows it
    cannot complete an opening either. *)
Lemma interpolateString_plain_prefix pre s vars :
  Str.includesOpener pre = false ->
  match s with String c _ => Ascii.eqb c "{"%char | EmptyString => false end = false ->
  interpolateString rt (pre ++ s) vars = pre ++ interpolateString rt s vars.
Proof.
  intros Hpre Hs. induction pre as [|c pre IH]; [reflexivity|].
  assert (Hhead : match (pre ++ s) with
                  | String c2 _ => Ascii.eqb c "$"%char && Ascii.eqb c2 "{"%char
                  | EmptyString => false
                  end = false).
  { destruct pre as [|c2 pre'].
    - simpl. destruct s as [|c2 s']; [reflexivity|]. simpl in Hs. rewrite Hs.
      apply andb_false_r.
    - simpl in Hpre. apply orb_false_iff in Hpre as [H _]. exact H. }
  assert (Hrest : Str.includesOpener pre = false).
  { destruct pre as [|c2 pre']; [reflexivity|].
    simpl in Hpre. apply orb_false_iff in Hpre as [_ H]. exact H. }
  unfold interpolateString at 1.
  change (String c pre ++ s) with (String c (pre ++ s)).
  cbn [String.length]. rewrite replacePlaceholders_step.
  rewrite (matchPlaceholder_needs_opener c (pre ++ s) Hhead).
  change (String c pre ++ interpolateString rt s vars)
    with (String c (pre ++ interpolateString rt s vars)).
  f_equal. rewrite interpolateString_fuel by lia. now apply IH.
Qed.

(** A placeholder at the head is replaced by what the callback gives;
    the scan goes on after the closing brace. *)
Lemma interpolateString_token nm post vars :
  nm <> "" ->
  Str.contains "}"%char nm = false ->
  interpolateString rt ("${" ++ nm ++ "}" ++ post) vars
  = substitute rt vars ("${" ++ nm ++ "}") nm ++ interpolateString rt post vars.
Proof.
  intros Hne Hno. unfold interpolateString at 1.
  change ("${" ++ nm ++ "}" ++ post)
    with (String "$" (String "{" (nm ++ String "}" post))).
  cbn [String.length]. rewrite replacePlaceholders_step.
  rewrite (matchPlaceholder_token nm post Hne Hno).
  f_equal. apply interpolateString_fuel.
  rewrite !length_append. simpl. lia.
Qed.

End Interpolation.

(** ** C7: required variables *)

Section Validation.
Import VariableSubstitutionEngine.
Variable cfg : VariableConfig.
Variable w : World.

Lemma JsMap_get_None_not_key {V : Type} (k : string) (m : list (string * V)) :
  JsMap.get k m = None -> ~ In k (JsMap.keys m).
Proof.
  induction m as [|[k' v] m IH]; simpl; [tauto|].
  destruct (String.eqb k k') eqn:E; [discriminate|].
  apply String.eqb_neq in E. intros H [Heq|Hin]; [congruence | now apply IH].
Qed.








Lemma validateVariables_sanitized vars :
  sanitized (validateVariables cfg w vars)
  = snd (fold_left (checkRequired vars) (schemas cfg)
           (fold_left (validateEntry cfg w) vars ([], []))).
Proof.
  unfold validateVariables.
  destruct (fold_left (checkRequired vars) (schemas cfg)
              (fold_left (validateEntry cfg w) vars ([], []))) as [errs san].
  reflexivity.
Qed.



End Validation.

Section Resolution.
Import VariableSubstitutionEngine.

(** Without a cache hit, [resolveVariables] returns what the resolution
    steps produce. *)
Lemma resolveVariables_miss cfg w u o c :
  (enableCaching cfg = true ->
   fst (getCachedContext (nowLookup w) (generateCacheKey w u o) c) = None) ->
  fst (resolveVariables cfg w u o c) = buildContext cfg w u o.
Proof.
  intros Hmiss. unfold resolveVariables.
  destruct (enableCaching cfg).
  - specialize (Hmiss eq_refl).
    destruct (getCachedContext (nowLookup w) (generateCacheKey w u o) c)
      as [cached c1]. simpl in Hmiss. subst cached.
    destruct (buildContext cfg w u o); reflexivity.
  - destruct (buildContext cfg w u o); reflexivity.
Qed.


End Resolution.




(** ** C10: a failed resolution and the context cache *)

Section FailedResolution.
Import VariableSubstitutionEngine.

Lemma getCachedContext_cases now key c :
  (getCachedContext now key c = (None, c) /\ JsMap.get key c = None) \/
  (exists e, JsMap.get key c = Some e /\ (now > ttl e)%Z /\
             getCachedContext now key c = (None, JsMap.delete key c)) \/
  (exists e, JsMap.get key c = Some e /\ (now <= ttl e)%Z /\
             getCachedContext now key c = (Some e, c)).
Proof.
  unfold getCachedContext. destruct (JsMap.get key c) as [e|] eqn:Hget.
  - right. destruct (Z.gtb_spec now (ttl e)).
    + left. exists e. repeat split; auto. lia.
    + right. exists e. repeat split; auto.
  - left. split; reflexivity.
Qed.

Lemma generateCacheKey_same_hash w1 w2 u o :
  sha256 w2 = sha256 w1 -> generateCacheKey w2 u o = generateCacheKey w1 u o.
Proof. intros H. unfold generateCacheKey. now rewrite H. Qed.

End FailedResolution.

(** C10, as stated, fails on "the cache is left unchanged": the lookup
    that precedes the resolution removes an expired entry stored under
    the key of the call, and the removal stays when the call then
    throws. Here a first call at instant [1000], which leaves the
    system layer out and binds the required [projectName], succeeds and
    caches its context with a TTL of [500]; a call at instant [2000]
    that does not bind [projectName] has the same cache key, finds the
    entry expired, removes it, and throws on the validation failure:
    the cache held one entry before the failed call and is empty after
    it. *)
Lemma C10_failed_call_drops_expired_entry :
  let cfg := sampleVariableConfig true 500 sampleSchemas in
  let first :=
    VariableSubstitutionEngine.resolveVariables cfg (sampleWorld 1000 1000)
      [("projectName", VStr "myApp")] (sampleOptions None) [] in
  let second :=
    VariableSubstitutionEngine.resolveVariables cfg (sampleWorld 2000 2000)
      [("author", VStr "Ann")] (sampleOptions None) (snd first) in
  isOk (fst first) = true /\
  List.length (snd first) = 1 /\
  VariableSubstitutionEngine.generateCacheKey (sampleWorld 2000 2000)
    [("author", VStr "Ann")] (sampleOptions None)
  = VariableSubstitutionEngine.generateCacheKey (sampleWorld 1000 1000)
      [("projectName", VStr "myApp")] (sampleOptions None) /\
  second
  = (Throw "Variable validation failed: Required variable 'projectName' is missing",
     []) /\
  snd second <> snd first.
Proof. cbv zeta. repeat split; try reflexivity. discriminate. Qed.

(** C10 (amended): a call of [resolveVariables] that throws inserts no
    entry in the context cache. Every entry of the cache after the call
    was there before it; the cache is the one before the call, except
    that an expired entry stored under the key of the call has been
    removed by the lookup; with caching enabled no entry is stored under
    that key after the call, so a repeated identical call runs the
    resolution steps again. An entry is inserted only by a call that
    returns a context, under the key of the call and holding that
    context. *)
Theorem C10_failed_resolution_inserts_nothing :
  forall (cfg : VariableSubstitutionEngine.VariableConfig)
         (w : VariableSubstitutionEngine.World)
         (userVariables : list (string * JsValue))
         (options : VariableSubstitutionEngine.VariableResolutionOptions)
         (c c' : list (string * VariableSubstitutionEngine.VariableCacheEntry)),
    let key := VariableSubstitutionEngine.generateCacheKey w userVariables options in
    (forall msg,
       VariableSubstitutionEngine.resolveVariables cfg w userVariables options c
         = (Throw msg, c') ->
       (forall k e, JsMap.get k c' = Some e -> JsMap.get k c = Some e) /\
       (c' = c \/
        exists e, JsMap.get key c = Some e /\
                  (VariableSubstitutionEngine.nowLookup w
                     > VariableSubstitutionEngine.ttl e)%Z /\
                  c' = JsMap.delete key c) /\
       (VariableSubstitutionEngine.enableCaching cfg = true ->
        JsMap.get key c' = None) /\
       (forall w2,
          VariableSubstitutionEngine.sha256 w2 = VariableSubstitutionEngine.sha256 w ->
          fst (VariableSubstitutionEngine.resolveVariables cfg w2 userVariables
                 options c')
          = VariableSubstitutionEngine.buildContext cfg w2 userVariables options)) /\
    (forall ctx k e,
       VariableSubstitutionEngine.resolveVariables cfg w userVariables options c
         = (Ok ctx, c') ->
       JsMap.get k c' = Some e -> JsMap.get k c <> Some e ->
       k = key /\ VariableSubstitutionEngine.context e = ctx /\
       VariableSubstitutionEngine.buildContext cfg w userVariables options = Ok ctx).
Proof.
  intros cfg w u o c c' key. split.
  - intros msg Hres.
    assert (Hshape :
      (c' = c /\ (VariableSubstitutionEngine.enableCaching cfg = true ->
                  JsMap.get key c = None)) \/
      (VariableSubstitutionEngine.enableCaching cfg = true /\
       exists e, JsMap.get key c = Some e /\
                 (VariableSubstitutionEngine.nowLookup w
                    > VariableSubstitutionEngine.ttl e)%Z /\
                 c' = JsMap.delete key c)).
    { unfold VariableSubstitutionEngine.resolveVariables in Hres. fold key in Hres.
      destruct (VariableSubstitutionEngine.enableCaching cfg).
      - destruct (getCachedContext_cases (VariableSubstitutionEngine.nowLookup w) key c)
          as [[E Hnone]|[(e & Hget & Hgt & E)|(e & Hget & Hle & E)]];
          rewrite E in Hres.
        + destruct (VariableSubstitutionEngine.buildContext cfg w u o);
            inversion Hres; subst. left. split; auto.
        + destruct (VariableSubstitutionEngine.buildContext cfg w u o);
            inversion Hres; subst. right. split; [reflexivity|]. exists e. auto.
        + discriminate.
      - destruct (VariableSubstitutionEngine.buildContext cfg w u o);
          inversion Hres; subst. left. split; [reflexivity | discriminate]. }
    assert (Hnone : VariableSubstitutionEngine.enableCaching cfg = true ->
                    JsMap.get key c' = None).
    { destruct Hshape as [[-> Hn]|[_ (e & _ & _ & ->)]]; [exact Hn|].
      intros _. apply JsMap_get_delete_eq. }
    split; [|split; [|split]].
    + destruct Hshape as [[-> _]|[_ (e & _ & _ & ->)]]; [auto|].
      intros k e' H. now apply JsMap_get_delete_Some in H.
    + destruct Hshape as [[-> _]|[_ H]]; [now left | now right].
    + exact Hnone.
    + intros w2 Hhash. apply resolveVariables_miss. intros Hen.
      rewrite (generateCacheKey_same_hash w w2 u o Hhash). fold key.
      specialize (Hnone Hen).
      unfold VariableSubstitutionEngine.getCachedContext. now rewrite Hnone.
  - intros ctx k e Hres Hafter Hbefore.
    unfold VariableSubstitutionEngine.resolveVariables in Hres. fold key in Hres.
    assert (Hinsert : forall c1,
              (forall k' e', JsMap.get k' c1 = Some e' -> JsMap.get k' c = Some e') ->
              forall now,
              JsMap.get k (VariableSubstitutionEngine.cacheContext cfg now key ctx c1)
                = Some e ->
              k = key /\ VariableSubstitutionEngine.context e = ctx).
    { intros c1 Hsub now Hk.
      destruct (string_dec key k) as [<-|Hne].
      - rewrite cacheContext_get in Hk. injection Hk as <-. split; reflexivity.
      - unfold VariableSubstitutionEngine.cacheContext in Hk.
        rewrite JsMap_get_set_ne in Hk by exact Hne.
        exfalso. apply Hbefore. now apply Hsub. }
    destruct (VariableSubstitutionEngine.enableCaching cfg).
    + destruct (getCachedContext_cases (VariableSubstitutionEngine.nowLookup w) key c)
        as [[E Hnone]|[(e0 & Hget & Hgt & E)|(e0 & Hget & Hle & E)]];
        rewrite E in Hres.
      * destruct (VariableSubstitutionEngine.buildContext cfg w u o) as [ctx'|];
          inversion Hres; subst.
        destruct (Hinsert c (fun _ _ H => H) _ Hafter) as [-> ->]. auto.
      * destruct (VariableSubstitutionEngine.buildContext cfg w u o) as [ctx'|];
          inversion Hres; subst.
        destruct (Hinsert (JsMap.delete key c)
                    (fun k' e' H => JsMap_get_delete_Some key k' c e' H) _ Hafter)
          as [-> ->]. auto.
      * inversion Hres; subst. contradiction.
    + destruct (VariableSubstitutionEngine.buildContext cfg w u o) as [ctx'|];
        inversion Hres; subst. contradiction.
Qed.

(** The amended C10 on the run above: after the failed call no entry
    is stored under its key, every entry left was there before, and the
    call, repeated at once, runs the resolution steps again. *)
Lemma C10_failed_resolution_inserts_nothing_witness :
  let cfg := sampleVariableConfig true 500 sampleSchemas in
  let w := sampleWorld 2000 2000 in
  let vars := [("author", VStr "Ann")] in
  let key := VariableSubstitutionEngine.generateCacheKey w vars (sampleOptions None) in
  let before :=
    snd (VariableSubstitutionEngine.resolveVariables cfg (sampleWorld 1000 1000)
           [("projectName", VStr "myApp")] (sampleOptions None) []) in
  let after :=
    snd (VariableSubstitutionEngine.resolveVariables cfg w vars (sampleOptions None)
           before) in
  (forall k e, JsMap.get k after = Some e -> JsMap.get k before = Some e) /\
  JsMap.get key after = None /\
  fst (VariableSubstitutionEngine.resolveVariables cfg w vars (sampleOptions None) after)
    = VariableSubstitutionEngine.buildContext cfg w vars (sampleOptions None).
Proof.
  intros cfg w vars key before after.
  destruct (C10_failed_resolution_inserts_nothing cfg w vars (sampleOptions None)
              before after) as [Hthrow _].
  destruct (Hthrow
              "Variable validation failed: Required variable 'projectName' is missing"
              eq_refl) as (Hsub & _ & Hnone & Hagain).
  split; [exact Hsub|]. split; [exact (Hnone eq_refl)|].
  exact (Hagain w eq_refl).
Defined.

(** ** C9: validation of the descriptor *)

Section DescriptorValidation.
Import TemplateRegistry TemplateEngine.
Variable describeDependency : TemplateDependency -> string.
Variable describeVariable : TemplateVariableSchema -> string.
Variable describeFile : TemplateFileConfig -> string.







End DescriptorValidation.




(** ** C6: isolation of a failing file in a batch *)

Section Batch.
Import StreamingFileProcessor.
Variable pl : PathLib.
Variable fs : FileSystem.
Variable cfg : TemplateParser.TemplateParserConfig.

Lemma processJobs_accumulate :
  forall jobs done st,
    fold_left (processJob pl fs cfg) jobs (done, st)
    = ((done ++ fst (fold_left (processJob pl fs cfg) jobs ([], st)))%list,
       snd (fold_left (processJob pl fs cfg) jobs ([], st))).
Proof.
  induction jobs as [|job jobs IH]; intros done st.
  - simpl. now rewrite app_nil_r.
  - cbn [fold_left]. unfold processJob at 2 4 6.
    destruct (jobOutcome pl fs cfg job st) as [r st1].
    rewrite (IH (done ++ [r])%list st1), (IH ([] ++ [r])%list st1).
    cbn [fst snd app]. now rewrite <- app_assoc.
Qed.

Lemma processJobsConcurrently_cons job jobs st :
  processJobsConcurrently pl fs cfg (job :: jobs) st
  = (fst (jobOutcome pl fs cfg job st)
       :: fst (processJobsConcurrently pl fs cfg jobs
                 (snd (jobOutcome pl fs cfg job st))),
     snd (processJobsConcurrently pl fs cfg jobs
            (snd (jobOutcome pl fs cfg job st)))).
Proof.
  unfold processJobsConcurrently. cbn [fold_left]. unfold processJob at 2.
  destruct (jobOutcome pl fs cfg job st) as [r st1].
  rewrite processJobs_accumulate. reflexivity.
Qed.

Lemma processJobsConcurrently_app a b st :
  processJobsConcurrently pl fs cfg (a ++ b) st
  = ((fst (processJobsConcurrently pl fs cfg a st)
        ++ fst (processJobsConcurrently pl fs cfg b
                  (snd (processJobsConcurrently pl fs cfg a st))))%list,
     snd (processJobsConcurrently pl fs cfg b
            (snd (processJobsConcurrently pl fs cfg a st)))).
Proof.
  revert st. induction a as [|job a IH]; intros st.
  - cbn. apply surjective_pairing.
  - cbn [app]. rewrite !processJobsConcurrently_cons, IH. reflexivity.
Qed.

Lemma processJobsConcurrently_length jobs :
  forall st,
    List.length (fst (processJobsConcurrently pl fs cfg jobs st)) = List.length jobs.
Proof.
  induction jobs as [|job jobs IH]; intros st; [reflexivity|].
  rewrite processJobsConcurrently_cons. cbn [fst List.length]. now rewrite IH.
Qed.

(** [processFile] never throws. *)
Lemma processFile_returns src dst vars options st :
  exists r, fst (processFile pl fs cfg src dst vars options st) = Ok r.
Proof.
  unfold processFile.
  destruct (processFileBody pl fs cfg src dst vars options st) as [[r|msg] st1];
    eexists; reflexivity.
Qed.

(** An exception of the body gives the ["error"] result with the
    message of the exception. *)
Lemma jobOutcome_throws job msg st :
  fst (processFileBody pl fs cfg (job_sourcePath job) (job_destinationPath job)
         (job_variables job) (job_options job) st) = Throw msg ->
  fst (jobOutcome pl fs cfg job st) = errorResult fs job msg.
Proof.
  intros H. unfold jobOutcome, processFile.
  destruct (processFileBody pl fs cfg (job_sourcePath job) (job_destinationPath job)
              (job_variables job) (job_options job) st) as [[r|m] st1];
    [discriminate|].
  cbn in H. injection H as ->. reflexivity.
Qed.

(** The job whose read throws gives the ["error"] result with the
    message of the exception and leaves the parser as it was. *)
Lemma jobOutcome_readThrows job msg st :
  readThrows pl fs job msg ->
  jobOutcome pl fs cfg job st = (errorResult fs job msg, st).
Proof.
  intros [Hmk Hread]. unfold jobOutcome, processFile, processFileBody.
  destruct (mkdirRecursive fs (dirname pl (job_destinationPath job)));
    [|discriminate].
  destruct Hread as [Hstat|(stats & Hstat & Hshould & Hbin & Htpl & Hcopy)].
  - rewrite Hstat. reflexivity.
  - rewrite Hstat, Hshould. cbn [negb]. rewrite Hbin, Htpl, Hcopy. reflexivity.
Qed.

Lemma parseTemplate_compiles resolve0 compile0 clk path options st :
  isOk (compile0 (resolve0 (TemplateParser.templateRoot cfg) path)) = true ->
  isOk (fst (TemplateParser.parseTemplate resolve0 cfg compile0 clk path options st))
  = true.
Proof.
  intros Hc. unfold TemplateParser.parseTemplate.
  destruct (if TemplateParser.skipCache options then (None, st)
            else TemplateParser.getCachedTemplate (TemplateParser.nowLookup clk)
                   (TemplateParser.generateCacheKey
                      (resolve0 (TemplateParser.templateRoot cfg) path)
                      (TemplateParser.optVariables options)) st) as [[e|] st1].
  - reflexivity.
  - destruct (compile0 (resolve0 (TemplateParser.templateRoot cfg) path));
      [reflexivity | discriminate].
Qed.

(** A job for which no call throws succeeds or is skipped. *)
Lemma jobOutcome_clean job st :
  cleanJob pl fs cfg job ->
  succeededOrSkipped (fst (jobOutcome pl fs cfg job st)).
Proof.
  intros (Hmk & Hstat & Hcopy & Hchmod & Hstream & Hcompile & Hrender & Hwrite).
  unfold jobOutcome, processFile, processFileBody.
  destruct (mkdirRecursive fs (dirname pl (job_destinationPath job)));
    [|discriminate].
  destruct (stat fs (job_sourcePath job)) as [stats|]; [|discriminate].
  destruct (shouldProcessFile (job_sourcePath job) stats (job_options job));
    cbn [negb]; [|right; reflexivity].
  assert (Hmode :
    exists u, (if preservePermissions (job_options job)
               then chmod fs (job_destinationPath job) (mode stats) else Ok tt)
              = Ok u).
  { destruct (preservePermissions (job_options job)); [|eexists; reflexivity].
    specialize (Hchmod (mode stats)).
    destruct (chmod fs (job_destinationPath job) (mode stats));
      [eexists; reflexivity | discriminate]. }
  destruct Hmode as [u Hmode].
  destruct (isBinaryFile fs (job_sourcePath job) && skipBinary (job_options job)).
  - destruct (copyFile fs (job_sourcePath job) (job_destinationPath job));
      [|discriminate].
    rewrite Hmode. left. reflexivity.
  - destruct (isTemplateFile pl (job_sourcePath job)
                (templateExtensions (job_options job))).
    + unfold processTemplateFile.
      pose proof (parseTemplate_compiles (resolve pl) (compile fs)
                    (parseClock fs (job_sourcePath job))
                    (basename pl (job_sourcePath job))
                    {| TemplateParser.skipCache := false;
                       TemplateParser.optVariables := Some (job_variables job) |}
                    st Hcompile) as Hparse.
      destruct (TemplateParser.parseTemplate (resolve pl) cfg (compile fs)
                  (parseClock fs (job_sourcePath job))
                  (basename pl (job_sourcePath job))
                  {| TemplateParser.skipCache := false;
                     TemplateParser.optVariables := Some (job_variables job) |} st)
        as [[compiled|] st1]; [|discriminate].
      unfold renderTemplate.
      specialize (Hrender (TemplateParser.template compiled) (job_variables job)).
      destruct (render fs (TemplateParser.template compiled) (job_variables job))
        as [text|]; [|discriminate].
      specialize (Hwrite text).
      destruct (writeFile fs (job_destinationPath job) text); [|discriminate].
      rewrite Hmode. left. reflexivity.
    + destruct (streamCopy fs (job_sourcePath job) (job_destinationPath job));
        [|discriminate].
      rewrite Hmode. left. reflexivity.
Qed.

Lemma processJobsConcurrently_clean jobs :
  (forall j, In j jobs -> cleanJob pl fs cfg j) ->
  forall st,
    Forall succeededOrSkipped (fst (processJobsConcurrently pl fs cfg jobs st)).
Proof.
  induction jobs as [|job jobs IH]; intros Hclean st.
  - constructor.
  - rewrite processJobsConcurrently_cons. cbn [fst]. constructor.
    + apply jobOutcome_clean. apply Hclean. now left.
    + apply IH. intros j Hj. apply Hclean. now right.
Qed.

Lemma countStatus_app s a b :
  countStatus s (a ++ b) = (countStatus s a + countStatus s b)%Z.
Proof.
  unfold countStatus. rewrite filter_app, length_app. lia.
Qed.

Lemma countStatus_insert s r a b :
  countStatus s (a ++ r :: b)
  = (countStatus s a + (if Status_eqb (status r) s then 1 else 0)
     + countStatus s b)%Z.
Proof.
  rewrite countStatus_app. unfold countStatus. cbn [filter].
  destruct (Status_eqb (status r) s); cbn [List.length]; lia.
Qed.

Lemma countStatus_clean rs :
  Forall succeededOrSkipped rs ->
  countStatus error rs = 0%Z /\
  (countStatus success rs + countStatus skipped rs)%Z = Z.of_nat (List.length rs).
Proof.
  unfold countStatus.
  induction 1 as [|r rs [Hr|Hr] _ [IH0 IH1]]; [split; reflexivity| |];
    cbn [filter List.length]; rewrite Hr; cbn [Status_eqb List.length]; split;
    try exact IH0; lia.
Qed.

End Batch.

(** C6: in a batch where the processing of exactly one job throws,
    with message [msg], and no call made for any other job throws,
    [processJobsConcurrently] gives one result per job, in the order of
    the jobs; the result of the failing job has status ["error"] and
    carries [msg]; every other result is ["success"] or ["skipped"]; the
    batch result counts [N] files, one error and [N - 1] successes or
    skips, and [processBatch] returns it, so that the exception does not
    leave the batch. When it is the read of the file that throws, the
    results of the other jobs and the state of the parser are those of
    the batch without the failing job. *)
Theorem C6_batch_failure_isolation :
  forall (pl : StreamingFileProcessor.PathLib)
         (fs : StreamingFileProcessor.FileSystem)
         (cfg : TemplateParser.TemplateParserConfig)
         (before after : list StreamingFileProcessor.ProcessingJob)
         (failing : StreamingFileProcessor.ProcessingJob)
         (msg : string) (st : TemplateParser.State),
    let jobs := (before ++ failing :: after)%list in
    let run := StreamingFileProcessor.processJobsConcurrently pl fs cfg jobs st in
    let runOthers :=
      StreamingFileProcessor.processJobsConcurrently pl fs cfg
        (before ++ after)%list st in
    let batch :=
      StreamingFileProcessor.createBatchResult (fst run)
        (StreamingFileProcessor.batchElapsed fs) in
    fst (StreamingFileProcessor.processFileBody pl fs cfg
           (StreamingFileProcessor.job_sourcePath failing)
           (StreamingFileProcessor.job_destinationPath failing)
           (StreamingFileProcessor.job_variables failing)
           (StreamingFileProcessor.job_options failing)
           (snd (StreamingFileProcessor.processJobsConcurrently pl fs cfg before st)))
      = Throw msg ->
    (forall j, In j (before ++ after)%list -> cleanJob pl fs cfg j) ->
    StreamingFileProcessor.totalFiles batch = Z.of_nat (List.length jobs) /\
    List.length (StreamingFileProcessor.results batch) = List.length jobs /\
    StreamingFileProcessor.errorCount batch = 1%Z /\
    (StreamingFileProcessor.successCount batch
     + StreamingFileProcessor.skippedCount batch)%Z
      = (Z.of_nat (List.length jobs) - 1)%Z /\
    nth_error (fst run) (List.length before) = Some (errorResult fs failing msg) /\
    (forall i r, i <> List.length before -> nth_error (fst run) i = Some r ->
                 succeededOrSkipped r) /\
    (forall sourceDir destinationDir vars options found,
       StreamingFileProcessor.discoverFiles fs sourceDir
         (StreamingFileProcessor.mergeOptions options) = Ok found ->
       StreamingFileProcessor.createProcessingJobs pl found sourceDir destinationDir
         vars (StreamingFileProcessor.mergeOptions options) = jobs ->
       StreamingFileProcessor.processBatch pl fs cfg sourceDir destinationDir vars
         options st = (Ok batch, snd run)) /\
    (readThrows pl fs failing msg ->
     fst run
       = (firstn (List.length before) (fst runOthers)
          ++ errorResult fs failing msg
          :: skipn (List.length before) (fst runOthers))%list /\
     snd run = snd runOthers).
Proof.
  intros pl fs cfg before after failing msg st jobs run runOthers batch
         Hthrows Hclean.
  set (rb := fst (StreamingFileProcessor.processJobsConcurrently pl fs cfg before st)).
  set (sb := snd (StreamingFileProcessor.processJobsConcurrently pl fs cfg before st))
    in *.
  set (sf := snd (StreamingFileProcessor.jobOutcome pl fs cfg failing sb)).
  set (ra := fst (StreamingFileProcessor.processJobsConcurrently pl fs cfg after sf)).
  assert (Hrun : run = ((rb ++ errorResult fs failing msg :: ra)%list,
                        snd (StreamingFileProcessor.processJobsConcurrently pl fs cfg
                               after sf))).
  { unfold run, jobs. rewrite processJobsConcurrently_app.
    rewrite processJobsConcurrently_cons. fold sb.
    rewrite (jobOutcome_throws pl fs cfg failing msg sb Hthrows). reflexivity. }
  assert (Hlenb : List.length rb = List.length before)
    by apply processJobsConcurrently_length.
  assert (Hlena : List.length ra = List.length after)
    by apply processJobsConcurrently_length.
  assert (Hgoodb : Forall succeededOrSkipped rb).
  { apply processJobsConcurrently_clean. intros j Hj. apply Hclean.
    apply in_or_app. now left. }
  assert (Hgooda : Forall succeededOrSkipped ra).
  { apply processJobsConcurrently_clean. intros j Hj. apply Hclean.
    apply in_or_app. now right. }
  destruct (countStatus_clean _ Hgoodb) as [Herrb Hsumb].
  destruct (countStatus_clean _ Hgooda) as [Herra Hsuma].
  assert (Hlen : List.length (fst run) = List.length jobs).
  { rewrite Hrun. unfold jobs. cbn [fst]. rewrite !length_app. cbn [List.length]. lia. }
  split; [|split; [|split; [|split; [|split; [|split; [|split]]]]]].
  - unfold batch. cbn. now rewrite Hlen.
  - exact Hlen.
  - unfold batch. cbn [StreamingFileProcessor.createBatchResult
                         StreamingFileProcessor.errorCount].
    rewrite Hrun. cbn [fst]. rewrite countStatus_insert. cbn. lia.
  - unfold batch. cbn [StreamingFileProcessor.createBatchResult
                         StreamingFileProcessor.successCount
                         StreamingFileProcessor.skippedCount].
    rewrite Hrun. cbn [fst]. rewrite !countStatus_insert.
    unfold jobs. rewrite length_app. cbn [List.length]. cbn. lia.
  - rewrite Hrun. cbn [fst]. rewrite nth_error_app2 by lia.
    rewrite Hlenb, Nat.sub_diag. reflexivity.
  - intros i r Hi Hnth. rewrite Hrun in Hnth. cbn [fst] in Hnth.
    rewrite Forall_forall in Hgoodb, Hgooda.
    destruct (Nat.lt_ge_cases i (List.length rb)) as [Hlt|Hge].
    + rewrite nth_error_app1 in Hnth by exact Hlt.
      apply Hgoodb. now apply nth_error_In in Hnth.
    + rewrite nth_error_app2 in Hnth by exact Hge.
      destruct (i - List.length rb) as [|k] eqn:Hk; [lia|].
      cbn in Hnth. apply Hgooda. now apply nth_error_In in Hnth.
  - intros sourceDir destinationDir vars options found Hfound Hjobs.
    unfold StreamingFileProcessor.processBatch. rewrite Hfound, Hjobs.
    fold run. destruct run as [rs st1] eqn:E. reflexivity.
  - intros Hread.
    assert (Hsf : sf = sb).
    { unfold sf. now rewrite (jobOutcome_readThrows pl fs cfg failing msg sb Hread). }
    assert (Hothers : runOthers = ((rb ++ ra)%list,
                        snd (StreamingFileProcessor.processJobsConcurrently pl fs cfg
                               after sf))).
    { unfold runOthers. rewrite processJobsConcurrently_app. fold sb rb.
      unfold ra. now rewrite Hsf. }
    rewrite Hrun, Hothers. cbn [fst snd]. split; [|reflexivity].
    rewrite <- Hlenb.
    rewrite firstn_app, firstn_all, Nat.sub_diag, skipn_app, skipn_all, Nat.sub_diag.
    cbn. now rewrite app_nil_r.
Qed.

(** C6 on the sample batch of three files: [/src/b.dat] has vanished
    when it is read, the two others are copied. *)
Lemma C6_batch_failure_isolation_witness :
  exists batch st',
    StreamingFileProcessor.processBatch samplePathLib sampleFileSystem
      (sampleParserConfig 10) "/src" "/out" [] sampleNoOptions
      TemplateParser.initialState = (Ok batch, st') /\
    StreamingFileProcessor.totalFiles batch = 3%Z /\
    StreamingFileProcessor.errorCount batch = 1%Z /\
    (StreamingFileProcessor.successCount batch
     + StreamingFileProcessor.skippedCount batch)%Z = 2%Z /\
    nth_error (StreamingFileProcessor.results batch) 1
      = Some (errorResult sampleFileSystem (sampleJob "1" "b.dat")
                "ENOENT: no such file or directory, stat '/src/b.dat'").
Proof.
  assert (Hclean :
    forall j, In j ([sampleJob "0" "a.dat"] ++ [sampleJob "2" "c.dat"])%list ->
              cleanJob samplePathLib sampleFileSystem (sampleParserConfig 10) j).
  { intros j [<-|[<-|[]]]; repeat split; intros; reflexivity. }
  destruct (C6_batch_failure_isolation samplePathLib sampleFileSystem
              (sampleParserConfig 10) [sampleJob "0" "a.dat"] [sampleJob "2" "c.dat"]
              (sampleJob "1" "b.dat")
              "ENOENT: no such file or directory, stat '/src/b.dat'"
              TemplateParser.initialState eq_refl Hclean)
    as (Htotal & _ & Herrors & Hsum & Hnth & _ & Hbatch & _).
  specialize (Hbatch "/src" "/out" [] sampleNoOptions _ eq_refl eq_refl).
  eexists. eexists. split; [exact Hbatch|].
  split; [exact Htotal|]. split; [exact Herrors|]. split; [exact Hsum|]. exact Hnth.
Defined.

(** ** The key of the context cache

    The replacer of [generateCacheKey] lists the names of the user
    variables and of the options; the object it serializes has the two
    members [userVariables] and [options]. Unless a variable bears one
    of these two names, both members are filtered out and the key is the
    hash of ["{}"], whatever the variables and the options are. *)

Section ContextCacheKey.
Import VariableSubstitutionEngine.






Lemma JsMap_get_map_None {A B : Type} (f : string * A -> string * B) P
    (props : list (string * A)) :
  (forall kv, fst (f kv) = fst kv) ->
  JsMap.get P props = None -> JsMap.get P (map f props) = None.
Proof.
  intros Hf. induction props as [|[k x] props IH]; [reflexivity|].
  cbn [map JsMap.get]. specialize (Hf (k, x)). destruct (f (k, x)) as [k' y].
  cbn in Hf. subst k'. destruct (String.eqb P k); [discriminate | exact IH].
Qed.

Lemma SerializeJSONValue_obj K props :
  Json.SerializeJSONValue K (VObj props)
  = Some ("{" ++ Json.join ","
            (flat_map
               (fun P =>
                  match JsMap.get P
                          (map (fun kv : string * JsValue =>
                                  let '(k, x) := kv in
                                  (k, Json.SerializeJSONValue K x)) props) with
                  | Some (Some s) => [Json.QuoteJSONString P ++ ":" ++ s]
                  | _ => []
                  end) K) ++ "}").
Proof. reflexivity. Qed.

(** An object none of whose member names is in the property list
    serializes to ["{}"]. *)
Lemma SerializeJSONValue_all_filtered K props :
  (forall P, In P K -> JsMap.get P props = None) ->
  Json.SerializeJSONValue K (VObj props) = Some "{}".
Proof.
  intros HK. cbn [Json.SerializeJSONValue].
  set (serialized :=
         map (fun kv : string * JsValue =>
                let '(k, x) := kv in (k, Json.SerializeJSONValue K x)) props).
  assert (Hnone : forall P, In P K -> JsMap.get P serialized = None).
  { intros P HP. apply JsMap_get_map_None; [|now apply HK].
    intros [k x]. reflexivity. }
  clearbody serialized. clear HK.
  assert (Hflat :
    flat_map (fun P => match JsMap.get P serialized with
                       | Some (Some s) => [Json.QuoteJSONString P ++ ":" ++ s]
                       | _ => []
                       end) K = []).
  { induction K as [|P K IH]; [reflexivity|]. cbn [flat_map].
    rewrite (Hnone P (or_introl eq_refl)).
    apply IH. intros Q HQ. apply Hnone. now right. }
  rewrite Hflat. reflexivity.
Qed.


End ContextCacheKey.

(** A context resolved for one set of variables is served, within the
    TTL, to a call with another set: here the second call binds no
    [projectName], a required variable without default, and receives the
    context of the first call. *)
Lemma context_cache_serves_other_variables :
  let cfg := sampleVariableConfig true 500 sampleSchemas in
  let first :=
    VariableSubstitutionEngine.resolveVariables cfg (sampleWorld 1000 1000)
      [("projectName", VStr "myApp")] (sampleOptions None) [] in
  let second :=
    VariableSubstitutionEngine.resolveVariables cfg (sampleWorld 1200 1200)
      [("author", VStr "Ann")] (sampleOptions None) (snd first) in
  isOk (fst first) = true /\ fst second = fst first.
Proof. split; reflexivity. Qed.

(** ** Eviction when some entry is older than the current instant *)

Section EvictionOfOldest.
Import TemplateParser.

Lemma evict_fold_spec c :
  forall k0 t0,
    (fold_left evictStep c (k0, t0) = (k0, t0) /\
     forall k e, In (k, e) c -> (t0 <= lastAccessed e)%Z) \/
    (exists e,
       In (fst (fold_left evictStep c (k0, t0)), e) c /\
       snd (fold_left evictStep c (k0, t0)) = lastAccessed e /\
       (lastAccessed e < t0)%Z /\
       forall k' e', In (k', e') c -> (lastAccessed e <= lastAccessed e')%Z).
Proof.
  induction c as [|[k e] c IH]; intros k0 t0.
  - left. split; [reflexivity | intros ? ? []].
  - cbn [fold_left]. unfold evictStep at 2 4 6. cbn [fst snd].
    destruct (Z.ltb_spec (lastAccessed e) t0) as [Hlt|Hge].
    + right. destruct (IH k (lastAccessed e)) as [[Heq Hall]|(e2 & Hin & Ht & Hlt2 & Hall)].
      * rewrite Heq. exists e. cbn [fst snd]. repeat split; auto.
        -- now left.
        -- intros k' e' [H|H]; [inversion H; subst; lia | eauto].
      * exists e2. repeat split; auto.
        -- now right.
        -- lia.
        -- intros k' e' [H|H]; [inversion H; subst; lia | eauto].
    + destruct (IH k0 t0) as [[Heq Hall]|(e2 & Hin & Ht & Hlt2 & Hall)].
      * left. split; [exact Heq|].
        intros k' e' [H|H]; [inversion H; subst; lia | eauto].
      * right. exists e2. repeat split; auto.
        -- now right.
        -- intros k' e' [H|H]; [inversion H; subst; lia | eauto].
Qed.

Lemma JsMap_delete_absent {V : Type} k (m : list (string * V)) :
  ~ In k (JsMap.keys m) -> JsMap.delete k m = m.
Proof.
  induction m as [|[k' v] m IH]; intros Hnot; [reflexivity|].
  cbn [JsMap.delete]. destruct (String.eqb k k') eqn:E.
  - apply String.eqb_eq in E; subst. exfalso. apply Hnot. now left.
  - rewrite IH; [reflexivity|]. intros H. apply Hnot. now right.
Qed.

Lemma JsMap_size_delete {V : Type} k (v : V) (m : list (string * V)) :
  JsMap.wf m -> In (k, v) m ->
  JsMap.size (JsMap.delete k m) = (JsMap.size m - 1)%Z.
Proof.
  unfold JsMap.wf, JsMap.size.
  induction m as [|[k' v'] m IH]; intros Hwf Hin; [destruct Hin|].
  cbn [JsMap.keys map fst] in Hwf. inversion Hwf as [|? ? Hnot Hwf']; subst.
  cbn [JsMap.delete]. destruct (String.eqb k k') eqn:E.
  - apply String.eqb_eq in E; subst k'.
    rewrite JsMap_delete_absent by exact Hnot. cbn [List.length]. lia.
  - destruct Hin as [Heq|Hin].
    + inversion Heq; subst. now rewrite String.eqb_refl in E.
    + cbn [List.length]. rewrite Nat2Z.inj_succ, (IH Hwf' Hin).
      destruct m; [destruct Hin|]. cbn [List.length]. lia.
Qed.

(** When an entry was accessed before the instant read by the
    eviction, an entry with the least [lastAccessed] is removed, and
    only that one. *)
Lemma evictLeastRecentlyUsed_removes_oldest now c :
  JsMap.wf c ->
  (forall k e, In (k, e) c -> k <> "") ->
  (exists k e, In (k, e) c /\ (lastAccessed e < now)%Z) ->
  exists k e,
    In (k, e) c /\
    (forall k' e', In (k', e') c -> (lastAccessed e <= lastAccessed e')%Z) /\
    evictLeastRecentlyUsed now c = JsMap.delete k c /\
    JsMap.size (evictLeastRecentlyUsed now c) = (JsMap.size c - 1)%Z.
Proof.
  intros Hwf Hkeys (k1 & e1 & Hin1 & Hold).
  unfold evictLeastRecentlyUsed.
  destruct (evict_fold_spec c "" now) as [[_ Hall]|(e & Hin & _ & _ & Hmin)].
  - specialize (Hall k1 e1 Hin1). lia.
  - set (k := fst (fold_left evictStep c ("", now))) in *.
    assert (Hne : String.eqb k "" = false).
    { apply String.eqb_neq. exact (Hkeys k e Hin). }
    rewrite Hne. exists k, e. repeat split; auto.
    now apply JsMap_size_delete with (v := e).
Qed.

End EvictionOfOldest.

(** ** The compile-cache key and nested members *)

Lemma compile_cache_key_drops_nested_members path k members :
  JsMap.get k members = None ->
  TemplateParser.generateCacheKey path (Some [(k, VObj members)])
  = path ++ ":" ++ "{" ++ (Json.QuoteJSONString k ++ ":" ++ "{}") ++ "}".
Proof.
  intros Hk. unfold TemplateParser.generateCacheKey, Json.stringify.
  cbn [JsMap.keys map fst Json.sortStrings fold_right Json.insertSorted].
  rewrite SerializeJSONValue_obj. cbn [map].
  rewrite (SerializeJSONValue_all_filtered [k] members)
    by (intros P [<-|[]]; exact Hk).
  cbn [flat_map JsMap.get]. rewrite String.eqb_refl. reflexivity.
Qed.

(** ** The layers are merged flat

    A dotted path is looked up in the merged map, where the entries of
    the four layers sit side by side: the variable [name] of the user
    layer is reached by [${name}], and [${user.name}] needs a variable
    [user] that holds an object. *)
Lemma interpolation_paths_start_in_the_merged_map (rt : JsVal.Runtime) :
  VariableSubstitutionEngine.interpolateVariables rt
    (VariableSubstitutionEngine.user sampleFlatContext) sampleFlatContext
  = [("name", VStr "Ann"); ("greeting", VStr "Hi ${user.name}");
     ("salute", VStr "Hi Ann")].
Proof. reflexivity. Qed.

(** * Further properties of the code *)

(** ** The compile cache: capacity, counters, failures *)

Section CompileCacheFurther.
Import TemplateParser.

Lemma JsMap_size_set_new {V : Type} k (v : V) (m : list (string * V)) :
  JsMap.get k m = None -> JsMap.size (JsMap.set k v m) = (JsMap.size m + 1)%Z.
Proof.
  unfold JsMap.size. induction m as [|[k' v'] m IH]; intros H.
  - reflexivity.
  - cbn [JsMap.get] in H. cbn [JsMap.set].
    destruct (String.eqb k k') eqn:E.
    + discriminate.
    + cbn [List.length]. rewrite !Nat2Z.inj_succ. rewrite (IH H). lia.
Qed.

Lemma JsMap_size_delete_le {V : Type} k (m : list (string * V)) :
  (JsMap.size (JsMap.delete k m) <= JsMap.size m)%Z.
Proof.
  unfold JsMap.size. induction m as [|[k' v'] m IH]; [reflexivity|].
  cbn [JsMap.delete]. destruct (String.eqb k k'); cbn [List.length]; lia.
Qed.

Lemma JsMap_In_set {V : Type} k0 (v0 : V) m k v :
  In (k, v) (JsMap.set k0 v0 m) -> (k = k0 /\ v = v0) \/ In (k, v) m.
Proof.
  induction m as [|[k' v'] m IH]; cbn [JsMap.set].
  - intros [H|[]]. inversion H; auto.
  - destruct (String.eqb k0 k') eqn:E.
    + apply String.eqb_eq in E; subst k'.
      intros [H|H]; [inversion H; auto | right; now right].
    + intros [H|H]; [right; now left|].
      destruct (IH H) as [?|?]; auto. right. now right.
Qed.

Lemma JsMap_In_delete {V : Type} k0 (m : list (string * V)) k v :
  In (k, v) (JsMap.delete k0 m) -> In (k, v) m.
Proof.
  induction m as [|[k' v'] m IH]; cbn [JsMap.delete]; [tauto|].
  destruct (String.eqb k0 k').
  - intros H. right. auto.
  - intros [H|H]; [now left | right; auto].
Qed.

Lemma JsMap_keys_set {V : Type} k (v : V) m :
  JsMap.keys (JsMap.set k v m)
  = if JsMap.has k m then JsMap.keys m else (JsMap.keys m ++ [k])%list.
Proof.
  unfold JsMap.has, JsMap.keys.
  induction m as [|[k' v'] m IH]; [reflexivity|].
  cbn [JsMap.set JsMap.get]. destruct (String.eqb k k') eqn:E.
  - reflexivity.
  - cbn [map fst]. rewrite IH. destruct (JsMap.get k m); reflexivity.
Qed.

Lemma JsMap_wf_set {V : Type} k (v : V) m :
  JsMap.wf m -> JsMap.wf (JsMap.set k v m).
Proof.
  unfold JsMap.wf. rewrite JsMap_keys_set. intros Hwf.
  destruct (JsMap.has k m) eqn:E; [exact Hwf|].
  apply JsMap_has_false_get, JsMap_get_None_not_key in E.
  apply NoDup_app; [exact Hwf | repeat constructor; intros [] | ].
  intros x Hx [<-|[]]. contradiction.
Qed.

Lemma JsMap_wf_delete {V : Type} k (m : list (string * V)) :
  JsMap.wf m -> JsMap.wf (JsMap.delete k m).
Proof.
  unfold JsMap.wf, JsMap.keys.
  induction m as [|[k' v'] m IH]; intros Hwf; [exact Hwf|].
  cbn [map fst] in Hwf. inversion Hwf as [|? ? Hnot Hwf']; subst.
  cbn [JsMap.delete]. destruct (String.eqb k k'); [auto|].
  cbn [map fst]. constructor; [|auto].
  intros Hin. apply Hnot. apply in_map_iff in Hin as ([k2 v2] & Hk & Hin).
  cbn in Hk; subst. apply JsMap_In_delete in Hin.
  apply in_map_iff. now exists (k', v2).
Qed.

Lemma generateCacheKey_not_empty p vars : generateCacheKey p vars <> "".
Proof.
  unfold generateCacheKey. destruct p; discriminate.
Qed.

(** X1: when the cache is full and holds an entry accessed before the
    instant read by the eviction, storing a result under a new key
    removes one entry with the least [lastAccessed], keeps every other
    entry and leaves the number of entries unchanged. *)
Theorem X1_full_cache_replaces_least_recently_used cfg nowE nowI key r c :
  JsMap.wf c ->
  (forall k e, In (k, e) c -> k <> "") ->
  JsMap.get key c = None ->
  (JsMap.size c >= cacheSize cfg)%Z ->
  (exists k e, In (k, e) c /\ (lastAccessed e < nowE)%Z) ->
  exists k e,
    In (k, e) c /\
    (forall k' e', In (k', e') c -> (lastAccessed e <= lastAccessed e')%Z) /\
    JsMap.get k (cacheTemplate cfg nowE nowI key r c) = None /\
    (forall k', k' <> k -> k' <> key ->
       JsMap.get k' (cacheTemplate cfg nowE nowI key r c) = JsMap.get k' c) /\
    JsMap.get key (cacheTemplate cfg nowE nowI key r c)
      = Some {| result := r; lastAccessed := nowI; accessCount := 1;
                ttl := (nowI + 5 * 60 * 1000)%Z |} /\
    JsMap.size (cacheTemplate cfg nowE nowI key r c) = JsMap.size c.
Proof.
  intros Hwf Hkeys Hnew Hfull Hold.
  destruct (evictLeastRecentlyUsed_removes_oldest nowE c Hwf Hkeys Hold)
    as (k & e & Hin & Hmin & Hev & Hsize).
  assert (Hne : key <> k).
  { intros <-. apply JsMap_get_None_not_key in Hnew. apply Hnew.
    unfold JsMap.keys. apply in_map_iff. now exists (key, e). }
  exists k, e. split; [exact Hin|]. split; [exact Hmin|].
  unfold cacheTemplate.
  replace (JsMap.size c >=? cacheSize cfg)%Z with true
    by (symmetry; apply Z.geb_le; lia).
  rewrite Hev. repeat split.
  - rewrite JsMap_get_set_ne by exact Hne. apply JsMap_get_delete_eq.
  - intros k' Hk Hk'. rewrite JsMap_get_set_ne by congruence.
    apply JsMap_get_delete_ne. congruence.
  - apply JsMap_get_set_eq.
  - rewrite JsMap_size_set_new.
    + rewrite <- Hev, Hsize. lia.
    + rewrite JsMap_get_delete_ne by congruence. exact Hnew.
Qed.

Lemma X1_full_cache_replaces_least_recently_used_witness :
  exists k e,
    In (k, e) [("/t/a.eta:", sampleEntry 1 "/t/a.eta:" 100 1);
               ("/t/b.eta:", sampleEntry 2 "/t/b.eta:" 50 1)] /\
    JsMap.get k
      (cacheTemplate (sampleParserConfig 2) 200 200 "/t/c.eta:"
         (sampleResult 3 "/t/c.eta:")
         [("/t/a.eta:", sampleEntry 1 "/t/a.eta:" 100 1);
          ("/t/b.eta:", sampleEntry 2 "/t/b.eta:" 50 1)]) = None /\
    JsMap.size
      (cacheTemplate (sampleParserConfig 2) 200 200 "/t/c.eta:"
         (sampleResult 3 "/t/c.eta:")
         [("/t/a.eta:", sampleEntry 1 "/t/a.eta:" 100 1);
          ("/t/b.eta:", sampleEntry 2 "/t/b.eta:" 50 1)]) = 2%Z.
Proof.
  destruct (X1_full_cache_replaces_least_recently_used
              (sampleParserConfig 2) 200 200 "/t/c.eta:"
              (sampleResult 3 "/t/c.eta:")
              [("/t/a.eta:", sampleEntry 1 "/t/a.eta:" 100 1);
               ("/t/b.eta:", sampleEntry 2 "/t/b.eta:" 50 1)])
    as (k & e & Hin & _ & Hgone & _ & _ & Hsize).
  - repeat constructor; cbn; intuition discriminate.
  - intros k e [H|[H|[]]]; inversion H; discriminate.
  - reflexivity.
  - cbn. lia.
  - exists "/t/a.eta:", (sampleEntry 1 "/t/a.eta:" 100 1).
    split; [now left | cbn; lia].
  - exists k, e. split; [exact Hin|]. split; [exact Hgone | exact Hsize].
Defined.

Lemma cacheInvariant_set k e c :
  cacheInvariant c -> entryInvariant k e -> cacheInvariant (JsMap.set k e c).
Proof.
  intros [Hwf Hall] He. split; [now apply JsMap_wf_set|].
  intros k' e' Hin. apply JsMap_In_set in Hin as [[-> ->]|Hin]; auto.
Qed.

Lemma cacheInvariant_delete k c :
  cacheInvariant c -> cacheInvariant (JsMap.delete k c).
Proof.
  intros [Hwf Hall]. split; [now apply JsMap_wf_delete|].
  intros k' e' Hin. apply JsMap_In_delete in Hin. auto.
Qed.

Lemma cacheInvariant_evict now c :
  cacheInvariant c -> cacheInvariant (evictLeastRecentlyUsed now c).
Proof.
  intros H. unfold evictLeastRecentlyUsed.
  destruct (String.eqb _ ""); [exact H | now apply cacheInvariant_delete].
Qed.

Section OneCall.
Variable resolve : string -> string -> string.
Variable cfg : TemplateParserConfig.

Lemma parseTemplate_keeps_invariant compile clk path options st :
  cacheInvariant (cache st) ->
  cacheInvariant
    (cache (snd (parseTemplate resolve cfg compile clk path options st))).
Proof.
  intros Hinv. unfold parseTemplate.
  set (key := generateCacheKey _ _).
  assert (Hlookup :
    forall o st1,
      (if skipCache options then (None, st)
       else getCachedTemplate (nowLookup clk) key st) = (o, st1) ->
      cacheInvariant (cache st1)).
  { intros o st1. destruct (skipCache options).
    - intros H; inversion H; subst; exact Hinv.
    - unfold getCachedTemplate.
      destruct (JsMap.get key (cache st)) as [e|] eqn:Hget.
      + destruct (Z.gtb_spec (nowLookup clk) (ttl e)) as [Hgt|Hle].
        * intros H; inversion H; subst. cbn [cache withCache].
          now apply cacheInvariant_delete.
        * intros H; inversion H; subst. cbn [cache withCache].
          apply cacheInvariant_set; [exact Hinv|].
          apply JsMap_get_In in Hget. destruct Hinv as [_ Hall].
          destruct (Hall _ _ Hget) as (H1 & H2 & H3 & H4).
          unfold entryInvariant. cbn. repeat split; auto; lia.
      + intros H; inversion H; subst; exact Hinv. }
  destruct (if skipCache options then (None, st)
            else getCachedTemplate (nowLookup clk) key st) as [[cached|] st1] eqn:E;
    specialize (Hlookup _ _ eq_refl).
  - exact Hlookup.
  - destruct (compile _) as [c|msg]; cbn [snd cache]; [|exact Hlookup].
    unfold cacheTemplate. apply cacheInvariant_set.
    + destruct (_ >=? _)%Z; [now apply cacheInvariant_evict | exact Hlookup].
    + unfold entryInvariant. cbn. repeat split; try lia.
      apply generateCacheKey_not_empty.
Qed.

Lemma parseTemplate_counters compile clk path options st :
  let m := performanceMetrics st in
  let m' := performanceMetrics
              (snd (parseTemplate resolve cfg compile clk path options st)) in
  (cacheHits m' + cacheMisses m' = cacheHits m + cacheMisses m + 1)%Z /\
  (cacheHits m <= cacheHits m')%Z /\
  (totalCompilations m' - totalCompilations m
   <= cacheMisses m' - cacheMisses m)%Z /\
  (totalCompilations m <= totalCompilations m')%Z.
Proof.
  unfold parseTemplate.
  set (key := generateCacheKey _ _).
  assert (Hlookup :
    forall o st1,
      (if skipCache options then (None, st)
       else getCachedTemplate (nowLookup clk) key st) = (o, st1) ->
      performanceMetrics st1 = performanceMetrics st).
  { intros o st1. destruct (skipCache options).
    - intros H; inversion H; reflexivity.
    - unfold getCachedTemplate.
      destruct (JsMap.get key (cache st)) as [e|];
        [destruct (_ >? _)%Z|]; intros H; inversion H; reflexivity. }
  destruct (if skipCache options then (None, st)
            else getCachedTemplate (nowLookup clk) key st) as [[cached|] st1] eqn:E;
    specialize (Hlookup _ _ eq_refl).
  - cbn. rewrite Hlookup. lia.
  - destruct (compile _) as [c|msg]; cbn; rewrite Hlookup; lia.
Qed.

(** X2: over any sequence of [parseTemplate] calls on a parser that
    started empty, every call is counted as exactly one hit or one
    miss, and the number of compilations never exceeds the number of
    misses. *)
Theorem X2_every_call_is_one_hit_or_one_miss calls :
  let m := performanceMetrics (parseCalls resolve cfg calls initialState) in
  (cacheHits m + cacheMisses m = Z.of_nat (List.length calls))%Z /\
  (0 <= cacheHits m)%Z /\
  (0 <= totalCompilations m <= cacheMisses m)%Z.
Proof.
  cbv zeta. unfold parseCalls.
  assert (H : forall st,
    let m0 := performanceMetrics st in
    let m := performanceMetrics
      (fold_left
         (fun st c =>
            snd (parseTemplate resolve cfg (call_compile c) (call_clock c)
                   (call_path c) (call_options c) st)) calls st) in
    (cacheHits m + cacheMisses m
     = cacheHits m0 + cacheMisses m0 + Z.of_nat (List.length calls))%Z /\
    (cacheHits m0 <= cacheHits m)%Z /\
    (totalCompilations m - totalCompilations m0
     <= cacheMisses m - cacheMisses m0)%Z /\
    (totalCompilations m0 <= totalCompilations m)%Z).
  { induction calls as [|c calls IH]; intros st; cbv zeta.
    - cbn [fold_left List.length]. lia.
    - cbn [fold_left List.length]. rewrite Nat2Z.inj_succ.
      pose proof (parseTemplate_counters (call_compile c) (call_clock c)
                    (call_path c) (call_options c) st) as H1.
      cbv zeta in H1.
      specialize (IH (snd (parseTemplate resolve cfg (call_compile c)
                             (call_clock c) (call_path c) (call_options c) st))).
      cbv zeta in IH. lia. }
  specialize (H initialState). cbv zeta in H. cbn in H. lia.
Qed.

(** X3: over any sequence of [parseTemplate] calls on a parser that
    started empty, the cache holds at most one entry per key, and every
    entry sits under the [cacheKey] of its own result, has been counted
    at least once and was never read after its expiry instant. *)
Theorem X3_cache_entries_stay_consistent calls k e :
  JsMap.get k (cache (parseCalls resolve cfg calls initialState)) = Some e ->
  JsMap.wf (cache (parseCalls resolve cfg calls initialState)) /\
  cacheKey (result e) = k /\ (1 <= accessCount e)%Z /\
  (lastAccessed e <= ttl e)%Z.
Proof.
  assert (H : forall st, cacheInvariant (cache st) ->
                         cacheInvariant (cache (parseCalls resolve cfg calls st))).
  { unfold parseCalls. induction calls as [|c calls IH]; intros st Hst.
    - exact Hst.
    - cbn [fold_left]. apply IH. now apply parseTemplate_keeps_invariant. }
  destruct (H initialState) as [Hwf Hall].
  { split; [constructor | intros ? ? []]. }
  intros Hget. split; [exact Hwf|].
  apply JsMap_get_In in Hget.
  destruct (Hall _ _ Hget) as (_ & H1 & H2 & H3). auto.
Qed.

(** X4: a call whose compilation fails throws the wrapped message,
    counts one miss and no compilation, stores nothing under the key
    and leaves every other entry as it was; with [skipCache] the cache
    is not touched at all. *)
Theorem X4_failed_compilation_is_not_cached compile clk path options st msg st' :
  parseTemplate resolve cfg compile clk path options st = (Throw msg, st') ->
  let key := generateCacheKey (resolve (templateRoot cfg) path)
               (optVariables options) in
  (exists m, compile (resolve (templateRoot cfg) path) = Throw m /\
             msg = "Template compilation failed for " ++ path ++ ": " ++ m) /\
  (if skipCache options then cache st' = cache st
   else JsMap.get key (cache st') = None \/ cache st' = cache st) /\
  (forall k e, JsMap.get k (cache st') = Some e -> JsMap.get k (cache st) = Some e) /\
  (forall k, k <> key -> JsMap.get k (cache st') = JsMap.get k (cache st)) /\
  cacheMisses (performanceMetrics st') = (cacheMisses (performanceMetrics st) + 1)%Z /\
  cacheHits (performanceMetrics st') = cacheHits (performanceMetrics st) /\
  totalCompilations (performanceMetrics st')
  = totalCompilations (performanceMetrics st).
Proof.
  unfold parseTemplate. cbv zeta.
  set (key := generateCacheKey _ _).
  destruct (skipCache options) eqn:Hskip.
  - destruct (compile _) as [c|m]; intros H; inversion H; subst; cbn.
    repeat split; eauto.
  - unfold getCachedTemplate.
    destruct (JsMap.get key (cache st)) as [e|] eqn:Hget.
    + destruct (Z.gtb_spec (nowLookup clk) (ttl e)) as [Hgt|Hle].
      * destruct (compile _) as [c|m]; intros H; inversion H; subst; cbn.
        repeat split; eauto.
        -- left. apply JsMap_get_delete_eq.
        -- intros k e0. apply JsMap_get_delete_Some.
        -- intros k Hk. apply JsMap_get_delete_ne. congruence.
      * intros H; inversion H.
    + destruct (compile _) as [c|m]; intros H; inversion H; subst; cbn.
      repeat split; eauto.
Qed.

(** X5: while the cache holds fewer entries than [cacheSize], a call
    changes no entry other than the one under its own key. *)
Theorem X5_below_capacity_other_entries_untouched compile clk path options st k :
  (JsMap.size (cache st) < cacheSize cfg)%Z ->
  k <> generateCacheKey (resolve (templateRoot cfg) path) (optVariables options) ->
  JsMap.get k (cache (snd (parseTemplate resolve cfg compile clk path options st)))
  = JsMap.get k (cache st).
Proof.
  intros Hsize Hk. unfold parseTemplate.
  set (key := generateCacheKey _ _) in *.
  assert (Hlookup :
    forall o st1,
      (if skipCache options then (None, st)
       else getCachedTemplate (nowLookup clk) key st) = (o, st1) ->
      JsMap.get k (cache st1) = JsMap.get k (cache st) /\
      (JsMap.size (cache st1) < cacheSize cfg)%Z).
  { intros o st1. destruct (skipCache options).
    - intros H; inversion H; subst; auto.
    - unfold getCachedTemplate.
      destruct (JsMap.get key (cache st)) as [e|] eqn:Hget.
      + destruct (_ >? _)%Z; intros H; inversion H; subst; cbn [cache withCache].
        * split; [apply JsMap_get_delete_ne; congruence|].
          pose proof (JsMap_size_delete_le key (cache st)). lia.
        * split; [apply JsMap_get_set_ne; congruence|].
          unfold JsMap.size in *.
          assert (Hlen : List.length (JsMap.keys (JsMap.set key
                     {| result := result e; lastAccessed := nowLookup clk;
                        accessCount := (accessCount e + 1)%Z; ttl := ttl e |}
                     (cache st))) = List.length (JsMap.keys (cache st))).
          { rewrite JsMap_keys_set. unfold JsMap.has. now rewrite Hget. }
          unfold JsMap.keys in Hlen. rewrite !length_map in Hlen.
          rewrite Hlen. exact Hsize.
      + intros H; inversion H; subst; auto. }
  destruct (if skipCache options then (None, st)
            else getCachedTemplate (nowLookup clk) key st) as [[cached|] st1] eqn:E;
    destruct (Hlookup _ _ eq_refl) as [Hget1 Hsize1].
  - exact Hget1.
  - destruct (compile _) as [c|msg]; cbn [snd cache]; [|exact Hget1].
    unfold cacheTemplate.
    replace (JsMap.size (cache st1) >=? cacheSize cfg)%Z with false
      by (symmetry; rewrite Z.geb_leb; apply Z.leb_gt; lia).
    rewrite JsMap_get_set_ne by congruence. exact Hget1.
Qed.

(** X6: with [skipCache] the outcome is that of the compilation, also
    when a fresh entry is cached; no hit is counted, and a successful
    compilation replaces the entry under the key by a new one that
    counts one access. *)
Theorem X6_skipCache_recompiles_and_stores compile clk path options st :
  skipCache options = true ->
  let key := generateCacheKey (resolve (templateRoot cfg) path)
               (optVariables options) in
  let out := parseTemplate resolve cfg compile clk path options st in
  cacheHits (performanceMetrics (snd out)) = cacheHits (performanceMetrics st) /\
  match compile (resolve (templateRoot cfg) path) with
  | Ok c =>
      exists r,
        fst out = Ok r /\ template r = c_template c /\ cacheKey r = key /\
        JsMap.get key (cache (snd out))
        = Some {| result := r; lastAccessed := nowInsert clk; accessCount := 1;
                  ttl := (nowInsert clk + 5 * 60 * 1000)%Z |}
  | Throw m =>
      fst out = Throw ("Template compilation failed for " ++ path ++ ": " ++ m) /\
      cache (snd out) = cache st
  end.
Proof.
  intros Hskip. cbv zeta. unfold parseTemplate. rewrite Hskip.
  destruct (compile _) as [c|m]; cbn [fst snd cache performanceMetrics].
  - split; [reflexivity|]. eexists. split; [reflexivity|].
    split; [reflexivity|]. split; [reflexivity|]. apply cacheTemplate_get.
  - split; [reflexivity|]. split; reflexivity.
Qed.

End OneCall.

Lemma X3_cache_entries_stay_consistent_witness :
  exists e,
    JsMap.get "/t/a.eta:"
      (cache (parseCalls sampleResolve (sampleParserConfig 10)
                sampleCalls
                initialState)) = Some e /\
    cacheKey (result e) = "/t/a.eta:" /\ (1 <= accessCount e)%Z /\
    (lastAccessed e <= ttl e)%Z.
Proof.
  eexists. split; [reflexivity|].
  exact (proj2 (X3_cache_entries_stay_consistent sampleResolve
                  (sampleParserConfig 10) sampleCalls "/t/a.eta:" _ eq_refl)).
Defined.

Lemma X5_below_capacity_other_entries_untouched_witness :
  JsMap.get "/t/b.eta:"
    (cache (snd (parseTemplate sampleResolve (sampleParserConfig 10)
                   (sampleCompile 7) (sampleClock 400000) "a.eta"
                   (sampleParseOptions None)
                   {| cache := [("/t/a.eta:", sampleEntry 1 "/t/a.eta:" 0 1);
                                ("/t/b.eta:", sampleEntry 2 "/t/b.eta:" 0 1)];
                      performanceMetrics := performanceMetrics initialState |})))
  = Some (sampleEntry 2 "/t/b.eta:" 0 1).
Proof.
  rewrite (X5_below_capacity_other_entries_untouched sampleResolve
             (sampleParserConfig 10)).
  - reflexivity.
  - cbn. lia.
  - discriminate.
Defined.

Lemma X6_skipCache_recompiles_and_stores_witness :
  exists r,
    fst (parseTemplate sampleResolve (sampleParserConfig 10)
           (sampleCompile 7) (sampleClock 10) "a.eta"
           {| skipCache := true; optVariables := None |}
           {| cache := [("/t/a.eta:", sampleEntry 1 "/t/a.eta:" 0 1)];
              performanceMetrics := performanceMetrics initialState |})
    = Ok r /\ template r = 7.
Proof.
  pose proof (X6_skipCache_recompiles_and_stores sampleResolve
                (sampleParserConfig 10) (sampleCompile 7) (sampleClock 10) "a.eta"
                {| skipCache := true; optVariables := None |}
                {| cache := [("/t/a.eta:", sampleEntry 1 "/t/a.eta:" 0 1)];
                   performanceMetrics := performanceMetrics initialState |}
                eq_refl) as [_ H].
  unfold sampleCompile at 1 in H.
  destruct H as (r & Hr & Ht & _).
  exists r. split; [exact Hr | exact Ht].
Defined.

Lemma X4_failed_compilation_is_not_cached_witness :
  JsMap.get "/t/a.eta:"
    (cache (snd (parseTemplate sampleResolve (sampleParserConfig 10)
                   sampleCompileFails (sampleClock 400000) "a.eta"
                   (sampleParseOptions None)
                   {| cache := [("/t/a.eta:", sampleEntry 1 "/t/a.eta:" 0 1)];
                      performanceMetrics := performanceMetrics initialState |})))
  = None.
Proof.
  destruct (X4_failed_compilation_is_not_cached sampleResolve
              (sampleParserConfig 10) sampleCompileFails (sampleClock 400000)
              "a.eta" (sampleParseOptions None)
              {| cache := [("/t/a.eta:", sampleEntry 1 "/t/a.eta:" 0 1)];
                 performanceMetrics := performanceMetrics initialState |}
              _ _ eq_refl) as (_ & Hcache & _).
  cbn [skipCache sampleParseOptions] in Hcache.
  destruct Hcache as [H|H]; [exact H | discriminate H].
Defined.

End CompileCacheFurther.

(** ** The catalog: duplicates, the metadata cache, version queries *)

Section Catalog.
Import TemplateRegistry.

Lemma deduplicate_fold l :
  forall m,
    JsMap.wf m ->
    (forall k t, In (k, t) m -> templateKey t = k) ->
    JsMap.wf (fold_left deduplicateStep l m) /\
    (forall k t, In (k, t) (fold_left deduplicateStep l m) -> templateKey t = k) /\
    (forall k t, In (k, t) (fold_left deduplicateStep l m) ->
                 In (k, t) m \/ In t l) /\
    (forall k,
       JsMap.get k (fold_left deduplicateStep l m)
       = match JsMap.get k m with
         | Some t => Some t
         | None => find (fun t => String.eqb (templateKey t) k) l
         end).
Proof.
  induction l as [|t l IH]; intros m Hwf Hkeys; cbn [fold_left].
  - repeat split; auto. intros k. cbn [find]. now destruct (JsMap.get k m).
  - assert (Hwf1 : JsMap.wf (deduplicateStep m t)).
    { unfold deduplicateStep. destruct (JsMap.has _ m); [exact Hwf|].
      now apply JsMap_wf_set. }
    assert (Hkeys1 : forall k u, In (k, u) (deduplicateStep m t) -> templateKey u = k).
    { unfold deduplicateStep. destruct (JsMap.has _ m); [exact Hkeys|].
      intros k u Hin. apply JsMap_In_set in Hin as [[-> ->]|Hin]; eauto. }
    destruct (IH _ Hwf1 Hkeys1) as (H1 & H2 & H3 & H4).
    split; [exact H1|]. split; [exact H2|]. split.
    + intros k u Hin. destruct (H3 _ _ Hin) as [Hm|Hl]; [|right; now right].
      unfold deduplicateStep in Hm. destruct (JsMap.has _ m); [now left|].
      apply JsMap_In_set in Hm as [[-> ->]|Hm]; [right; now left | now left].
    + intros k. rewrite H4. unfold deduplicateStep. cbn [find].
      destruct (JsMap.has (templateKey t) m) eqn:Hhas.
      * destruct (JsMap.get k m) eqn:Hget; [reflexivity|].
        destruct (String.eqb_spec (templateKey t) k) as [Heq|Hne]; [|reflexivity].
        unfold JsMap.has in Hhas. rewrite Heq, Hget in Hhas. discriminate.
      * apply JsMap_has_false_get in Hhas.
        destruct (String.eqb_spec (templateKey t) k) as [<-|Hne].
        -- now rewrite JsMap_get_set_eq, Hhas.
        -- now rewrite JsMap_get_set_ne by exact Hne.
Qed.

Lemma JsMap_get_find_by_key (m : list (string * TemplateMetadata)) k :
  (forall k t, In (k, t) m -> templateKey t = k) ->
  find (fun t => String.eqb (templateKey t) k) (map snd m) = JsMap.get k m.
Proof.
  induction m as [|[k' t] m IH]; intros Hkeys; [reflexivity|].
  cbn [map snd find JsMap.get].
  rewrite (Hkeys k' t) by now left.
  rewrite (String.eqb_sym k k').
  destruct (String.eqb k' k); [reflexivity|].
  apply IH. intros k2 t2 Hin. apply Hkeys. now right.
Qed.

Lemma JsMap_set_new_app {V : Type} k (v : V) m :
  JsMap.get k m = None -> JsMap.set k v m = (m ++ [(k, v)])%list.
Proof.
  induction m as [|[k' v'] m IH]; intros H; [reflexivity|].
  cbn [JsMap.get] in H. cbn [JsMap.set app].
  destruct (String.eqb k k'); [discriminate|]. now rewrite IH.
Qed.

Lemma deduplicate_fold_distinct l :
  forall m,
    NoDup (JsMap.keys m ++ map templateKey l) ->
    fold_left deduplicateStep l m
    = (m ++ map (fun t => (templateKey t, t)) l)%list.
Proof.
  induction l as [|t l IH]; intros m Hnd; cbn [fold_left map].
  - now rewrite app_nil_r.
  - assert (Hnew : JsMap.get (templateKey t) m = None).
    { destruct (JsMap.get (templateKey t) m) as [u|] eqn:Hget; [|reflexivity].
      exfalso. apply JsMap_get_In in Hget.
      cbn [map] in Hnd. apply NoDup_remove_2 in Hnd. apply Hnd.
      apply in_or_app. left. unfold JsMap.keys. apply in_map_iff.
      now exists (templateKey t, u). }
    unfold deduplicateStep at 2. unfold JsMap.has. rewrite Hnew.
    rewrite JsMap_set_new_app by exact Hnew.
    rewrite IH.
    + now rewrite <- app_assoc.
    + unfold JsMap.keys. rewrite map_app. cbn [map fst].
      rewrite <- app_assoc. exact Hnd.
Qed.

(** X7: [deduplicateTemplates] keeps, for every [name@version] key of
    its input, the first descriptor with that key and no other; the
    keys of the result are pairwise distinct, and a list without
    duplicate keys is returned unchanged, so that the function is
    idempotent. *)
Theorem X7_deduplicate_keeps_first_of_each_key l :
  NoDup (map templateKey (deduplicateTemplates l)) /\
  (forall k,
     find (fun t => String.eqb (templateKey t) k) (deduplicateTemplates l)
     = find (fun t => String.eqb (templateKey t) k) l) /\
  (forall t, In t (deduplicateTemplates l) -> In t l) /\
  deduplicateTemplates (deduplicateTemplates l) = deduplicateTemplates l.
Proof.
  unfold deduplicateTemplates at 1 2 3.
  destruct (deduplicate_fold l []) as (Hwf & Hkeys & Hin & Hget).
  { constructor. }
  { intros ? ? []. }
  assert (Hnd : NoDup (map templateKey (map snd (fold_left deduplicateStep l [])))).
  { replace (map templateKey (map snd (fold_left deduplicateStep l [])))
      with (JsMap.keys (fold_left deduplicateStep l [])); [exact Hwf|].
    unfold JsMap.keys. rewrite map_map. apply map_ext_in.
    intros [k t] H. cbn. symmetry. now apply Hkeys. }
  split; [exact Hnd|]. split; [|split].
  - intros k. rewrite JsMap_get_find_by_key by exact Hkeys.
    rewrite Hget. reflexivity.
  - intros t Ht. apply in_map_iff in Ht as ([k u] & <- & Hu).
    destruct (Hin _ _ Hu) as [[]|H]. exact H.
  - unfold deduplicateTemplates at 1.
    rewrite deduplicate_fold_distinct.
    + cbn [app]. rewrite map_map. cbn [snd]. apply map_id.
    + cbn [JsMap.keys map app]. exact Hnd.
Qed.

(** X8: a descriptor stored in the metadata cache at the instant [T]
    is served, without reading the file, at every instant before
    [T + cacheTtl]; from [T + cacheTtl] on the file is read again, and
    a file that can no longer be read or validated gives [null] while
    the stored entry stays. *)
Theorem X8_metadata_cache_expires_at_ttl
    cacheTtl read1 read2 now1 T now2 store2 path m c :
  read1 path = ValidMetadata m ->
  let c1 := snd (loadTemplateMetadata cacheTtl read1 now1 T path true c) in
  JsMap.get path c1 = Some {| cached_metadata := m; cachedAt := T |} /\
  ((now2 < T + cacheTtl)%Z ->
   loadTemplateMetadata cacheTtl read2 now2 store2 path false c1 = (Some m, c1)) /\
  ((T + cacheTtl <= now2)%Z ->
   loadTemplateMetadata cacheTtl read2 now2 store2 path false c1
   = match read2 path with
     | ValidMetadata m2 =>
         (Some m2,
          JsMap.set path {| cached_metadata := m2; cachedAt := store2 |} c1)
     | _ => (None, c1)
     end).
Proof.
  intros Hread. cbv zeta.
  assert (Hc1 : snd (loadTemplateMetadata cacheTtl read1 now1 T path true c)
                = JsMap.set path {| cached_metadata := m; cachedAt := T |} c).
  { unfold loadTemplateMetadata. now rewrite Hread. }
  rewrite Hc1. clear Hc1.
  set (c1 := JsMap.set path {| cached_metadata := m; cachedAt := T |} c).
  assert (Hget : JsMap.get path c1
                 = Some {| cached_metadata := m; cachedAt := T |})
    by apply JsMap_get_set_eq.
  split; [exact Hget|].
  split; intros Hnow; unfold loadTemplateMetadata;
    rewrite Hget; cbn [cachedAt cached_metadata].
  - replace (now2 - T <? cacheTtl)%Z with true
      by (symmetry; apply Z.ltb_lt; lia).
    reflexivity.
  - replace (now2 - T <? cacheTtl)%Z with false
      by (symmetry; apply Z.ltb_ge; lia).
    destruct (read2 path); reflexivity.
Qed.

End Catalog.

Lemma X8_metadata_cache_expires_at_ttl_witness :
  TemplateRegistry.loadTemplateMetadata 300000
    (fun _ => TemplateRegistry.UnreadableMetadata "ENOENT") 300999 300999
    "/templates/app/template.json" false
    (snd (TemplateRegistry.loadTemplateMetadata 300000
            (fun _ => TemplateRegistry.ValidMetadata (sampleDescriptor "app" "1.0.0"))
            1000 1000 "/templates/app/template.json" true []))
  = (Some (sampleDescriptor "app" "1.0.0"),
     [("/templates/app/template.json",
       {| TemplateRegistry.cached_metadata := sampleDescriptor "app" "1.0.0";
          TemplateRegistry.cachedAt := 1000 |})]).
Proof.
  destruct (X8_metadata_cache_expires_at_ttl 300000
              (fun _ => TemplateRegistry.ValidMetadata (sampleDescriptor "app" "1.0.0"))
              (fun _ => TemplateRegistry.UnreadableMetadata "ENOENT")
              1000 1000 300999 300999 "/templates/app/template.json"
              (sampleDescriptor "app" "1.0.0") [] eq_refl) as (_ & Hfresh & _).
  rewrite Hfresh by lia. reflexivity.
Defined.

Section VersionQueries.
Import TemplateRegistry.

Lemma getTemplate_unknown_name d nm v :
  (forall ts t, d = Ok ts -> In t ts -> name t <> Some nm) ->
  getTemplate d nm v = None.
Proof.
  intros H. unfold getTemplate. destruct d as [ts|msg]; [|reflexivity].
  assert (Hf : filter (fun t => strictEq (name t) nm) ts = []).
  { assert (H' : forall t, In t ts -> name t <> Some nm)
      by (intros t; exact (H ts t eq_refl)).
    clear H. induction ts as [|t ts IH]; [reflexivity|].
    cbn [filter]. destruct (strictEq (name t) nm) eqn:E.
    - exfalso. apply (H' t); [now left|].
      unfold strictEq in E. destruct (name t) as [n|]; [|discriminate].
      apply String.eqb_eq in E. now subst.
    - apply IH. intros u Hu. apply H'. now right. }
  now rewrite Hf.
Qed.

Lemma strictEq_true field s : strictEq field s = true <-> field = Some s.
Proof.
  unfold strictEq. destruct field as [f|].
  - rewrite String.eqb_eq. split; [now intros -> | now intros [= ->]].
  - split; discriminate.
Qed.

Lemma insertBy_In {A : Type} (cmp : A -> A -> Result Z) x :
  forall l l', insertBy cmp x l = Ok l' ->
               forall u, In u l' <-> u = x \/ In u l.
Proof.
  induction l as [|y t IH]; intros l' H u; cbn [insertBy] in H.
  - inversion H; subst. cbn. intuition.
  - destruct (cmp x y) as [c|m]; [|discriminate]. cbn [bindR] in H.
    destruct (c <? 0)%Z.
    + inversion H; subst. cbn. intuition.
    + destruct (insertBy cmp x t) as [t'|m] eqn:E; [|discriminate].
      cbn [bindR] in H. inversion H; subst.
      specialize (IH t' eq_refl u). cbn [In]. rewrite IH. intuition.
Qed.

Lemma sortBy_In {A : Type} (cmp : A -> A -> Result Z) :
  forall l acc l',
    fold_left (fun acc x => bindR acc (insertBy cmp x)) l (Ok acc) = Ok l' ->
    forall u, In u l' <-> In u acc \/ In u l.
Proof.
  induction l as [|x l IH]; intros acc l' H u; cbn [fold_left] in H.
  - inversion H; subst. cbn. intuition.
  - cbn [bindR] in H. destruct (insertBy cmp x acc) as [acc'|m] eqn:E.
    + rewrite (IH _ _ H u). rewrite (insertBy_In cmp x acc acc' E u).
      cbn [In]. intuition.
    + exfalso. clear -H. induction l as [|y l IHl]; [discriminate|].
      cbn [fold_left bindR] in H. auto.
Qed.

Lemma getTemplate_sound d nm v t :
  getTemplate d nm v = Some t ->
  exists ts,
    d = Ok ts /\ In t ts /\ name t = Some nm /\
    match v with
    | Some s =>
        s = "" \/ version t = Some s \/ Semver.satisfies (version t) s = true
    | None => True
    end.
Proof.
  unfold getTemplate. destruct d as [ts|msg]; [|discriminate].
  set (matching := filter (fun t => strictEq (name t) nm) ts).
  assert (Hm : forall u, In u matching -> In u ts /\ name u = Some nm).
  { intros u Hu. apply filter_In in Hu as [H1 H2].
    now apply strictEq_true in H2. }
  destruct matching as [|m0 rest] eqn:Hmatching; [discriminate|].
  rewrite <- Hmatching in *. intros H. exists ts. split; [reflexivity|].
  destruct (Str.truthy v) eqn:Htruthy.
  - destruct v as [s|]; [|discriminate].
    destruct (find (fun t => strictEq (version t) s) matching) as [e|] eqn:Hexact.
    + inversion H; subst e. apply find_some in Hexact as [Hin Hv].
      destruct (Hm _ Hin). apply strictEq_true in Hv. auto.
    + apply find_some in H as [Hin Hv]. destruct (Hm _ Hin). auto.
  - assert (Hv : match v with Some s => s = "" | None => True end).
    { destruct v as [s|]; [|exact I]. destruct s; [reflexivity|discriminate]. }
    destruct (sortBy _ matching) as [sorted|msg] eqn:Hsort; [|discriminate].
    destruct sorted as [|h sorted]; [discriminate|]. cbn in H. inversion H; subst h.
    unfold sortBy in Hsort.
    assert (Hin : In t matching).
    { pose proof (sortBy_In _ _ _ _ Hsort t) as Hiff. cbn [In] in Hiff.
      destruct (proj1 Hiff (or_introl eq_refl)) as [[]|Hin]. exact Hin. }
    destruct (Hm _ Hin). repeat split; auto.
    destruct v as [s|]; auto.
Qed.

Lemma find_exists {A : Type} (p : A -> bool) l x :
  In x l -> p x = true -> exists y, find p l = Some y.
Proof.
  induction l as [|h l IH]; intros [] Hp.
  - subst. cbn. rewrite Hp. eauto.
  - cbn. destruct (p h); eauto.
Qed.

(** X11: when a discovered descriptor bears the requested name and
    exactly the requested version string, [getTemplate] returns a
    descriptor with that name and that version string: the exact
    comparison is tried before the string is read as a range. *)
Theorem X11_exact_version_string_wins ts nm v t0 :
  In t0 ts -> name t0 = Some nm -> version t0 = Some v -> v <> "" ->
  exists t,
    getTemplate (Ok ts) nm (Some v) = Some t /\
    In t ts /\ name t = Some nm /\ version t = Some v.
Proof.
  intros Hin Hname Hversion Hv. unfold getTemplate.
  set (matching := filter (fun t => strictEq (name t) nm) ts).
  assert (H0 : In t0 matching).
  { apply filter_In. split; [exact Hin | now apply strictEq_true]. }
  destruct matching as [|m0 rest] eqn:Hmatching; [destruct H0|].
  rewrite <- Hmatching in *.
  assert (Htruthy : Str.truthy (Some v) = true) by (destruct v; [congruence|reflexivity]).
  rewrite Htruthy.
  destruct (find_exists (fun t => strictEq (version t) v) matching t0 H0)
    as [t Ht]; [now apply strictEq_true|].
  rewrite Ht. exists t. split; [reflexivity|].
  apply find_some in Ht as [Ht1 Ht2]. apply strictEq_true in Ht2.
  apply filter_In in Ht1 as [Ht1 Ht3]. apply strictEq_true in Ht3. auto.
Qed.

(** X9: a descriptor returned by [getTemplate] is one of the
    discovered descriptors and bears the requested name; when a
    version is asked for, its version is that string or satisfies it
    as a range. For a name that no discovered descriptor bears, and
    when the discovery fails, the answer is [null]. *)
Theorem X9_only_discovered_descriptors_of_the_name d nm v :
  (forall t,
     getTemplate d nm v = Some t ->
     exists ts,
       d = Ok ts /\ In t ts /\ name t = Some nm /\
       match v with
       | Some s =>
           s = "" \/ version t = Some s \/ Semver.satisfies (version t) s = true
       | None => True
       end) /\
  ((forall ts t, d = Ok ts -> In t ts -> name t <> Some nm) ->
   getTemplate d nm v = None).
Proof.
  split; [apply getTemplate_sound | apply getTemplate_unknown_name].
Qed.

End VersionQueries.

Lemma X11_exact_version_string_wins_witness :
  exists t,
    TemplateRegistry.getTemplate
      (Ok [sampleDescriptor "app" "1.0.0"; sampleDescriptor "app" "1.2.0"])
      "app" (Some "1.2.0") = Some t /\
    TemplateRegistry.version t = Some "1.2.0".
Proof.
  destruct (X11_exact_version_string_wins
              [sampleDescriptor "app" "1.0.0"; sampleDescriptor "app" "1.2.0"]
              "app" "1.2.0" (sampleDescriptor "app" "1.2.0"))
    as (t & Ht & _ & _ & Hv).
  - right. now left.
  - reflexivity.
  - reflexivity.
  - discriminate.
  - exists t. split; [exact Ht | exact Hv].
Defined.

Section LatestVersion.
Import TemplateRegistry.

Lemma compareV_Lt a1 a2 a3 b1 b2 b3 :
  Semver.compareV (a1, a2, a3) (b1, b2, b3) = Lt <->
  (a1 < b1 \/ (a1 = b1 /\ (a2 < b2 \/ (a2 = b2 /\ a3 < b3))))%N.
Proof.
  unfold Semver.compareV.
  destruct (N.compare_spec a1 b1); destruct (N.compare_spec a2 b2);
    destruct (N.compare_spec a3 b3);
    split; intros Hc; try discriminate; try reflexivity; try lia.
Qed.

Lemma compareV_Gt a1 a2 a3 b1 b2 b3 :
  Semver.compareV (a1, a2, a3) (b1, b2, b3) = Gt <->
  (b1 < a1 \/ (a1 = b1 /\ (b2 < a2 \/ (a2 = b2 /\ b3 < a3))))%N.
Proof.
  unfold Semver.compareV.
  destruct (N.compare_spec a1 b1); destruct (N.compare_spec a2 b2);
    destruct (N.compare_spec a3 b3);
    split; intros Hc; try discriminate; try reflexivity; try lia.
Qed.

Lemma leV_iff a1 a2 a3 b1 b2 b3 :
  Semver.leV (a1, a2, a3) (b1, b2, b3) = true <->
  ~ (b1 < a1 \/ (a1 = b1 /\ (b2 < a2 \/ (a2 = b2 /\ b3 < a3))))%N.
Proof.
  unfold Semver.leV. rewrite <- compareV_Gt.
  destruct (Semver.compareV _ _); split; intros H; try reflexivity;
    try discriminate; try (intros H'; discriminate H').
  exfalso. now apply H.
Qed.

Lemma leV_refl a : Semver.leV a a = true.
Proof. destruct a as [[a1 a2] a3]. apply leV_iff. lia. Qed.

Lemma leV_trans a b c :
  Semver.leV a b = true -> Semver.leV b c = true -> Semver.leV a c = true.
Proof.
  destruct a as [[a1 a2] a3], b as [[b1 b2] b3], c as [[c1 c2] c3].
  rewrite !leV_iff. lia.
Qed.

Lemma compareV_Lt_leV a b : Semver.compareV a b = Lt -> Semver.leV a b = true.
Proof. unfold Semver.leV. now intros ->. Qed.

Lemma compareV_not_Lt_leV a b : Semver.compareV a b <> Lt -> Semver.leV b a = true.
Proof.
  destruct a as [[a1 a2] a3], b as [[b1 b2] b3].
  rewrite compareV_Lt, leV_iff. lia.
Qed.

Lemma compareVersions_good a b va vb :
  parsedVersion a = Some va -> parsedVersion b = Some vb ->
  compareVersions a b
  = Ok (match Semver.compareV vb va with Lt => -1 | Eq => 0 | Gt => 1 end)%Z.
Proof.
  unfold parsedVersion, compareVersions, Semver.rcompare.
  destruct (version a) as [sa|]; [|discriminate].
  destruct (version b) as [sb|]; [|discriminate].
  now intros -> ->.
Qed.

Lemma compareVersions_bad_left a b :
  parsedVersion a = None -> exists m, compareVersions a b = Throw m.
Proof.
  unfold parsedVersion, compareVersions, Semver.rcompare.
  destruct (version a) as [sa|]; [|eauto].
  destruct (version b) as [sb|]; [|eauto].
  intros ->. eauto.
Qed.

Lemma compareVersions_bad_right a b :
  parsedVersion b = None -> exists m, compareVersions a b = Throw m.
Proof.
  unfold parsedVersion, compareVersions, Semver.rcompare.
  destruct (version a) as [sa|]; [|eauto].
  destruct (version b) as [sb|]; [|eauto].
  intros ->. destruct (Semver.parse sa); eauto.
Qed.

Lemma insertBy_good x vx :
  parsedVersion x = Some vx ->
  forall l,
    Forall (fun t => parsedVersion t <> None) l ->
    exists l',
      insertBy compareVersions x l = Ok l' /\
      l' <> [] /\
      Forall (fun t => parsedVersion t <> None) l' /\
      (headIsGreatest l -> headIsGreatest l').
Proof.
  intros Hx. induction l as [|y t IH]; intros Hgood.
  - exists [x]. cbn [insertBy]. split; [reflexivity|]. split; [discriminate|].
    split; [constructor; [congruence|constructor]|].
    intros _ u vu vh [<-|[]] Hu Hh. rewrite Hx in Hu, Hh.
    inversion Hu; inversion Hh; subst. apply leV_refl.
  - inversion Hgood as [|? ? Hy Ht]; subst.
    destruct (parsedVersion y) as [vy|] eqn:Hvy; [|congruence].
    cbn [insertBy]. rewrite (compareVersions_good x y vx vy Hx Hvy). cbn [bindR].
    destruct (Semver.compareV vy vx) eqn:Hc.
    + (* equal: x goes after y *)
      replace (0 <? 0)%Z with false by reflexivity.
      destruct (IH Ht) as (t' & Hins & _ & Hgood' & _). rewrite Hins. cbn [bindR].
      exists (y :: t'). split; [reflexivity|]. split; [discriminate|].
      split; [constructor; [congruence|exact Hgood']|].
      intros Hhead u vu vh Hin Hu Hh. rewrite Hvy in Hh. inversion Hh; subst vh.
      destruct Hin as [<-|Hin].
      * rewrite Hvy in Hu. inversion Hu; subst. apply leV_refl.
      * apply (insertBy_In compareVersions x t t' Hins u) in Hin as [->|Hin].
        -- rewrite Hx in Hu. inversion Hu; subst vu.
           apply compareV_not_Lt_leV. congruence.
        -- apply (Hhead u vu vy); [now right | exact Hu | exact Hvy].
    + (* y < x: x goes first *)
      replace (-1 <? 0)%Z with true by reflexivity.
      exists (x :: y :: t). split; [reflexivity|]. split; [discriminate|].
      split; [constructor; [congruence|exact Hgood]|].
      intros Hhead u vu vh Hin Hu Hh. rewrite Hx in Hh. inversion Hh; subst vh.
      destruct Hin as [<-|Hin].
      * rewrite Hx in Hu. inversion Hu; subst. apply leV_refl.
      * apply leV_trans with vy.
        -- apply (Hhead u vu vy); [exact Hin | exact Hu | exact Hvy].
        -- now apply compareV_Lt_leV.
    + replace (1 <? 0)%Z with false by reflexivity.
      destruct (IH Ht) as (t' & Hins & _ & Hgood' & _). rewrite Hins. cbn [bindR].
      exists (y :: t'). split; [reflexivity|]. split; [discriminate|].
      split; [constructor; [congruence|exact Hgood']|].
      intros Hhead u vu vh Hin Hu Hh. rewrite Hvy in Hh. inversion Hh; subst vh.
      destruct Hin as [<-|Hin].
      * rewrite Hvy in Hu. inversion Hu; subst. apply leV_refl.
      * apply (insertBy_In compareVersions x t t' Hins u) in Hin as [->|Hin].
        -- rewrite Hx in Hu. inversion Hu; subst vu.
           apply compareV_not_Lt_leV. congruence.
        -- apply (Hhead u vu vy); [now right | exact Hu | exact Hvy].
Qed.

Lemma sortBy_good l :
  forall acc,
    Forall (fun t => parsedVersion t <> None) l ->
    Forall (fun t => parsedVersion t <> None) acc ->
    headIsGreatest acc ->
    exists l',
      fold_left (fun acc x => bindR acc (insertBy compareVersions x)) l (Ok acc)
      = Ok l' /\
      headIsGreatest l' /\
      Forall (fun t => parsedVersion t <> None) l'.
Proof.
  induction l as [|x l IH]; intros acc Hl Hacc Hhead; cbn [fold_left].
  - eauto.
  - inversion Hl as [|? ? Hx Hl']; subst.
    destruct (parsedVersion x) as [vx|] eqn:Hvx; [|congruence].
    destruct (insertBy_good x vx Hvx acc Hacc) as (acc' & Hins & _ & Hgood & Hh).
    cbn [bindR]. rewrite Hins. apply IH; auto.
Qed.

Lemma sortBy_Throw {A : Type} (cmp : A -> A -> Result Z) l m :
  fold_left (fun acc x => bindR acc (insertBy cmp x)) l (Throw m) = Throw m.
Proof. induction l as [|x l IH]; [reflexivity|]. cbn [fold_left bindR]. exact IH. Qed.

Lemma sortBy_bad l :
  forall acc,
    acc <> [] ->
    Forall (fun t => parsedVersion t <> None) acc ->
    Exists (fun t => parsedVersion t = None) l ->
    exists m,
      fold_left (fun acc x => bindR acc (insertBy compareVersions x)) l (Ok acc)
      = Throw m.
Proof.
  induction l as [|x l IH]; intros acc Hne Hacc Hbad; [inversion Hbad|].
  cbn [fold_left bindR].
  destruct (parsedVersion x) as [vx|] eqn:Hvx.
  - destruct (insertBy_good x vx Hvx acc Hacc) as (acc' & Hins & Hne' & Hgood & _).
    rewrite Hins. apply IH; auto.
    inversion Hbad as [? ? H|? ? H]; subst; [congruence|exact H].
  - destruct acc as [|y t]; [congruence|]. cbn [insertBy].
    destruct (compareVersions_bad_left x y Hvx) as [m Hm]. rewrite Hm.
    cbn [bindR]. exists m. apply sortBy_Throw.
Qed.

(** X12: when every discovered descriptor of the requested name has
    a version that [Semver.parse] reads, a query without version
    returns one of them whose version is greater than or equal to all
    the others. *)
Theorem X12_latest_has_a_greatest_version ts nm t0 :
  In t0 ts -> name t0 = Some nm ->
  (forall t, In t ts -> name t = Some nm -> parsedVersion t <> None) ->
  exists t v,
    getTemplate (Ok ts) nm None = Some t /\
    In t ts /\ name t = Some nm /\ parsedVersion t = Some v /\
    forall u w, In u ts -> name u = Some nm -> parsedVersion u = Some w ->
                Semver.leV w v = true.
Proof.
  intros Hin0 Hname0 Hall. unfold getTemplate.
  set (matching := filter (fun t => strictEq (name t) nm) ts).
  assert (Hm : forall u, In u matching <-> In u ts /\ name u = Some nm).
  { intros u. unfold matching. rewrite filter_In, strictEq_true. tauto. }
  assert (Hgood : Forall (fun t => parsedVersion t <> None) matching).
  { apply Forall_forall. intros u Hu. apply Hm in Hu as [? ?]. auto. }
  assert (H0 : In t0 matching) by (apply Hm; auto).
  destruct matching as [|m0 rest] eqn:Hmatching; [destruct H0|].
  rewrite <- Hmatching in *. cbn [Str.truthy].
  destruct (sortBy_good matching [] Hgood (Forall_nil _) I)
    as (sorted & Hsort & Hhead & Hsg).
  unfold sortBy. fold compareVersions.
  change (fun a b => Semver.rcompare (version a) (version b)) with compareVersions.
  rewrite Hsort.
  pose proof (sortBy_In compareVersions matching [] sorted Hsort) as Hmem.
  destruct sorted as [|h sorted].
  { exfalso. apply (proj2 (Hmem t0)). now right. }
  cbn [hd_error].
  assert (Hh : In h matching).
  { destruct (proj1 (Hmem h) (or_introl eq_refl)) as [[]|H]. exact H. }
  inversion Hsg as [|? ? Hhv _]; subst.
  destruct (parsedVersion h) as [v|] eqn:Hv; [|congruence].
  exists h, v. apply Hm in Hh as [Hh1 Hh2].
  repeat split; auto.
  intros u w Hu Hn Hw. apply (Hhead u w v); auto.
  apply Hmem. right. apply Hm. auto.
Qed.

(** X13: when a descriptor of the requested name has a version that
    is not a semantic version because of its shape (no version at all,
    or a text without [-] and [+] that is not made of three parts
    between dots, such as ["1.0.0.0"]), a query without version returns
    that descriptor if it is the only one of the name, and [null] as
    soon as the name has two descriptors or more, whatever the other
    versions are: the comparator of the sort throws. *)
Theorem X13_unparsable_version_hides_the_name ts nm t0 :
  In t0 ts -> name t0 = Some nm -> malformedVersion (version t0) = true ->
  getTemplate (Ok ts) nm None
  = match filter (fun t => strictEq (name t) nm) ts with
    | [t] => Some t
    | _ => None
    end.
Proof.
  intros Hin0 Hname0 Hshape.
  assert (Hbad0 : parsedVersion t0 = None).
  { unfold parsedVersion, malformedVersion in *.
    destruct (version t0) as [s|]; [|reflexivity].
    unfold Semver.parse.
    destruct (Str.split "." s) as [|a [|b [|c [|d l]]]]; try reflexivity.
    cbn [List.length Nat.eqb negb] in Hshape.
    now rewrite !andb_false_r in Hshape. }
  unfold getTemplate.
  set (matching := filter (fun t => strictEq (name t) nm) ts).
  assert (H0 : In t0 matching).
  { apply filter_In. split; [exact Hin0 | now apply strictEq_true]. }
  clearbody matching. cbn [Str.truthy].
  destruct matching as [|a [|b rest]]; [reflexivity | reflexivity |].
  change (fun a b => Semver.rcompare (version a) (version b)) with compareVersions.
  unfold sortBy. cbn [fold_left]. cbn [bindR].
  change (insertBy compareVersions a []) with (Ok [a]). cbn [bindR].
  destruct (parsedVersion a) as [va|] eqn:Ha.
  - destruct (parsedVersion b) as [vb|] eqn:Hb.
    + destruct (insertBy_good b vb Hb [a]) as (acc & Hins & Hne & Hgood & _).
      { constructor; [congruence|constructor]. }
      rewrite Hins.
      destruct (sortBy_bad rest acc Hne Hgood) as [m Hm]; [|now rewrite Hm].
      apply Exists_exists. exists t0. split; [|exact Hbad0].
      destruct H0 as [<-|[<-|H0]]; [congruence|congruence|exact H0].
    + cbn [insertBy].
      destruct (compareVersions_bad_left b a Hb) as [m Hm]. rewrite Hm.
      cbn [bindR]. now rewrite sortBy_Throw.
  - cbn [insertBy].
    destruct (compareVersions_bad_right b a Ha) as [m Hm]. rewrite Hm.
    cbn [bindR]. now rewrite sortBy_Throw.
Qed.

End LatestVersion.

Lemma X12_latest_has_a_greatest_version_witness :
  exists t,
    TemplateRegistry.getTemplate
      (Ok [sampleDescriptor "app" "1.0.0"; sampleDescriptor "app" "1.10.0";
           sampleDescriptor "app" "1.9.0"]) "app" None = Some t /\
    parsedVersion t = Some (1, 10, 0)%N.
Proof.
  destruct (X12_latest_has_a_greatest_version
              [sampleDescriptor "app" "1.0.0"; sampleDescriptor "app" "1.10.0";
               sampleDescriptor "app" "1.9.0"] "app"
              (sampleDescriptor "app" "1.0.0"))
    as (t & v & Ht & _).
  - now left.
  - reflexivity.
  - intros t [<-|[<-|[<-|[]]]] _; discriminate.
  - exists t. split; [exact Ht|].
    cbv in Ht. inversion Ht. reflexivity.
Defined.

Lemma X13_unparsable_version_hides_the_name_witness :
  TemplateRegistry.getTemplate
    (Ok [sampleDescriptor "app" "1.0.0"; sampleDescriptor "app" "1.0.0.0"])
    "app" None = None.
Proof.
  rewrite (X13_unparsable_version_hides_the_name _ "app"
             (sampleDescriptor "app" "1.0.0.0")).
  - reflexivity.
  - right. now left.
  - reflexivity.
  - reflexivity.
Defined.

Section Pagination.
Import TemplateRegistry.
Context {A : Type}.

Lemma firstn_plus (a b : nat) (m : list A) :
  firstn (a + b) m = (firstn a m ++ firstn b (skipn a m))%list.
Proof.
  revert m. induction a as [|a IH]; intros m; [reflexivity|].
  destruct m as [|x m]; cbn [Nat.add firstn skipn app].
  - now rewrite firstn_nil.
  - now rewrite IH.
Qed.

Lemma skipn_plus (a k : nat) (l : list A) :
  skipn (k + a) l = skipn a (skipn k l).
Proof.
  revert l. induction k as [|k IH]; intros l; [reflexivity|].
  destruct l as [|x l]; cbn [Nat.add skipn]; [now rewrite skipn_nil | apply IH].
Qed.

Lemma slice_nonnegative (l : list A) (start final : Z) :
  (0 <= start <= final)%Z ->
  slice l start final
  = firstn (Z.to_nat (Z.min final (Z.of_nat (List.length l))
                      - Z.min start (Z.of_nat (List.length l))))
      (skipn (Z.to_nat (Z.min start (Z.of_nat (List.length l)))) l).
Proof.
  intros H. unfold slice, sliceIndex.
  replace (start <? 0)%Z with false by (symmetry; apply Z.ltb_ge; lia).
  replace (final <? 0)%Z with false by (symmetry; apply Z.ltb_ge; lia).
  reflexivity.
Qed.

(** X14: for an offset that is not negative and positive limits,
    consecutive pages of [searchTemplates] laid end to end are the page
    of the summed limit: no descriptor is lost or repeated between two
    pages; [total] counts the array before the cut, and a limit of [0]
    returns everything from the offset on. *)
Theorem X14_consecutive_pages_tile (l : list A) offset limit limit' :
  (0 <= offset)%Z -> (0 < limit)%Z -> (0 < limit')%Z ->
  (fst (paginate l (Some offset) (Some limit))
   ++ fst (paginate l (Some (offset + limit)%Z) (Some limit')))%list
  = fst (paginate l (Some offset) (Some (limit + limit')%Z)) /\
  Z.of_nat (List.length (fst (paginate l (Some offset) (Some limit))))
  = Z.max 0 (Z.min limit (Z.of_nat (List.length l) - offset)) /\
  snd (paginate l (Some offset) (Some limit)) = Z.of_nat (List.length l) /\
  fst (paginate l (Some offset) (Some 0%Z)) = skipn (Z.to_nat offset) l.
Proof.
  intros Ho Hl Hl'. unfold paginate. cbn [fst snd].
  set (len := Z.of_nat (List.length l)).
  assert (Hlen : (0 <= len)%Z) by (unfold len; lia).
  assert (E : forall z, (0 <= z)%Z -> (if (z =? 0)%Z then 0%Z else z) = z).
  { intros z Hz. destruct (Z.eqb_spec z 0); lia. }
  assert (E' : forall z, (0 < z)%Z -> (if (z =? 0)%Z then len else z) = z).
  { intros z Hz. destruct (Z.eqb_spec z 0); lia. }
  rewrite !E, !E' by lia. replace (0 =? 0)%Z with true by reflexivity.
  rewrite !slice_nonnegative by lia. fold len.
  split; [|split; [|split]].
  - set (k := Z.to_nat (Z.min offset len)).
    set (a := Z.to_nat (Z.min (offset + limit) len - Z.min offset len)).
    set (b := Z.to_nat (Z.min (offset + limit + limit') len
                        - Z.min (offset + limit) len)).
    replace (Z.to_nat (Z.min (offset + limit) len)) with (k + a)%nat
      by (unfold k, a; lia).
    replace (Z.to_nat (Z.min (offset + (limit + limit')) len - Z.min offset len))
      with (a + b)%nat by (unfold a, b; lia).
    rewrite skipn_plus. symmetry. apply firstn_plus.
  - rewrite length_firstn, length_skipn. fold len. unfold len in *. lia.
  - reflexivity.
  - destruct (Z.le_gt_cases offset len) as [Hle|Hgt].
    + replace (Z.min offset len) with offset by lia.
      apply firstn_all2. rewrite length_skipn. unfold len in *. lia.
    + replace (Z.min offset len) with len by lia.
      rewrite !skipn_all2 by (unfold len in *; lia). apply firstn_nil.
Qed.

End Pagination.

Lemma X14_consecutive_pages_tile_witness :
  (fst (TemplateRegistry.paginate ["a"; "b"; "c"; "d"; "e"] (Some 1%Z) (Some 2%Z))
   ++ fst (TemplateRegistry.paginate ["a"; "b"; "c"; "d"; "e"] (Some 3%Z) (Some 5%Z)))%list
  = ["b"; "c"; "d"; "e"].
Proof.
  change (Some 3%Z) with (Some (1 + 2)%Z).
  rewrite (proj1 (X14_consecutive_pages_tile ["a"; "b"; "c"; "d"; "e"] 1 2 5
                    ltac:(lia) ltac:(lia) ltac:(lia))).
  reflexivity.
Defined.

(** ** Variables: merging, validation, transformations *)

Section MapLayers.
Context {V : Type}.

Lemma JsMap_get_assign (source : list (string * V)) :
  forall target k,
    JsMap.wf source ->
    JsMap.get k (JsMap.assign target source)
    = match JsMap.get k source with
      | Some v => Some v
      | None => JsMap.get k target
      end.
Proof.
  unfold JsMap.assign, JsMap.wf.
  induction source as [|[k1 v1] source IH]; intros target k Hwf; [reflexivity|].
  cbn [JsMap.keys map fst] in Hwf. inversion Hwf as [|? ? Hnot Hwf']; subst.
  cbn [fold_left fst snd JsMap.get]. rewrite (IH _ _ Hwf').
  destruct (String.eqb_spec k k1) as [->|Hne].
  - assert (Hnone : JsMap.get k1 source = None).
    { destruct (JsMap.get k1 source) as [v|] eqn:E; [|reflexivity].
      exfalso. apply Hnot. apply JsMap_get_In in E.
      apply in_map_iff. now exists (k1, v). }
    rewrite Hnone. apply JsMap_get_set_eq.
  - rewrite JsMap_get_set_ne by congruence. reflexivity.
Qed.

Lemma JsMap_wf_assign (source target : list (string * V)) :
  JsMap.wf target -> JsMap.wf (JsMap.assign target source).
Proof.
  unfold JsMap.assign. revert target.
  induction source as [|[k1 v1] source IH]; intros target Hwf; [exact Hwf|].
  cbn [fold_left]. apply IH. now apply JsMap_wf_set.
Qed.

Lemma JsMap_assign_app (source : list (string * V)) :
  forall target,
    NoDup (JsMap.keys target ++ JsMap.keys source) ->
    JsMap.assign target source = (target ++ source)%list.
Proof.
  unfold JsMap.assign.
  induction source as [|[k1 v1] source IH]; intros target Hnd; cbn [fold_left].
  - now rewrite app_nil_r.
  - cbn [fst snd].
    assert (Hnew : JsMap.get k1 target = None).
    { destruct (JsMap.get k1 target) as [u|] eqn:Hget; [|reflexivity].
      exfalso. apply JsMap_get_In in Hget.
      cbn [JsMap.keys map fst] in Hnd. apply NoDup_remove_2 in Hnd. apply Hnd.
      apply in_or_app. left. apply in_map_iff. now exists (k1, u). }
    rewrite JsMap_set_new_app by exact Hnew. rewrite IH.
    + now rewrite <- app_assoc.
    + unfold JsMap.keys. rewrite map_app. cbn [map fst].
      rewrite <- app_assoc. exact Hnd.
Qed.

Lemma JsMap_assign_nil (source : list (string * V)) :
  JsMap.wf source -> JsMap.assign [] source = source.
Proof. intros H. now rewrite JsMap_assign_app. Qed.

End MapLayers.

Section Merging.
Import VariableSubstitutionEngine.


End Merging.


Section Transformations.
Import VariableSubstitutionEngine.

Lemma getProp_object_same (m1 m2 : list (string * JsValue)) k :
  JsMap.get k m1 = JsMap.get k m2 ->
  JsVal.getProp (JsVal.Data (VObj m1)) k = JsVal.getProp (JsVal.Data (VObj m2)) k.
Proof. intros H. cbn [JsVal.getProp]. now rewrite H. Qed.

Lemma hasProperty_same {V : Type} (m1 m2 : list (string * V)) k :
  JsMap.get k m1 = JsMap.get k m2 ->
  JsVal.hasProperty k m1 = JsVal.hasProperty k m2.
Proof. intros H. unfold JsVal.hasProperty, JsMap.has. now rewrite H. Qed.

Lemma applyTransformations_fold ctx trs :
  forall transformed,
    JsMap.wf trs ->
    let out :=
      fold_left
        (fun transformed (entry : string * VariableTransformer) =>
           let '(nm, transformer) := entry in
           if JsVal.hasProperty nm transformed then
             match transformer (JsVal.getProp (JsVal.Data (VObj transformed)) nm)
                     ctx with
             | Ok v' => JsMap.set nm v' transformed
             | Throw _ => transformed
             end
           else transformed) trs transformed in
    JsMap.keys out
    = (JsMap.keys transformed
       ++ map fst (filter (runsOnInherited transformed ctx) trs))%list /\
    forall k,
      JsMap.get k out
      = match JsMap.get k trs with
        | Some transformer =>
            if JsVal.hasProperty k transformed then
              match transformer (JsVal.getProp (JsVal.Data (VObj transformed)) k)
                      ctx with
              | Ok v' => Some v'
              | Throw _ => JsMap.get k transformed
              end
            else JsMap.get k transformed
        | None => JsMap.get k transformed
        end.
Proof.
  induction trs as [|[nm tr] trs IH]; intros transformed Hwf; cbv zeta.
  - cbn [fold_left JsMap.get filter map]. split; [now rewrite app_nil_r|].
    reflexivity.
  - unfold JsMap.wf in Hwf. cbn [JsMap.keys map fst] in Hwf.
    inversion Hwf as [|? ? Hnot Hwf']; subst.
    assert (Hnone : JsMap.get nm trs = None).
    { destruct (JsMap.get nm trs) as [x|] eqn:E; [|reflexivity].
      exfalso. apply Hnot. apply JsMap_get_In in E.
      apply in_map_iff. now exists (nm, x). }
    cbn [fold_left].
    set (step := if JsVal.hasProperty nm transformed then
                   match tr (JsVal.getProp (JsVal.Data (VObj transformed)) nm) ctx with
                   | Ok v' => JsMap.set nm v' transformed
                   | Throw _ => transformed
                   end
                 else transformed).
    destruct (IH step Hwf') as [Hkeys Hget]. cbv zeta in Hkeys, Hget.
    assert (Hother : forall k, k <> nm -> JsMap.get k step = JsMap.get k transformed).
    { intros k Hne. unfold step.
      destruct (JsVal.hasProperty nm transformed); [|reflexivity].
      destruct (tr _ ctx); [|reflexivity].
      apply JsMap_get_set_ne. congruence. }
    assert (Hstep_keys :
      JsMap.keys step
      = (JsMap.keys transformed
         ++ (if runsOnInherited transformed ctx (nm, tr) then [nm] else []))%list).
    { unfold step, runsOnInherited, JsVal.hasProperty. cbn [fst snd JsVal.getProp].
      unfold JsMap.has.
      destruct (JsMap.get nm transformed) as [v|] eqn:E; cbn [orb negb andb].
      - rewrite app_nil_r. destruct (tr (JsVal.Data v) ctx); [|reflexivity].
        rewrite JsMap_keys_set. unfold JsMap.has. now rewrite E.
      - destruct (JsVal.inObjectPrototype nm); cbn [andb].
        + destruct (tr (JsVal.Inherited JsVal.ObjectPrototype [nm]) ctx);
            cbn [isOk].
          * rewrite JsMap_keys_set. unfold JsMap.has. now rewrite E.
          * now rewrite app_nil_r.
        + now rewrite app_nil_r. }
    assert (Hfilter : filter (runsOnInherited step ctx) trs
                      = filter (runsOnInherited transformed ctx) trs).
    { apply filter_ext_in. intros [n t] Hin. unfold runsOnInherited. cbn [fst snd].
      assert (Hne : n <> nm).
      { intros ->. apply Hnot. apply in_map_iff. now exists (nm, t). }
      unfold JsMap.has. now rewrite (Hother n Hne). }
    split.
    + rewrite Hkeys, Hstep_keys, Hfilter, <- app_assoc. f_equal.
      cbn [filter]. now destruct (runsOnInherited transformed ctx (nm, tr)).
    + intros k. rewrite Hget. cbn [JsMap.get].
      destruct (String.eqb_spec k nm) as [->|Hne].
      * rewrite Hnone. unfold step.
        destruct (JsVal.hasProperty nm transformed); [|reflexivity].
        destruct (tr _ ctx); [apply JsMap_get_set_eq | reflexivity].
      * rewrite (hasProperty_same step transformed k (Hother k Hne)).
        rewrite (getProp_object_same step transformed k (Hother k Hne)).
        now rewrite (Hother k Hne).
Qed.

(** X16: [applyTransformations] keeps the names it receives, in the
    same order, and adds after them the names of the transformers that
    ran on a member inherited from [Object.prototype] and returned. A
    transformer runs when its name is found by [name in transformed]:
    its variable then holds the transformed value, or what it held
    when the transformer throws; every other variable is unchanged,
    and a transformer whose name is not found is not run. No
    transformer is named [__proto__]. *)
Theorem X16_transformations_keep_the_names cfg vars ctx :
  JsMap.wf vars -> JsMap.wf (transformers cfg) ->
  JsMap.has "__proto__" (transformers cfg) = false ->
  JsMap.keys (applyTransformations cfg vars ctx)
  = (JsMap.keys vars
     ++ map fst (filter (runsOnInherited vars ctx) (transformers cfg)))%list /\
  forall k,
    JsMap.get k (applyTransformations cfg vars ctx)
    = match JsMap.get k (transformers cfg) with
      | Some transformer =>
          if JsVal.hasProperty k vars then
            match transformer (JsVal.getProp (JsVal.Data (VObj vars)) k) ctx with
            | Ok v' => Some v'
            | Throw _ => JsMap.get k vars
            end
          else JsMap.get k vars
      | None => JsMap.get k vars
      end.
Proof.
  intros Hvars Htrs _. unfold applyTransformations.
  rewrite JsMap_assign_nil by exact Hvars.
  exact (applyTransformations_fold ctx (transformers cfg) vars Htrs).
Qed.

(** X17: [coerceValue] is idempotent: a value it returns is returned
    unchanged when it is coerced again under the same schema. *)
Theorem X17_coercion_is_idempotent w value schema coerced :
  (forall n, jsNumber w (VNum n) = Some n) ->
  coerceValue w value schema = Ok coerced ->
  coerceValue w coerced schema = Ok coerced.
Proof.
  intros Hnum. unfold coerceValue.
  destruct (String.eqb (type schema) "string").
  { intros [= <-]. reflexivity. }
  destruct (String.eqb (type schema) "number").
  { destruct (jsNumber w value) as [n|]; [|discriminate].
    intros [= <-]. now rewrite Hnum. }
  destruct (String.eqb (type schema) "boolean").
  { destruct value as [| |b|n|s|items|props]; cbn [JsVal.truthy];
      try (intros [= <-]; reflexivity).
    destruct (_ || _); [intros [= <-]; reflexivity|].
    destruct (_ || _); intros [= <-]; reflexivity. }
  destruct (String.eqb (type schema) "array").
  { destruct value; intros [= <-]; reflexivity. }
  destruct (String.eqb (type schema) "object").
  { destruct value; intros [= <-]; reflexivity. }
  intros [= <-]. reflexivity.
Qed.

End Transformations.

Lemma X16_transformations_keep_the_names_witness :
  JsMap.keys
    (VariableSubstitutionEngine.applyTransformations sampleInheritedNameConfig
       [("license", VStr "MIT"); ("port", VNum 3000)] emptyContext)
  = ["license"; "port"; "toString"].
Proof.
  rewrite (proj1 (X16_transformations_keep_the_names sampleInheritedNameConfig
                    [("license", VStr "MIT"); ("port", VNum 3000)] emptyContext
                    ltac:(repeat constructor; cbn; intuition discriminate)
                    ltac:(repeat constructor; cbn; intuition discriminate)
                    eq_refl)).
  reflexivity.
Defined.

Lemma X17_coercion_is_idempotent_witness :
  VariableSubstitutionEngine.coerceValue (sampleWorld 0 0) (VBool true)
    {| VariableSubstitutionEngine.name := "debug";
       VariableSubstitutionEngine.type := "boolean";
       VariableSubstitutionEngine.required := false;
       VariableSubstitutionEngine.default := VUndefined |}
  = Ok (VBool true).
Proof.
  apply (X17_coercion_is_idempotent (sampleWorld 0 0) (VStr "YES")).
  - intros n. reflexivity.
  - reflexivity.
Defined.

Section Sanitized.
Import VariableSubstitutionEngine.
Variable cfg : VariableConfig.
Variable w : World.

Lemma validateEntry_fold_get nm vars :
  forall acc,
    JsMap.wf vars ->
    JsMap.get nm (snd (fold_left (validateEntry cfg w) vars acc))
    = match JsMap.get nm vars with
      | Some value =>
          match acceptedValue cfg w nm value with
          | Some x => Some x
          | None => JsMap.get nm (snd acc)
          end
      | None => JsMap.get nm (snd acc)
      end.
Proof.
  induction vars as [|[k value] vars IH]; intros acc Hwf; [reflexivity|].
  unfold JsMap.wf in Hwf. cbn [JsMap.keys map fst] in Hwf.
  inversion Hwf as [|? ? Hnot Hwf']; subst.
  cbn [fold_left]. rewrite (IH _ Hwf'). cbn [JsMap.get].
  destruct (String.eqb_spec nm k) as [->|Hne].
  - assert (Hnone : JsMap.get k vars = None).
    { destruct (JsMap.get k vars) as [x|] eqn:E; [|reflexivity].
      exfalso. apply Hnot. apply JsMap_get_In in E.
      apply in_map_iff. now exists (k, x). }
    rewrite Hnone. destruct acc as [errs san].
    unfold validateEntry, acceptedValue.
    destruct (lookupSchema cfg k) as [schema| |].
    + destruct (coerceValue w value schema) as [coerced|m]; [|reflexivity].
      destruct (ajvValidate w k coerced); cbn [snd];
        [apply JsMap_get_set_eq | reflexivity | reflexivity].
    + destruct (ajvValidate w k value); cbn [snd];
        [apply JsMap_get_set_eq | reflexivity | reflexivity].
    + cbn [snd]. apply JsMap_get_set_eq.
  - assert (Hsame : JsMap.get nm (snd (validateEntry cfg w acc (k, value)))
                    = JsMap.get nm (snd acc)).
    { destruct acc as [errs san]. unfold validateEntry.
      destruct (lookupSchema cfg k) as [schema| |].
      - destruct (coerceValue w value schema) as [coerced|m]; [|reflexivity].
        destruct (ajvValidate w k coerced); cbn [snd]; try reflexivity.
        apply JsMap_get_set_ne. congruence.
      - destruct (ajvValidate w k value); cbn [snd]; try reflexivity.
        apply JsMap_get_set_ne. congruence.
      - cbn [snd]. apply JsMap_get_set_ne. congruence. }
    now rewrite Hsame.
Qed.

Lemma checkRequired_fold_get vars nm schs :
  forall acc,
    JsMap.wf schs ->
    JsMap.get nm (snd (fold_left (checkRequired vars) schs acc))
    = match JsMap.get nm schs with
      | Some schema =>
          if required schema && negb (JsVal.hasProperty nm vars)
             && negb (JsVal.isUndefined (default schema))
          then Some (default schema)
          else JsMap.get nm (snd acc)
      | None => JsMap.get nm (snd acc)
      end.
Proof.
  induction schs as [|[k schema] schs IH]; intros acc Hwf; [reflexivity|].
  unfold JsMap.wf in Hwf. cbn [JsMap.keys map fst] in Hwf.
  inversion Hwf as [|? ? Hnot Hwf']; subst.
  cbn [fold_left]. rewrite (IH _ Hwf'). cbn [JsMap.get].
  destruct (String.eqb_spec nm k) as [->|Hne].
  - assert (Hnone : JsMap.get k schs = None).
    { destruct (JsMap.get k schs) as [x|] eqn:E; [|reflexivity].
      exfalso. apply Hnot. apply JsMap_get_In in E.
      apply in_map_iff. now exists (k, x). }
    rewrite Hnone. destruct acc as [errs san]. unfold checkRequired.
    destruct (required schema && negb (JsVal.hasProperty k vars)); cbn [andb];
      [|reflexivity].
    destruct (negb (JsVal.isUndefined (default schema))); cbn [snd];
      [apply JsMap_get_set_eq | reflexivity].
  - assert (Hsame : JsMap.get nm (snd (checkRequired vars acc (k, schema)))
                    = JsMap.get nm (snd acc)).
    { destruct acc as [errs san]. unfold checkRequired.
      destruct (required schema && negb (JsVal.hasProperty k vars)); [|reflexivity].
      destruct (negb (JsVal.isUndefined (default schema))); cbn [snd];
        [|reflexivity].
      apply JsMap_get_set_ne. congruence. }
    now rewrite Hsame.
Qed.

(** X18: the sanitized map of [validateVariables], for variables
    without a member [__proto__]. A bound variable is stored with its
    value when [schemas[name]] finds nothing; with its coerced value
    when a declared schema is found, the coercion succeeds and the
    validator accepts it; with its value when a member inherited from
    [Object.prototype] is found and the validator accepts it; and not
    at all otherwise. A variable that is not bound receives the
    default of its schema only when the schema is marked required and
    the name is not an inherited one. *)
Theorem X18_sanitized_values vars nm :
  JsMap.wf vars -> JsMap.wf (schemas cfg) ->
  JsMap.has "__proto__" vars = false ->
  JsMap.get nm (sanitized (validateVariables cfg w vars))
  = match JsMap.get nm vars with
    | Some value => acceptedValue cfg w nm value
    | None => filledDefault cfg nm
    end.
Proof.
  intros Hvars Hschemas _. rewrite validateVariables_sanitized.
  rewrite checkRequired_fold_get by exact Hschemas.
  rewrite validateEntry_fold_get by exact Hvars. cbn [snd JsMap.get].
  unfold filledDefault, JsVal.hasProperty, JsMap.has.
  destruct (JsMap.get nm vars) as [value|]; cbn [negb orb].
  - destruct (JsMap.get nm (schemas cfg)) as [schema|].
    + rewrite andb_false_r. cbn [andb].
      now destruct (acceptedValue cfg w nm value).
    + now destruct (acceptedValue cfg w nm value).
  - destruct (JsMap.get nm (schemas cfg)) as [schema|]; reflexivity.
Qed.

End Sanitized.

Lemma X18_sanitized_values_witness :
  JsMap.get "author"
    (VariableSubstitutionEngine.sanitized
       (VariableSubstitutionEngine.validateVariables
          (sampleVariableConfig false 500 sampleSchemas) (sampleWorld 0 0)
          [("author", VStr "Ann"); ("constructor", VStr "x")]))
  = Some (VStr "Ann") /\
  JsMap.get "constructor"
    (VariableSubstitutionEngine.sanitized
       (VariableSubstitutionEngine.validateVariables
          (sampleVariableConfig false 500 sampleSchemas) (sampleWorld 0 0)
          [("author", VStr "Ann"); ("constructor", VStr "x")]))
  = None.
Proof.
  split.
  - rewrite X18_sanitized_values.
    + reflexivity.
    + repeat constructor; cbn; intuition discriminate.
    + repeat constructor; cbn; intuition discriminate.
    + reflexivity.
  - rewrite X18_sanitized_values.
    + reflexivity.
    + repeat constructor; cbn; intuition discriminate.
    + repeat constructor; cbn; intuition discriminate.
    + reflexivity.
Defined.

Section ProjectName.
Import VariableSubstitutionEngine.

Lemma mergeUser_wf cfg u o : JsMap.wf (mergeUser cfg u o).
Proof.
  unfold mergeUser.
  assert (H1 : JsMap.wf
                 (if Str.truthy (environment o)
                  then match environment o with
                       | Some e =>
                           match JsMap.get e (environments cfg) with
                           | Some envConfig => JsMap.assign [] envConfig
                           | None => []
                           end
                       | None => []
                       end
                  else [])).
  { destruct (Str.truthy (environment o)); [|constructor].
    destruct (environment o) as [e|]; [|constructor].
    destruct (JsMap.get e (environments cfg)); [|constructor].
    apply JsMap_wf_assign. constructor. }
  destruct (overrides o); repeat apply JsMap_wf_assign; exact H1.
Qed.

Lemma applyTransformations_untransformed cfg vars ctx k :
  JsMap.wf vars ->
  JsMap.get k (transformers cfg) = None ->
  JsMap.get k (applyTransformations cfg vars ctx) = JsMap.get k vars.
Proof.
  intros Hwf Hk. unfold applyTransformations.
  rewrite JsMap_assign_nil by exact Hwf. clear Hwf.
  revert vars.
  induction (transformers cfg) as [|[nm tr] trs IH]; intros transformed;
    [reflexivity|].
  cbn [JsMap.get] in Hk. destruct (String.eqb_spec k nm) as [->|Hne];
    [discriminate|].
  cbn [fold_left]. rewrite (IH Hk).
  destruct (JsVal.hasProperty nm transformed); [|reflexivity].
  destruct (tr _ ctx); [|reflexivity].
  apply JsMap_get_set_ne. congruence.
Qed.

(** X19: when validation is skipped and the merged variables bind
    [projectName] to a truthy value that is not a string, for which no
    transformer is configured, the resolution throws: the case
    conversions of [computeVariables] run on the value as it is. *)
Theorem X19_project_name_must_be_a_string cfg w u o c v :
  enableCaching cfg = false ->
  isTrue (skipValidation o) = true ->
  JsMap.get "projectName" (mergeUser cfg u o) = Some v ->
  JsMap.get "projectName" (transformers cfg) = None ->
  JsVal.truthy v = true ->
  (forall s, v <> VStr s) ->
  exists msg, fst (resolveVariables cfg w u o c) = Throw msg.
Proof.
  intros Hcache Hskip Hget Htr Htruthy Hstr.
  rewrite resolveVariables_miss by congruence.
  unfold buildContext.
  destruct (if isFalse (includeSystem o) then Ok [] else systemVariables w)
    as [systemLayer|msg]; [|cbn [bindR]; eauto].
  cbn [bindR]. rewrite Hskip. cbn [bindR user withUser].
  unfold computeVariables.
  destruct (clockVariables w) as [base|msg]; [|cbn [bindR]; eauto].
  cbn [bindR user withUser].
  rewrite applyTransformations_untransformed by (apply mergeUser_wf || exact Htr).
  rewrite Hget, Htruthy.
  destruct v; cbn [bindR]; eauto. exfalso. now apply (Hstr s).
Qed.

End ProjectName.

Lemma X19_project_name_must_be_a_string_witness :
  exists msg,
    fst (VariableSubstitutionEngine.resolveVariables sampleLayeredConfig
           (sampleWorld 0 0) [("projectName", VNum 42)]
           sampleProductionOptions [])
    = Throw msg.
Proof.
  apply (X19_project_name_must_be_a_string sampleLayeredConfig (sampleWorld 0 0)
           [("projectName", VNum 42)] sampleProductionOptions [] (VNum 42));
    try reflexivity.
  intros s. discriminate.
Defined.

(** ** Case conversions *)

Section CaseConversions.
Import VariableSubstitutionEngine.

Lemma lowerChar_notUpper c : notUpper (JsVal.lowerChar c) = true.
Proof.
  destruct c as [[] [] [] [] [] [] [] []]; vm_compute; reflexivity.
Qed.

Lemma lowerChar_fixed c : notUpper c = true -> JsVal.lowerChar c = c.
Proof.
  unfold notUpper, JsVal.lowerChar. now destruct (JsVal.isUpper c).
Qed.

Lemma upperChar_notCamelSeparator c :
  notCamelSeparator c = true -> notCamelSeparator (JsVal.upperChar c) = true.
Proof.
  destruct c as [[] [] [] [] [] [] [] []]; vm_compute; intros H;
    first [reflexivity | discriminate H].
Qed.

Lemma upperChar_idempotent c :
  JsVal.upperChar (JsVal.upperChar c) = JsVal.upperChar c.
Proof.
  destruct c as [[] [] [] [] [] [] [] []]; vm_compute; reflexivity.
Qed.

Lemma toLowerCase_notUpper s : allChars notUpper (JsVal.toLowerCase s) = true.
Proof.
  induction s as [|c s IH]; [reflexivity|].
  cbn [JsVal.toLowerCase allChars]. now rewrite lowerChar_notUpper, IH.
Qed.

Lemma toLowerCase_fixed s :
  allChars notUpper s = true -> JsVal.toLowerCase s = s.
Proof.
  induction s as [|c s IH]; [reflexivity|]. cbn [allChars JsVal.toLowerCase].
  intros H. apply andb_true_iff in H as [Hc Hs].
  now rewrite lowerChar_fixed, IH.
Qed.

Lemma separateHumps_fixed sep s :
  allChars notUpper s = true -> separateHumps sep s = s.
Proof.
  induction s as [|c1 s IH]; [reflexivity|].
  intros H. cbn [allChars] in H. apply andb_true_iff in H as [Hc Hs].
  destruct s as [|c2 rest]; [reflexivity|].
  change (separateHumps sep (String c1 (String c2 rest)))
    with (if JsVal.isLower c1 && JsVal.isUpper c2
          then String c1 (sep ++ String c2 (separateHumps sep rest))
          else String c1 (separateHumps sep (String c2 rest))).
  assert (Hc2 : JsVal.isUpper c2 = false).
  { cbn [allChars] in Hs. apply andb_true_iff in Hs as [H2 _].
    unfold notUpper in H2. now destruct (JsVal.isUpper c2). }
  rewrite Hc2, andb_false_r. now rewrite (IH Hs).
Qed.

Lemma camelAux_notCamelSeparator s :
  forall pending, allChars notCamelSeparator (camelAux pending s) = true.
Proof.
  induction s as [|c s IH]; intros pending; [reflexivity|].
  cbn [camelAux]. destruct (isCamelSeparator c) eqn:E; [apply IH|].
  cbn [allChars]. rewrite IH, andb_true_r.
  assert (Hc : notCamelSeparator c = true) by (unfold notCamelSeparator; now rewrite E).
  destruct pending; [now apply upperChar_notCamelSeparator | exact Hc].
Qed.

Lemma camelAux_fixed s :
  allChars notCamelSeparator s = true -> camelAux false s = s.
Proof.
  induction s as [|c s IH]; [reflexivity|]. cbn [allChars camelAux].
  intros H. apply andb_true_iff in H as [Hc Hs].
  unfold notCamelSeparator in Hc.
  destruct (isCamelSeparator c); [discriminate|]. now rewrite (IH Hs).
Qed.

(** X20: the case conversions are idempotent; the kebab and snake
    forms contain no upper-case letter, the camel and Pascal forms no
    hyphen, underscore or white space. *)
Theorem X20_case_conversions_are_idempotent s :
  (allChars notUpper (toKebabCase s) = true /\
   toKebabCase (toKebabCase s) = toKebabCase s) /\
  (allChars notUpper (toSnakeCase s) = true /\
   toSnakeCase (toSnakeCase s) = toSnakeCase s) /\
  (allChars notCamelSeparator (toCamelCase s) = true /\
   toCamelCase (toCamelCase s) = toCamelCase s) /\
  (allChars notCamelSeparator (toPascalCase s) = true /\
   toPascalCase (toPascalCase s) = toPascalCase s).
Proof.
  assert (Hhump : forall sep,
    allChars notUpper (JsVal.toLowerCase (separateHumps sep s)) = true /\
    JsVal.toLowerCase
      (separateHumps sep (JsVal.toLowerCase (separateHumps sep s)))
    = JsVal.toLowerCase (separateHumps sep s)).
  { intros sep. split; [apply toLowerCase_notUpper|].
    rewrite separateHumps_fixed by apply toLowerCase_notUpper.
    apply toLowerCase_fixed, toLowerCase_notUpper. }
  split; [exact (Hhump "-")|]. split; [exact (Hhump "_")|].
  assert (Hcamel : allChars notCamelSeparator (toCamelCase s) = true)
    by apply camelAux_notCamelSeparator.
  split; [split; [exact Hcamel | now apply camelAux_fixed]|].
  unfold toPascalCase. destruct (toCamelCase s) as [|c rest] eqn:E;
    [split; reflexivity|].
  cbn [allChars] in Hcamel. apply andb_true_iff in Hcamel as [Hc Hrest].
  assert (Hpascal : allChars notCamelSeparator (String (JsVal.upperChar c) rest) = true).
  { cbn [allChars]. now rewrite upperChar_notCamelSeparator, Hrest. }
  split; [exact Hpascal|].
  unfold toCamelCase. rewrite camelAux_fixed by exact Hpascal.
  now rewrite upperChar_idempotent.
Qed.

End CaseConversions.

(** ** Interpolation *)

Section InterpolationFurther.
Import VariableSubstitutionEngine.
Variable rt : JsVal.Runtime.

Lemma includesOpener_tail c s :
  Str.includesOpener (String c s) = false -> Str.includesOpener s = false.
Proof.
  destruct s as [|c2 rest]; [reflexivity|].
  cbn [Str.includesOpener]. intros H. apply orb_false_iff in H as [_ H].
  exact H.
Qed.

Lemma replacePlaceholders_no_opener f s :
  forall fuel,
    Str.includesOpener s = false -> replacePlaceholders fuel f s = s.
Proof.
  induction s as [|c s IH]; intros fuel H.
  - destruct fuel; reflexivity.
  - destruct fuel as [|fuel]; [reflexivity|].
    rewrite replacePlaceholders_step.
    assert (Hm : matchPlaceholder (String c s) = None).
    { apply matchPlaceholder_needs_opener.
      destruct s as [|c2 rest]; [reflexivity|].
      cbn [Str.includesOpener] in H. now apply orb_false_iff in H as [H _]. }
    rewrite Hm. rewrite IH; [reflexivity|].
    now apply includesOpener_tail with c.
Qed.

Lemma interpolateVariables_fold all vars :
  forall acc,
    JsMap.wf vars ->
    (forall k, In k (JsMap.keys vars) -> JsMap.get k acc = None) ->
    let out :=
      fold_left
        (fun interpolated (kv : string * JsValue) =>
           JsMap.set (fst kv) (interpolateValue rt all (snd kv)) interpolated)
        vars acc in
    JsMap.keys out = (JsMap.keys acc ++ JsMap.keys vars)%list /\
    forall k v, JsMap.get k vars = Some v ->
                JsMap.get k out = Some (interpolateValue rt all v).
Proof.
  induction vars as [|[k0 v0] vars IH]; intros acc Hwf Hfresh; cbv zeta.
  - cbn [fold_left JsMap.keys map]. rewrite app_nil_r. split; [reflexivity|].
    intros k v H. discriminate.
  - unfold JsMap.wf in Hwf. cbn [JsMap.keys map fst] in Hwf.
    inversion Hwf as [|? ? Hnot Hwf']; subst.
    cbn [fold_left fst snd].
    destruct (IH (JsMap.set k0 (interpolateValue rt all v0) acc) Hwf')
      as [Hkeys Hget].
    { intros k Hk. rewrite JsMap_get_set_ne.
      - apply Hfresh. right. exact Hk.
      - intros ->. apply Hnot. exact Hk. }
    cbv zeta in Hkeys, Hget. split.
    + rewrite Hkeys, JsMap_keys_set.
      replace (JsMap.has k0 acc) with false.
      * cbn [JsMap.keys map fst]. now rewrite <- app_assoc.
      * symmetry. apply JsMap_has_false_get. apply Hfresh. now left.
    + intros k v. cbn [JsMap.get].
      destruct (String.eqb_spec k k0) as [->|Hne].
      * intros [= <-].
        assert (Hnone : JsMap.get k0 vars = None).
        { destruct (JsMap.get k0 vars) as [x|] eqn:E; [|reflexivity].
          exfalso. apply Hnot. apply JsMap_get_In in E.
          apply in_map_iff. now exists (k0, x). }
        clear Hget.
        assert (Hkeep : forall l acc0,
                  ~ In k0 (JsMap.keys l) ->
                  JsMap.get k0
                    (fold_left
                       (fun interpolated (kv : string * JsValue) =>
                          JsMap.set (fst kv) (interpolateValue rt all (snd kv))
                            interpolated) l acc0)
                  = JsMap.get k0 acc0).
        { induction l as [|[k1 v1] l IHl]; intros acc0 Hn; [reflexivity|].
          cbn [fold_left fst snd]. rewrite IHl.
          - apply JsMap_get_set_ne. intros ->. apply Hn. now left.
          - intros Hin. apply Hn. now right. }
        rewrite Hkeep by exact Hnot. apply JsMap_get_set_eq.
      * intros H. now apply Hget.
Qed.

(** X21: [interpolateVariables] binds the names it receives, in the
    same order, each to the interpolation of its value; a number, a
    boolean, [null] and a string without [${] are returned as they
    are, whatever the context holds. *)
Theorem X21_interpolation_keeps_names_and_plain_values vars ctx :
  JsMap.wf vars ->
  JsMap.keys (interpolateVariables rt vars ctx) = JsMap.keys vars /\
  forall k v,
    JsMap.get k vars = Some v -> plainValue v = true ->
    JsMap.get k (interpolateVariables rt vars ctx) = Some v.
Proof.
  intros Hwf. unfold interpolateVariables.
  destruct (interpolateVariables_fold (allVariables ctx) vars [] Hwf)
    as [Hkeys Hget]; [reflexivity|].
  cbv zeta in Hkeys, Hget. split; [exact Hkeys|].
  intros k v Hk Hplain. rewrite (Hget k v Hk). f_equal.
  destruct v; try reflexivity; try discriminate.
  cbn [plainValue] in Hplain. cbn [interpolateValue]. f_equal.
  unfold interpolateString. apply replacePlaceholders_no_opener.
  now destruct (Str.includesOpener s).
Qed.

Lemma splitAux_app sep p q :
  forall cur,
    Str.splitAux sep cur (p ++ String sep q)
    = (Str.splitAux sep cur p ++ Str.splitAux sep "" q)%list.
Proof.
  induction p as [|c p IH]; intros cur.
  - cbn [append Str.splitAux]. now rewrite Ascii.eqb_refl.
  - cbn [append Str.splitAux]. destruct (Ascii.eqb c sep).
    + cbn [app]. now rewrite IH.
    + apply IH.
Qed.

(** X22: a dotted path is followed segment by segment: the value at
    [p.q] is the value at [q] of the value at [p]. *)
Theorem X22_nested_paths_compose obj p q :
  getNestedValue obj (p ++ "." ++ q)
  = getNestedValue (getNestedValue obj p) q.
Proof.
  unfold getNestedValue, Str.split.
  change ("." ++ q) with (String "."%char q).
  rewrite splitAux_app. apply fold_left_app.
Qed.

(** X23: the map handed to the templates by [flattenVariableContext]
    is the map the interpolation reads: a name is bound by the
    computed layer, else by the user layer, else by the system layer,
    else by the environment; the secrets are not part of it. *)
Theorem X23_flattened_context_precedence ctx k :
  JsMap.wf (env ctx) -> JsMap.wf (system ctx) -> JsMap.wf (user ctx) ->
  JsMap.wf (computed ctx) ->
  TemplateEngine.flattenVariableContext ctx = allVariables ctx /\
  JsMap.get k (TemplateEngine.flattenVariableContext ctx)
  = firstBound k [computed ctx; user ctx; system ctx; env ctx].
Proof.
  intros He Hs Hu Hc. split; [reflexivity|].
  unfold TemplateEngine.flattenVariableContext, JsMap.spread.
  cbn [fold_left firstBound].
  rewrite !JsMap_get_assign by assumption. cbn [JsMap.get].
  destruct (JsMap.get k (computed ctx)), (JsMap.get k (user ctx)),
    (JsMap.get k (system ctx)), (JsMap.get k (env ctx)); reflexivity.
Qed.

End InterpolationFurther.

Lemma X21_interpolation_keeps_names_and_plain_values_witness :
  JsMap.keys
    (VariableSubstitutionEngine.interpolateVariables sampleRuntime
       [("port", VNum 3000); ("greeting", VStr "Hi ${name}")] sampleFlatContext)
  = ["port"; "greeting"].
Proof.
  rewrite (proj1 (X21_interpolation_keeps_names_and_plain_values sampleRuntime
                    [("port", VNum 3000); ("greeting", VStr "Hi ${name}")]
                    sampleFlatContext
                    ltac:(repeat constructor; cbn; intuition discriminate))).
  reflexivity.
Defined.

Lemma X23_flattened_context_precedence_witness :
  JsMap.get "platform" (TemplateEngine.flattenVariableContext sampleShadowContext)
  = Some (VStr "darwin").
Proof.
  rewrite (proj2 (X23_flattened_context_precedence sampleShadowContext "platform"
                    ltac:(repeat constructor; cbn; intuition discriminate)
                    ltac:(repeat constructor; cbn; intuition discriminate)
                    ltac:(repeat constructor; cbn; intuition discriminate)
                    ltac:(repeat constructor; cbn; intuition discriminate))).
  reflexivity.
Defined.

(** ** C8: interpolation over the merged layers *)

Section InterpolationOverLayers.
Import VariableSubstitutionEngine.
Variable rt : JsVal.Runtime.

Lemma getProp_undefined segments :
  fold_left JsVal.getProp segments (JsVal.Data VUndefined) = JsVal.Data VUndefined.
Proof. induction segments as [|key rest IH]; [reflexivity | exact IH]. Qed.

Lemma followOwn_undefined segments :
  followOwn segments VUndefined = Some VUndefined.
Proof. induction segments as [|key rest IH]; [reflexivity | exact IH]. Qed.

(** A path that stays in own members is the path the code follows. *)
Lemma followOwn_getProp segments :
  forall v x,
    followOwn segments v = Some x ->
    fold_left JsVal.getProp segments (JsVal.Data v) = JsVal.Data x.
Proof.
  induction segments as [|key rest IH]; intros v x H.
  - cbn in H. now injection H as ->.
  - cbn [fold_left]. cbn [followOwn] in H.
    destruct v as [| |b|n|s|items|props]; try discriminate.
    + cbn [JsVal.getProp]. rewrite followOwn_undefined in H. injection H as <-.
      apply getProp_undefined.
    + cbn [JsVal.getProp]. rewrite followOwn_undefined in H. injection H as <-.
      apply getProp_undefined.
    + cbn [JsVal.getProp]. destruct (String.eqb key "length"); [now apply IH|].
      destruct (JsVal.arrayIndex key); [now apply IH | discriminate].
    + cbn [JsVal.getProp]. destruct (JsMap.get key props); [now apply IH|].
      destruct (JsVal.inObjectPrototype key); [discriminate | now apply IH].
Qed.

Lemma allVariables_get ctx k :
  JsMap.wf (env ctx) -> JsMap.wf (system ctx) -> JsMap.wf (user ctx) ->
  JsMap.wf (computed ctx) ->
  JsMap.get k (allVariables ctx)
  = firstBound k [computed ctx; user ctx; system ctx; env ctx].
Proof.
  intros He Hs Hu Hc. unfold allVariables, JsMap.spread.
  cbn [fold_left firstBound].
  rewrite !JsMap_get_assign by assumption. cbn [JsMap.get].
  destruct (JsMap.get k (computed ctx)), (JsMap.get k (user ctx)),
    (JsMap.get k (system ctx)), (JsMap.get k (env ctx)); reflexivity.
Qed.

Lemma getNestedValue_layers ctx name value :
  JsMap.wf (env ctx) -> JsMap.wf (system ctx) -> JsMap.wf (user ctx) ->
  JsMap.wf (computed ctx) ->
  placeholderValue ctx name = Some value ->
  getNestedValue (JsVal.Data (VObj (allVariables ctx))) (Str.trim name)
  = JsVal.Data value.
Proof.
  intros He Hs Hu Hc. unfold placeholderValue, getNestedValue.
  destruct (Str.split "." (Str.trim name)) as [|root rest]; [discriminate|].
  cbn [fold_left JsVal.getProp].
  rewrite (allVariables_get ctx root He Hs Hu Hc).
  destruct (firstBound root [computed ctx; user ctx; system ctx; env ctx]) as [v|].
  - apply followOwn_getProp.
  - destruct (JsVal.inObjectPrototype root); [discriminate|].
    apply followOwn_getProp.
Qed.

Lemma JsMap_get_map_value {A B : Type} (f : A -> B) k (m : list (string * A)) :
  JsMap.get k (map (fun kv => let '(k0, v) := kv in (k0, f v)) m)
  = option_map f (JsMap.get k m).
Proof.
  induction m as [|[k' v'] m IH]; [reflexivity|].
  cbn [map JsMap.get]. destruct (String.eqb k k'); [reflexivity | exact IH].
Qed.

Lemma JsMap_keys_map_value {A B : Type} (f : A -> B) (m : list (string * A)) :
  JsMap.keys (map (fun kv => let '(k0, v) := kv in (k0, f v)) m) = JsMap.keys m.
Proof.
  unfold JsMap.keys. rewrite map_map. apply map_ext. now intros [k v].
Qed.

End InterpolationOverLayers.

(** C8, as stated, fails on an opening [${] that stands inside a
    placeholder. With [name] bound to ["Ann"] in the user layer, the
    path [name] leads to a defined value and ["${name}"] becomes
    ["Ann"], but in ["${x${name}}"] nothing is replaced: the pattern
    takes the text from the first [${] to the nearest closing brace,
    [x${name], as one path, which leads to [undefined]. *)
Lemma C8_opener_inside_a_placeholder_is_kept :
  placeholderValue sampleNestedOpenerContext "name" = Some (VStr "Ann") /\
  VariableSubstitutionEngine.interpolateVariables sampleRuntime
    (VariableSubstitutionEngine.user sampleNestedOpenerContext)
    sampleNestedOpenerContext
  = [("name", VStr "Ann"); ("plain", VStr "Ann"); ("label", VStr "${x${name}}")].
Proof. split; reflexivity. Qed.

(** C8 (amended): interpolation is one left-to-right pass over the
    strings of the variables, read against the merged layers, where
    the computed layer wins over the user layer, the user layer over
    the system layer, and the system layer over the environment; the
    secrets are not part of the merge. A placeholder is the text from
    an opening [${] to the nearest closing brace. In a string
    [pre ${name} post] whose prefix holds no opening, where [name] is
    written in ASCII and its trimmed dotted path leads through own
    members of objects and elements of arrays to a defined value that
    is printable, the placeholder is replaced by the string form of
    that value; where the path leads to [undefined], the placeholder
    is kept whole. The scan then goes on in [post], so
    the text put in place of a placeholder is never scanned again, and
    an opening inside a placeholder is not a placeholder of its own.
    This is what [interpolateVariables] stores for a variable that
    holds the string, for the array that holds it as an element and
    for the object that holds it as a member, when no member is named
    [__proto__]. *)
Theorem C8_interpolation_single_pass :
  forall (rt : JsVal.Runtime) (ctx : VariableSubstitutionEngine.VariableContext)
         (pre name post : string) (value : JsValue),
    JsMap.wf (VariableSubstitutionEngine.env ctx) ->
    JsMap.wf (VariableSubstitutionEngine.system ctx) ->
    JsMap.wf (VariableSubstitutionEngine.user ctx) ->
    JsMap.wf (VariableSubstitutionEngine.computed ctx) ->
    Str.includesOpener pre = false ->
    name <> "" ->
    Str.contains "}"%char name = false ->
    asciiOnly name = true ->
    placeholderValue ctx name = Some value ->
    printable value = true ->
    let all := VariableSubstitutionEngine.allVariables ctx in
    let text := pre ++ "${" ++ name ++ "}" ++ post in
    let result :=
      pre
      ++ (if JsVal.isUndefined value then "${" ++ name ++ "}"
          else JsVal.ToString value)
      ++ VariableSubstitutionEngine.interpolateString rt post all in
    VariableSubstitutionEngine.interpolateString rt text all = result /\
    forall (vars : list (string * JsValue)) (key : string),
      JsMap.wf vars ->
      JsMap.has "__proto__" vars = false ->
      let out := VariableSubstitutionEngine.interpolateVariables rt vars ctx in
      (JsMap.get key vars = Some (VStr text) ->
       JsMap.get key out = Some (VStr result)) /\
      (forall items i,
         JsMap.get key vars = Some (VArr items) ->
         nth_error items i = Some (VStr text) ->
         exists items',
           JsMap.get key out = Some (VArr items') /\
           nth_error items' i = Some (VStr result)) /\
      (forall props member,
         JsMap.get key vars = Some (VObj props) ->
         JsMap.wf props ->
         JsMap.has "__proto__" props = false ->
         JsMap.get member props = Some (VStr text) ->
         exists props',
           JsMap.get key out = Some (VObj props') /\
           JsMap.get member props' = Some (VStr result)).
Proof.
  intros rt ctx pre name post value He Hs Hu Hc Hpre Hname Hclose _ Hvalue _
         all text result.
  assert (Hstring :
    VariableSubstitutionEngine.interpolateString rt text all = result).
  { unfold text, result.
    rewrite (interpolateString_plain_prefix rt pre _ all Hpre) by reflexivity.
    rewrite (interpolateString_token rt name post all Hname Hclose).
    unfold VariableSubstitutionEngine.substitute, all.
    now rewrite (getNestedValue_layers ctx name value He Hs Hu Hc Hvalue). }
  split; [exact Hstring|].
  intros vars key Hwf _ out.
  destruct (interpolateVariables_fold rt all vars [] Hwf) as [_ Hget];
    [reflexivity|].
  cbv zeta in Hget.
  change (fold_left
            (fun interpolated (kv : string * JsValue) =>
               JsMap.set (fst kv)
                 (VariableSubstitutionEngine.interpolateValue rt all (snd kv))
                 interpolated) vars [])
    with out in Hget.
  split; [|split].
  - intros Hkey. rewrite (Hget key _ Hkey).
    cbn [VariableSubstitutionEngine.interpolateValue]. now rewrite Hstring.
  - intros items i Hkey Hitem. rewrite (Hget key _ Hkey).
    cbn [VariableSubstitutionEngine.interpolateValue].
    eexists. split; [reflexivity|].
    rewrite nth_error_map, Hitem. cbn [option_map]. now rewrite Hstring.
  - intros props member Hkey Hprops _ Hmember. rewrite (Hget key _ Hkey).
    cbn [VariableSubstitutionEngine.interpolateValue
           VariableSubstitutionEngine.interpolateObject].
    eexists. split; [reflexivity|].
    rewrite JsMap_assign_nil.
    + rewrite (JsMap_get_map_value
                 (fun v => VariableSubstitutionEngine.interpolateObject rt v all)).
      rewrite Hmember. cbn [option_map VariableSubstitutionEngine.interpolateObject].
      now rewrite Hstring.
    + unfold JsMap.wf.
      rewrite (JsMap_keys_map_value
                 (fun v => VariableSubstitutionEngine.interpolateObject rt v all)).
      exact Hprops.
Qed.

(** The amended C8 on the examples of the specification: with
    [user.name = "Ann"], ["Hi ${user.name}"] gives ["Hi Ann"] and
    ["${missing.x}"] stays as it is. *)
Lemma C8_interpolation_single_pass_witness :
  let out :=
    VariableSubstitutionEngine.interpolateVariables sampleRuntime sampleVariables
      sampleUserContext in
  JsMap.get "greeting" out = Some (VStr "Hi Ann") /\
  JsMap.get "pending" out = Some (VStr "${missing.x}").
Proof.
  split.
  - pose proof (C8_interpolation_single_pass sampleRuntime sampleUserContext
                  "Hi " "user.name" "" (VStr "Ann")
                  ltac:(repeat constructor; cbn; intuition discriminate)
                  ltac:(repeat constructor; cbn; intuition discriminate)
                  ltac:(repeat constructor; cbn; intuition discriminate)
                  ltac:(repeat constructor; cbn; intuition discriminate)
                  eq_refl ltac:(discriminate) eq_refl eq_refl eq_refl eq_refl)
      as [_ Hvars].
    exact (proj1 (Hvars sampleVariables "greeting"
                    ltac:(repeat constructor; cbn; intuition discriminate)
                    eq_refl) eq_refl).
  - pose proof (C8_interpolation_single_pass sampleRuntime sampleUserContext
                  "" "missing.x" "" VUndefined
                  ltac:(repeat constructor; cbn; intuition discriminate)
                  ltac:(repeat constructor; cbn; intuition discriminate)
                  ltac:(repeat constructor; cbn; intuition discriminate)
                  ltac:(repeat constructor; cbn; intuition discriminate)
                  eq_refl ltac:(discriminate) eq_refl eq_refl eq_refl eq_refl)
      as [_ Hvars].
    exact (proj1 (Hvars sampleVariables "pending"
                    ltac:(repeat constructor; cbn; intuition discriminate)
                    eq_refl) eq_refl).
Defined.

(** ** The context cache does not tell the calls apart *)

Section ContextCacheFurther.
Import VariableSubstitutionEngine.


End ContextCacheFurther.


(** ** Batches: jobs, results, counts *)

Section BatchFurther.
Import StreamingFileProcessor.
Variable pl : PathLib.
Variable fs : FileSystem.
Variable cfg : TemplateParser.TemplateParserConfig.

Lemma createProcessingJobs_fold sourceDir destinationDir vars options found :
  forall jobs,
    fold_left
      (fun jobs file =>
         (jobs ++ [{| id := "job_" ++ Json.NumberToString
                                        (Z.of_nat (List.length jobs));
                      job_sourcePath := file;
                      job_destinationPath :=
                        join pl destinationDir (relative pl sourceDir file);
                      job_variables := vars;
                      job_options := options |}])%list)
      found jobs
    = (jobs ++ map (jobFor pl sourceDir destinationDir vars options)
                 (combine (seq (List.length jobs) (List.length found)) found))%list.
Proof.
  induction found as [|file found IH]; intros jobs; cbn [fold_left].
  - cbn. now rewrite app_nil_r.
  - rewrite IH. rewrite length_app. cbn [List.length seq combine map].
    rewrite <- app_assoc. cbn [app]. unfold jobFor at 2. cbn [fst snd].
    now rewrite Nat.add_1_r.
Qed.

(** X25: [createProcessingJobs] makes one job per file, in the order
    of the files: the job of the file at position [i] is named
    [job_i], reads that file and writes to the destination directory
    joined with the path of the file relative to the source directory;
    all jobs carry the same variables and options. *)
Theorem X25_one_job_per_file sourceDir destinationDir vars options found :
  createProcessingJobs pl found sourceDir destinationDir vars options
  = map (jobFor pl sourceDir destinationDir vars options)
      (combine (seq 0 (List.length found)) found).
Proof.
  unfold createProcessingJobs. rewrite createProcessingJobs_fold.
  reflexivity.
Qed.

Lemma processFileBody_shape src dst vars options st r :
  fst (processFileBody pl fs cfg src dst vars options st) = Ok r ->
  sourcePath r = src /\ destinationPath r = dst /\ errorMessage r = None /\
  status r <> error /\
  (status r = skipped -> templated r = false) /\
  (templated r = true -> isTemplateFile pl src (templateExtensions options) = true).
Proof.
  unfold processFileBody.
  destruct (mkdirRecursive fs (dirname pl dst)); [|discriminate].
  destruct (stat fs src) as [stats|]; [|discriminate].
  destruct (negb (shouldProcessFile src stats options)).
  { cbn [fst]. intros [= <-]. cbn. repeat split; congruence. }
  destruct (isBinaryFile fs src && skipBinary options).
  { destruct (copyFile fs src dst); [|discriminate].
    destruct (if preservePermissions options then _ else _); [|discriminate].
    cbn [fst]. intros [= <-]. cbn. repeat split; congruence. }
  destruct (if isTemplateFile pl src (templateExtensions options) then _ else _)
    as [[u|m] st1]; [|discriminate].
  destruct (if preservePermissions options then _ else _); [|discriminate].
  cbn [fst]. intros [= <-]. cbn. repeat split; congruence.
Qed.

(** X26: [processFile] always returns a result, for the paths it was
    given; an ["error"] result carries a message, size [0] and
    [templated = false], any other result carries no message; a
    ["skipped"] result is never templated, and a templated result is a
    success for a file with a template extension. *)
Theorem X26_processFile_always_returns_a_result src dst vars options st :
  exists r,
    fst (processFile pl fs cfg src dst vars options st) = Ok r /\
    resultShape src dst r /\
    (templated r = true ->
     status r = success /\
     isTemplateFile pl src (templateExtensions options) = true).
Proof.
  unfold processFile.
  destruct (processFileBody pl fs cfg src dst vars options st) as [[r|msg] st1] eqn:E.
  - exists r. split; [reflexivity|].
    destruct (processFileBody_shape src dst vars options st r)
      as (H1 & H2 & H3 & H4 & H5 & H6); [now rewrite E|].
    unfold resultShape. split; [split; [exact H1|split; [exact H2|]]|].
    + destruct (status r); [exact H3 | split; [exact H3 | now apply H5] | congruence].
    + intros Ht. split; [|now apply H6].
      destruct (status r); [reflexivity | rewrite H5 in Ht by reflexivity; discriminate
                           | congruence].
  - eexists. split; [reflexivity|]. unfold resultShape. cbn.
    split; [repeat split; congruence | discriminate].
Qed.

Lemma jobOutcome_shape job st :
  resultShape (job_sourcePath job) (job_destinationPath job)
    (fst (jobOutcome pl fs cfg job st)).
Proof.
  unfold jobOutcome, processFile.
  destruct (processFileBody pl fs cfg (job_sourcePath job) (job_destinationPath job)
              (job_variables job) (job_options job) st) as [[r|msg] st1] eqn:E.
  - cbn [fst].
    destruct (processFileBody_shape _ _ _ _ _ r ltac:(now rewrite E))
      as (H1 & H2 & H3 & H4 & H5 & _).
    unfold resultShape. split; [exact H1|]. split; [exact H2|].
    destruct (status r); [exact H3 | split; [exact H3 | now apply H5] | congruence].
  - cbn [fst]. unfold resultShape. cbn. repeat split; congruence.
Qed.

Lemma processJobsConcurrently_shape jobs :
  forall st,
    Forall2 (fun job r =>
               resultShape (job_sourcePath job) (job_destinationPath job) r)
      jobs (fst (processJobsConcurrently pl fs cfg jobs st)).
Proof.
  induction jobs as [|job jobs IH]; intros st.
  - constructor.
  - rewrite processJobsConcurrently_cons. cbn [fst].
    constructor; [apply jobOutcome_shape | apply IH].
Qed.

Lemma countStatus_partition rs :
  (countStatus success rs + countStatus skipped rs + countStatus error rs)%Z
  = Z.of_nat (List.length rs) /\
  (0 <= countStatus success rs)%Z /\ (0 <= countStatus skipped rs)%Z /\
  (0 <= countStatus error rs)%Z.
Proof.
  unfold countStatus. split; [|lia].
  induction rs as [|r rs IH]; [reflexivity|].
  cbn [filter List.length]. destruct (status r); cbn [Status_eqb List.length]; lia.
Qed.

(** X27: [processBatch] throws only when the discovery throws, and
    then with its message and without touching the parser. Otherwise
    the batch holds one result per discovered file, in the order of the
    discovery, each for the source file and its destination under the
    destination directory; the three counts add up to [totalFiles]. *)
Theorem X27_one_result_per_discovered_file
    sourceDir destinationDir vars options st :
  match discoverFiles fs sourceDir (mergeOptions options) with
  | Throw msg =>
      processBatch pl fs cfg sourceDir destinationDir vars options st
      = (Throw msg, st)
  | Ok files =>
      exists b st',
        processBatch pl fs cfg sourceDir destinationDir vars options st
        = (Ok b, st') /\
        map sourcePath (results b) = files /\
        map destinationPath (results b)
        = map (fun file => join pl destinationDir (relative pl sourceDir file))
            files /\
        totalFiles b = Z.of_nat (List.length files) /\
        (successCount b + skippedCount b + errorCount b)%Z = totalFiles b /\
        (0 <= successCount b)%Z /\ (0 <= skippedCount b)%Z /\
        (0 <= errorCount b)%Z
  end.
Proof.
  unfold processBatch.
  destruct (discoverFiles fs sourceDir (mergeOptions options)) as [files|msg];
    [|reflexivity].
  set (jobs := createProcessingJobs pl files sourceDir destinationDir vars
                 (mergeOptions options)).
  pose proof (processJobsConcurrently_shape jobs st) as Hshape.
  destruct (processJobsConcurrently pl fs cfg jobs st) as [rs st1].
  cbn [fst] in Hshape.
  exists (createBatchResult rs (batchElapsed fs)), st1.
  split; [reflexivity|]. unfold createBatchResult.
  cbn [results totalFiles successCount skippedCount errorCount].
  assert (Hsnd : forall (l : list string) a,
            map snd (combine (seq a (List.length l)) l) = l).
  { induction l as [|x l IHl]; intros a; [reflexivity|].
    cbn [List.length seq combine map snd]. now rewrite IHl. }
  assert (Hjobs : map job_sourcePath jobs = files /\
                  map job_destinationPath jobs
                  = map (fun file => join pl destinationDir (relative pl sourceDir file))
                      files).
  { unfold jobs, createProcessingJobs.
    rewrite createProcessingJobs_fold. cbn [app List.length]. rewrite !map_map.
    cbn [jobFor job_sourcePath job_destinationPath].
    split.
    - rewrite <- (map_map snd (fun x => x)), Hsnd. apply map_id.
    - rewrite <- (map_map snd
                    (fun file => join pl destinationDir (relative pl sourceDir file))).
      now rewrite Hsnd. }
  destruct Hjobs as [Hs Hd].
  assert (Hres : map sourcePath rs = map job_sourcePath jobs /\
                 map destinationPath rs = map job_destinationPath jobs).
  { clear -Hshape. induction Hshape as [|job r jobs rs (H1 & H2 & _) _ IH];
      [split; reflexivity|].
    destruct IH as [IH1 IH2]. cbn [map]. now rewrite H1, H2, IH1, IH2. }
  destruct Hres as [Hrs Hrd].
  destruct (countStatus_partition rs) as (Hsum & H1 & H2 & H3).
  split; [congruence|]. split; [congruence|].
  assert (Hlen : List.length rs = List.length files).
  { rewrite <- (length_map sourcePath rs), Hrs, Hs. reflexivity. }
  split; [now rewrite Hlen|]. split; [exact Hsum|]. auto.
Qed.

End BatchFurther.

Section TemplateFiles.
Import StreamingFileProcessor.
Variable pl : PathLib.
Variable fs : FileSystem.
Variable cfg : TemplateParser.TemplateParserConfig.

(** X29: a file whose extension is not a template extension never
    reaches the parser: whatever happens to the file, the cache and the
    counters of the parser are those of before the call. *)
Theorem X29_other_files_leave_the_parser_alone src dst vars options st :
  isTemplateFile pl src (templateExtensions options) = false ->
  snd (processFile pl fs cfg src dst vars options st) = st.
Proof.
  intros Hext. unfold processFile, processFileBody. rewrite Hext.
  destruct (mkdirRecursive fs (dirname pl dst)); [|reflexivity].
  destruct (stat fs src) as [stats|]; [|reflexivity].
  destruct (negb (shouldProcessFile src stats options)); [reflexivity|].
  destruct (isBinaryFile fs src && skipBinary options).
  { destruct (copyFile fs src dst); [|reflexivity].
    destruct (if preservePermissions options then _ else _); reflexivity. }
  destruct (streamCopy fs src dst); [|reflexivity].
  destruct (if preservePermissions options then _ else _); reflexivity.
Qed.

Lemma toLowerCase_idempotent s :
  JsVal.toLowerCase (JsVal.toLowerCase s) = JsVal.toLowerCase s.
Proof. apply toLowerCase_fixed, toLowerCase_notUpper. Qed.

(** X30: [isTemplateFile] lowers the case of the extension of the
    file and compares it with the configured extensions as they are:
    the case of the file's extension does not matter, and a configured
    extension that is not in lower case matches no file. *)
Theorem X30_configured_extensions_must_be_lower_case file exts :
  isTemplateFile pl file exts
  = isTemplateFile pl file (filter isLowerCase exts) /\
  forall file',
    JsVal.toLowerCase (extname pl file') = JsVal.toLowerCase (extname pl file) ->
    isTemplateFile pl file' exts = isTemplateFile pl file exts.
Proof.
  split.
  - unfold isTemplateFile.
    induction exts as [|e exts IH]; [reflexivity|].
    cbn [existsb filter]. unfold isLowerCase at 1.
    destruct (String.eqb_spec (JsVal.toLowerCase e) e) as [He|He].
    + cbn [existsb]. now rewrite IH.
    + rewrite <- IH.
      destruct (String.eqb_spec (JsVal.toLowerCase (extname pl file)) e)
        as [Heq|Hne]; [|reflexivity].
      exfalso. apply He. rewrite <- Heq. apply toLowerCase_idempotent.
  - intros file' H. unfold isTemplateFile. now rewrite H.
Qed.

End TemplateFiles.

Lemma X29_other_files_leave_the_parser_alone_witness :
  snd (StreamingFileProcessor.processFile samplePathLib sampleFileSystem
         (sampleParserConfig 10) "/src/logo.png" "/out/logo.png" []
         (StreamingFileProcessor.mergeOptions sampleNoOptions)
         TemplateParser.initialState)
  = TemplateParser.initialState.
Proof.
  apply X29_other_files_leave_the_parser_alone. reflexivity.
Defined.

(** ** The version test of the engine and the versions of the catalog *)

Section VersionTest.
Import TemplateEngine.

Lemma splitAux_join sep s :
  forall cur,
    Json.join (String sep "") (Str.splitAux sep cur s) = cur ++ s.
Proof.
  induction s as [|c s IH]; intros cur.
  - cbn [Str.splitAux Json.join]. now rewrite append_nil_r.
  - cbn [Str.splitAux]. destruct (Ascii.eqb_spec c sep) as [->|Hne].
    + specialize (IH ""). cbn [append] in IH.
      destruct (Str.splitAux sep "" s) as [|x rest] eqn:E.
      * destruct s; cbn [Str.splitAux] in E; [discriminate|].
        destruct (Ascii.eqb _ _); discriminate.
      * cbn [Json.join]. cbn [Json.join] in IH. rewrite IH. reflexivity.
    + rewrite IH, append_assoc. reflexivity.
Qed.

Lemma parseNumeric_digits s n :
  Semver.parseNumeric s = Some n -> Str.allDigits s = true /\ s <> "".
Proof.
  unfold Semver.parseNumeric. destruct s as [|c rest]; [discriminate|].
  destruct (Str.allDigits (String c rest)); [|discriminate].
  intros _. split; [reflexivity | discriminate].
Qed.

Lemma spanDigits_run a rest :
  Str.allDigits a = true ->
  match rest with
  | EmptyString => True
  | String c _ => Str.isDigit c = false
  end ->
  spanDigits (a ++ rest) = (a, rest).
Proof.
  intros Ha Hrest. induction a as [|c a IH].
  - cbn [append]. destruct rest as [|c r]; [reflexivity|].
    cbn [spanDigits]. now rewrite Hrest.
  - cbn [Str.allDigits] in Ha. apply andb_true_iff in Ha as [Hc Ha].
    cbn [append spanDigits]. rewrite Hc, (IH Ha). reflexivity.
Qed.

(** X10: a version [MAJOR.MINOR.PATCH] that [Semver.parse] reads
    passes the version test of [validateTemplate]: the test never
    rejects such a version, which the catalog can order. *)
Theorem X10_versions_that_parse_pass_the_test v parsed :
  Semver.parse v = Some parsed -> isValidSemver v = true.
Proof.
  unfold Semver.parse, Str.split. intros H.
  pose proof (splitAux_join "."%char v "") as Hjoin. cbn [append] in Hjoin.
  destruct (Str.splitAux "."%char "" v) as [|a [|b [|c [|d rest]]]];
    try discriminate.
  destruct (Semver.parseNumeric a) as [x|] eqn:Ea; [|discriminate].
  destruct (Semver.parseNumeric b) as [y|] eqn:Eb; [|discriminate].
  destruct (Semver.parseNumeric c) as [z|] eqn:Ec; [|discriminate].
  apply parseNumeric_digits in Ea as [Ha Ha'], Eb as [Hb Hb'], Ec as [Hc Hc'].
  cbn [Json.join] in Hjoin. subst v. unfold isValidSemver.
  change (String "."%char "" ++ b ++ String "."%char "" ++ c)
    with (String "."%char (b ++ String "."%char c)).
  rewrite (spanDigits_run a) by (exact Ha || reflexivity).
  rewrite (spanDigits_run b) by (exact Hb || reflexivity).
  rewrite <- (append_nil_r c).
  rewrite (spanDigits_run c) by (exact Hc || exact I).
  unfold nonEmpty.
  destruct a; [congruence|]. destruct b; [congruence|]. destruct c; [congruence|].
  reflexivity.
Qed.

End VersionTest.

Lemma X10_versions_that_parse_pass_the_test_witness :
  TemplateEngine.isValidSemver "1.10.0" = true.
Proof.
  apply (X10_versions_that_parse_pass_the_test "1.10.0" (1, 10, 0)%N).
  reflexivity.
Defined.

Section SharedTemplates.
Import StreamingFileProcessor.
Variable pl : PathLib.
Variable fs : FileSystem.
Variable cfg : TemplateParser.TemplateParserConfig.

(** X28: [processTemplateFile] looks the template up by the base name
    of the source file. When two source files of a batch have the same
    base name, the second one is rendered, whatever its directory, from
    the template that was compiled for the first: the parser counts one
    miss, one compilation and one hit for the two files. *)
Theorem X28_same_base_name_shares_the_compiled_template
    src1 src2 dst1 dst2 vars st c :
  basename pl src1 = basename pl src2 ->
  JsMap.get
    (TemplateParser.generateCacheKey
       (resolve pl (TemplateParser.templateRoot cfg) (basename pl src1))
       (Some vars))
    (TemplateParser.cache st) = None ->
  compile fs (resolve pl (TemplateParser.templateRoot cfg) (basename pl src1))
  = Ok c ->
  (TemplateParser.nowLookup (parseClock fs src2)
   <= TemplateParser.nowInsert (parseClock fs src1) + 5 * 60 * 1000)%Z ->
  let first := processTemplateFile pl fs cfg src1 dst1 vars st in
  let second := processTemplateFile pl fs cfg src2 dst2 vars (snd first) in
  let before := TemplateParser.performanceMetrics st in
  let after := TemplateParser.performanceMetrics (snd second) in
  fst second
  = match render fs (TemplateParser.c_template c) vars with
    | Ok text => writeFile fs dst2 text
    | Throw msg => Throw ("Template rendering failed: " ++ msg)
    end /\
  TemplateParser.cacheMisses after = (TemplateParser.cacheMisses before + 1)%Z /\
  TemplateParser.totalCompilations after
  = (TemplateParser.totalCompilations before + 1)%Z /\
  TemplateParser.cacheHits after = (TemplateParser.cacheHits before + 1)%Z.
Proof.
  intros Hbase Hnew Hcompile Hnow. cbv zeta.
  set (key := TemplateParser.generateCacheKey _ _) in Hnew.
  (* the first file: a miss, compiled and stored *)
  assert (Hfirst :
    exists r cache1,
      snd (processTemplateFile pl fs cfg src1 dst1 vars st)
      = {| TemplateParser.cache := cache1;
           TemplateParser.performanceMetrics :=
             TemplateParser.updatePerformanceMetrics
               (TemplateParser.c_compilationTime c)
               (TemplateParser.countMiss (TemplateParser.performanceMetrics st)) |}
      /\ TemplateParser.template r = TemplateParser.c_template c
      /\ JsMap.get key cache1
         = Some {| TemplateParser.result := r;
                   TemplateParser.lastAccessed :=
                     TemplateParser.nowInsert (parseClock fs src1);
                   TemplateParser.accessCount := 1;
                   TemplateParser.ttl :=
                     (TemplateParser.nowInsert (parseClock fs src1)
                      + 5 * 60 * 1000)%Z |}).
  { unfold processTemplateFile, TemplateParser.parseTemplate.
    cbn [TemplateParser.skipCache TemplateParser.optVariables].
    fold key. unfold TemplateParser.getCachedTemplate. rewrite Hnew, Hcompile.
    exists {| TemplateParser.template := TemplateParser.c_template c;
              TemplateParser.compilationTime := TemplateParser.c_compilationTime c;
              TemplateParser.dependencies :=
                TemplateParser.partials (TemplateParser.c_metadata c);
              TemplateParser.metadata := TemplateParser.c_metadata c;
              TemplateParser.cacheKey := key |}.
    eexists. split.
    - destruct (renderTemplate fs _ vars); reflexivity.
    - split; [reflexivity|]. apply cacheTemplate_get. }
  destruct Hfirst as (r & cache1 & Hst1 & Htemplate & Hget).
  rewrite Hst1.
  unfold processTemplateFile at 1 2 3 4, TemplateParser.parseTemplate.
  cbn [TemplateParser.skipCache TemplateParser.optVariables].
  rewrite <- Hbase. fold key.
  unfold TemplateParser.getCachedTemplate.
  cbn [TemplateParser.cache]. rewrite Hget. cbn [TemplateParser.ttl].
  replace (TemplateParser.nowLookup (parseClock fs src2)
           >? TemplateParser.nowInsert (parseClock fs src1) + 5 * 60 * 1000)%Z
    with false by (symmetry; rewrite Z.gtb_ltb; apply Z.ltb_ge; lia).
  cbn [TemplateParser.result]. unfold renderTemplate. rewrite Htemplate.
  destruct (render fs (TemplateParser.c_template c) vars); cbn; auto.
Qed.

End SharedTemplates.

Lemma X28_same_base_name_shares_the_compiled_template_witness :
  TemplateParser.cacheHits
    (TemplateParser.performanceMetrics
       (snd (StreamingFileProcessor.processTemplateFile samplePosixPathLib
               sampleFileSystem (sampleParserConfig 10)
               "/src/b/index.eta" "/out/b/index" []
               (snd (StreamingFileProcessor.processTemplateFile samplePosixPathLib
                       sampleFileSystem (sampleParserConfig 10)
                       "/src/a/index.eta" "/out/a/index" []
                       TemplateParser.initialState)))))
  = 1%Z.
Proof.
  destruct (X28_same_base_name_shares_the_compiled_template
              samplePosixPathLib sampleFileSystem (sampleParserConfig 10)
              "/src/a/index.eta" "/src/b/index.eta" "/out/a/index" "/out/b/index"
              [] TemplateParser.initialState
              {| TemplateParser.c_template := 1;
                 TemplateParser.c_metadata := sampleMetadata;
                 TemplateParser.c_compilationTime := 3 |}
              eq_refl eq_refl eq_refl)
    as (_ & _ & _ & Hhits).
  - cbn. lia.
  - exact Hhits.
Defined.
